(** * mini-chatgpt: the send / retry / cancel / pagination pipeline

    A shallow embedding of the backend routes
    ([src/routes/messages.ts], [src/routes/conversations.ts]), the cursor
    utilities ([src/utils/pagination.ts]), the provider adapter
    ([src/lib/llmAdapter.ts]), the client-side message ordering
    ([hooks/use-chat-conversation]), the client's error mapping
    ([lib/api.ts]) and its send and retry handlers ([hooks/use-send-message],
    [handleRetryMessage]).

    Conventions.
    - Times are [Z] milliseconds since the epoch ([Date.now()], a [DateTime]
      column, [new Date(s).getTime()]).
    - A JavaScript string is a [string]: the bytes of its UTF-8 form, so
      [Buffer.from(s)] and [toString('utf-8')] are the identity on it.
    - The store is a pair of tables kept in insertion order.  Whatever the
      code obtains from outside (the clock, the identifiers the store assigns,
      what the provider answers) is an explicit input of the handler. *)

From Stdlib Require Import ZArith NArith List String Ascii Bool Lia.
From Stdlib Require Import Sorting.Sorted Sorting.Permutation.
From Stdlib Require Import DecimalString.
Import ListNotations.

Set Warnings "-register-all".

Local Open Scope string_scope.
Local Open Scope list_scope.
Local Open Scope Z_scope.

(** ** JavaScript helpers *)

Module JS.

(** [hay.includes(needle)] *)
Fixpoint includes (needle hay : string) : bool :=
  if String.prefix needle hay then true
  else match hay with
       | EmptyString => false
       | String _ hay' => includes needle hay'
       end.

(** [xs.join(sep)] *)
Fixpoint join (sep : string) (xs : list string) : string :=
  match xs with
  | [] => ""
  | [x] => x
  | x :: rest => (x ++ sep ++ join sep rest)%string
  end.

(** Template-literal rendering [`${n}`] of an integer. *)
Definition showInt (n : Z) : string :=
  NilZero.string_of_int (Z.to_int n).

(** [x || d] on a possibly missing string: the empty string is falsy. *)
Definition orElse (x : option string) (d : string) : string :=
  match x with
  | Some s => if String.eqb s "" then d else s
  | None => d
  end.

(** Truthiness of an optional string, as in [if (body.existingMessageId)]. *)
Definition truthy (x : option string) : bool :=
  match x with
  | Some s => negb (String.eqb s "")
  | None => false
  end.

(** A thrown value.  [ZodError] is the only class the handlers tell apart
    with [instanceof]; every other exception is an [Error] with a message. *)
Inductive Exn :=
| ZodError
| Error (msg : string).

Inductive Result (A : Type) :=
| Ok (a : A)
| Throw (e : Exn).
Arguments Ok {A} a.
Arguments Throw {A} e.

End JS.

(** ** JSON values *)

Module Json.

(** A parsed JSON document.  A number keeps its lexeme: the handlers never
    look at its numeric value. *)
Inductive JValue :=
| JNull
| JBool (b : bool)
| JNumber (lexeme : string)
| JString (s : string)
| JArray (items : list JValue)
| JObject (fields : list (string * JValue)).

(** [obj[key]] on a parsed object: a repeated key keeps its last value;
    [None] is [undefined]. *)
Fixpoint lookup (key : string) (fields : list (string * JValue)) : option JValue :=
  match fields with
  | [] => None
  | (k, v) :: rest =>
      match lookup key rest with
      | Some v' => Some v'
      | None => if String.eqb k key then Some v else None
      end
  end.

End Json.

(** ** The store (Prisma over SQLite) *)

Module Prisma.

Inductive Role := User | Assistant.

Definition role_eqb (a b : Role) : bool :=
  match a, b with
  | User, User | Assistant, Assistant => true
  | _, _ => false
  end.

Definition roleName (r : Role) : string :=
  match r with User => "user" | Assistant => "assistant" end.

(** Table [messages]. *)
Record Message := {
  id : string;
  conversationId : string;
  role : Role;
  content : string;
  createdAt : Z
}.

(** Table [conversations] after the [add_display_index] migration. *)
Record Conversation := {
  cid : string;
  title : string;
  displayIndex : Z;
  cCreatedAt : Z;
  lastMessageAt : option Z
}.

Record Store := {
  conversations : list Conversation;
  messages : list Message
}.

Definition empty : Store := {| conversations := []; messages := [] |}.

(** *** Ordering

    [ORDER BY] is modelled as a stable insertion sort of the rows in
    insertion order: rows that compare equal keep the order in which they
    were inserted. *)

Section Sorting.
Context {A : Type} (before : A -> A -> bool).

Fixpoint insertSorted (x : A) (l : list A) : list A :=
  match l with
  | [] => [x]
  | y :: ys => if before x y then x :: y :: ys else y :: insertSorted x ys
  end.

Fixpoint sortBy (l : list A) : list A :=
  match l with
  | [] => []
  | x :: xs => insertSorted x (sortBy xs)
  end.
End Sorting.

Definition createdAtAsc (a b : Message) : bool := createdAt a <=? createdAt b.
Definition createdAtDesc (a b : Message) : bool := createdAt b <=? createdAt a.

(** *** Messages *)

(** [prisma.message.findUnique({ where: { id } })] *)
Definition findUniqueMessage (db : Store) (mid : string) : option Message :=
  find (fun m => String.eqb (id m) mid) (messages db).

(** [prisma.message.findFirst({ where: { conversationId, role, content,
    createdAt: { gte } }, orderBy: { createdAt: 'desc' } })] *)
Definition recentDuplicate (conv : string) (r : Role) (text : string) (since : Z)
  (m : Message) : bool :=
  String.eqb (conversationId m) conv && role_eqb (role m) r
  && String.eqb (content m) text && (since <=? createdAt m).

Definition findFirstDuplicate (db : Store) (conv : string) (r : Role)
  (text : string) (since : Z) : option Message :=
  hd_error (sortBy createdAtDesc (filter (recentDuplicate conv r text since) (messages db))).

(** [prisma.conversation.findUnique({ where: { id } })] *)
Definition findUniqueConversation (db : Store) (conv : string) : option Conversation :=
  find (fun c => String.eqb (cid c) conv) (conversations db).

(** [prisma.message.create({ data })]: the store assigns [newId] and the
    timestamp [at].  The primary key and the foreign key are enforced by the
    database; a violation makes the call throw. *)
Definition createMessage (db : Store) (newId : string) (at_ : Z)
  (conv : string) (r : Role) (text : string) : JS.Result (Store * Message) :=
  match findUniqueMessage db newId with
  | Some _ => JS.Throw (JS.Error "Unique constraint failed on the fields: (`id`)")
  | None =>
      match findUniqueConversation db conv with
      | None => JS.Throw (JS.Error "Foreign key constraint failed")
      | Some _ =>
          let m := {| id := newId; conversationId := conv; role := r;
                      content := text; createdAt := at_ |} in
          JS.Ok ({| conversations := conversations db;
                    messages := messages db ++ [m] |}, m)
      end
  end.

(** [prisma.message.findMany({ where: { conversationId },
    orderBy: { createdAt: 'asc' } })] *)
Definition findManyHistory (db : Store) (conv : string) : list Message :=
  sortBy createdAtAsc
    (filter (fun m => String.eqb (conversationId m) conv) (messages db)).

(** [prisma.conversation.update({ where: { id }, data: { lastMessageAt } })] *)
Definition touch (at_ : Z) (c : Conversation) : Conversation :=
  {| cid := cid c; title := title c; displayIndex := displayIndex c;
     cCreatedAt := cCreatedAt c; lastMessageAt := Some at_ |}.

Definition updateLastMessageAt (db : Store) (conv : string) (at_ : Z)
  : JS.Result Store :=
  match findUniqueConversation db conv with
  | None => JS.Throw (JS.Error "Record to update not found.")
  | Some _ =>
      JS.Ok {| conversations :=
                 map (fun c => if String.eqb (cid c) conv then touch at_ c else c)
                     (conversations db);
               messages := messages db |}
  end.

End Prisma.

(** ** The provider adapter ([lib/llmAdapter.ts]) *)

Module Llm.

(** What the handlers and the retry hooks read of a rejected axios call:
    [axios.isCancel(error)], [error.message], [error.response?.status]. *)
Record AxiosError := {
  isCancel : bool;
  message : string;
  response : option Z
}.

(** *** [createHttpClient]: the configuration handed to axios and axios-retry *)

Definition timeout : Z := 12000.
Definition retries : Z := 2.

(** [retryDelay]: [500 * Math.pow(2, retryCount - 1)], called with
    [retryCount >= 1]. *)
Definition retryDelay (retryCount : Z) : Z := 500 * 2 ^ (retryCount - 1).

(** [retryCondition]: [!error.response || error.response.status >= 500] *)
Definition retryCondition (error : AxiosError) : bool :=
  match response error with
  | None => true
  | Some status => 500 <=? status
  end.

(** *** The provider as seen from the client

    The provider is a black box: for the k-th request it would answer after
    [latency] milliseconds with [reply].  The caller's abort signal fires at
    the instant [abortAt], if ever. *)

Inductive Reply :=
| HttpResponse (status : Z) (field : option string)
| NetworkError (msg : string).

Record Attempt := {
  latency : Z;
  reply : Reply
}.

Definition canceled : AxiosError :=
  {| isCancel := true; message := "canceled"; response := None |}.

Definition timedOut (ms : Z) : AxiosError :=
  {| isCancel := false;
     message := "timeout of " ++ JS.showInt ms ++ "ms exceeded";
     response := None |}.

Definition badStatus (status : Z) : AxiosError :=
  {| isCancel := false;
     message := "Request failed with status code " ++ JS.showInt status;
     response := Some status |}.

Definition networkFailure (msg : string) : AxiosError :=
  {| isCancel := false; message := msg; response := None |}.

(** [settle]: axios resolves a 2xx response and rejects any other. *)
Definition settle (r : Reply) : option string + AxiosError :=
  match r with
  | HttpResponse status field =>
      if (200 <=? status) && (status <? 300) then inl field
      else inr (badStatus status)
  | NetworkError msg => inr (networkFailure msg)
  end.

Definition firedBy (abortAt : option Z) (t : Z) : bool :=
  match abortAt with
  | Some a => a <=? t
  | None => false
  end.

(** One axios request started at [start] with [config.timeout = limit]:
    the instant it settles and how.  An already aborted signal rejects the
    request before it is sent; otherwise the first of abort, timeout and
    answer decides. *)
Definition dispatch (start limit : Z) (abortAt : option Z) (a : Attempt)
  : Z * (option string + AxiosError) :=
  if firedBy abortAt start then (start, inr canceled)
  else
    let due := start + Z.min (latency a) limit in
    match abortAt with
    | Some t => if t <? due then (t, inr canceled)
                else if limit <=? latency a then (start + limit, inr (timedOut limit))
                else (start + latency a, settle (reply a))
    | None => if limit <=? latency a then (start + limit, inr (timedOut limit))
              else (start + latency a, settle (reply a))
    end.

(** What a call left behind: each request with the instants it started and
    settled, and each [onRetry] notification (the "LLM request failed,
    retrying..." log line) with the retry number and the delay. *)
Inductive Event :=
| Requested (start finish : Z) (outcome : option string + AxiosError)
| OnRetry (retryCount delayMs : Z).

Record Call := {
  events : list Event;
  finishedAt : Z;
  result : option string + AxiosError
}.

(** The axios-retry interceptor installed by [createHttpClient].
    [budget] is [retries - retryCount], so that [budget = S _] is the
    interceptor's test [retryCount < retries].  The timeout is not reset
    between attempts ([shouldResetTimeout] is left at its default): the next
    attempt gets what remains after the failed attempt and the delay, and a
    call with nothing left is rejected with the last error.  The delay is
    cut short when the signal fires. *)
Fixpoint attemptLoop (budget : nat) (retryCount : Z) (limit start : Z)
  (abortAt : option Z) (script : Z -> Attempt) : Call :=
  let (finish, outcome) := dispatch start limit abortAt (script retryCount) in
  let tried := Requested start finish outcome in
  match outcome with
  | inl field => {| events := [tried]; finishedAt := finish; result := inl field |}
  | inr error =>
      let rejected := {| events := [tried]; finishedAt := finish;
                         result := inr error |} in
      match budget with
      | O => rejected
      | S budget' =>
          if retryCondition error then
            let retryCount' := retryCount + 1 in
            let delay := retryDelay retryCount' in
            let limit' := limit - (finish - start) - delay in
            if limit' <=? 0 then rejected
            else
              let resume :=
                match abortAt with
                | Some t => if t <? finish + delay then Z.max t finish
                            else finish + delay
                | None => finish + delay
                end in
              let rest := attemptLoop budget' retryCount' limit' resume abortAt script in
              {| events := tried :: OnRetry retryCount' delay :: events rest;
                 finishedAt := finishedAt rest;
                 result := result rest |}
          else rejected
      end
  end.

(** [client.post(url, body, { signal })] on a client from [createHttpClient]. *)
Definition post (start : Z) (abortAt : option Z) (script : Z -> Attempt) : Call :=
  attemptLoop (Z.to_nat retries) 0 timeout start abortAt script.

(** *** The adapters *)

(** The adapters' [catch]: [axios.isCancel(error) ||
    (error instanceof Error && error.message.includes('aborted'))]. *)
Definition isAbort (error : AxiosError) : bool :=
  isCancel error || JS.includes "aborted" (message error).

(** The prompt [OllamaLlmAdapter.complete] sends. *)
Definition ollamaPrompt (messages : list (string * string)) : string :=
  JS.join (String "010" (String "010" EmptyString))
    (map (fun m => ((if String.eqb (fst m) "user" then "User" else "Assistant")
                    ++ ": " ++ snd m)%string) messages).

(** [process.env] as far as [createLlmAdapter] reads it. *)
Record ProcessEnv := {
  LLM_PROVIDER : option string;
  MOCK_LLM_BASE_URL : option string;
  OLLAMA_BASE_URL : option string;
  OLLAMA_MODEL : option string
}.

Inductive Adapter :=
| MockLlmAdapter (baseUrl : string)
| OllamaLlmAdapter (baseUrl model : string).

(** [createLlmAdapter] with the two constructors inlined. *)
Definition createLlmAdapter (env : ProcessEnv) : JS.Result Adapter :=
  let provider := JS.orElse (LLM_PROVIDER env) "mock" in
  if String.eqb provider "mock" then
    if JS.truthy (MOCK_LLM_BASE_URL env)
    then JS.Ok (MockLlmAdapter (JS.orElse (MOCK_LLM_BASE_URL env) ""))
    else JS.Throw (JS.Error "MOCK_LLM_BASE_URL environment variable is required")
  else if String.eqb provider "ollama" then
    if JS.truthy (OLLAMA_BASE_URL env) then
      if JS.truthy (OLLAMA_MODEL env)
      then JS.Ok (OllamaLlmAdapter (JS.orElse (OLLAMA_BASE_URL env) "")
                                   (JS.orElse (OLLAMA_MODEL env) ""))
      else JS.Throw (JS.Error "OLLAMA_MODEL environment variable is required")
    else JS.Throw (JS.Error "OLLAMA_BASE_URL environment variable is required")
  else JS.Throw (JS.Error ("Unknown LLM provider: " ++ provider
                           ++ ". Must be 'mock' or 'ollama'")).

(** What an adapter posts: the URL and the body. *)
Inductive Request :=
| MockRequest (url : string) (messages : list (string * string))
| OllamaRequest (url model prompt : string).

Definition requestOf (adapter : Adapter) (messages : list (string * string))
  : Request :=
  match adapter with
  | MockLlmAdapter baseUrl => MockRequest (baseUrl ++ "/complete") messages
  | OllamaLlmAdapter baseUrl model =>
      OllamaRequest (baseUrl ++ "/api/generate") model (ollamaPrompt messages)
  end.

(** The provider: what it would do with the k-th sending of a request. *)
Definition Provider : Type := Request -> Z -> Attempt.

(** [MockLlmAdapter.complete] and [OllamaLlmAdapter.complete].  They differ
    in the request and in the name of the answer's field ([data.completion],
    [data.response]); [field] of the answer is that field, when it is a
    string.  Both return [field || ''] and translate an aborted call into
    [new Error('Request aborted')]; any other error is thrown on. *)
Definition complete (adapter : Adapter) (messages : list (string * string))
  (start : Z) (abortAt : option Z) (provider : Provider) : JS.Result string :=
  match result (post start abortAt (provider (requestOf adapter messages))) with
  | inl field => JS.Ok (JS.orElse field "")
  | inr error =>
      if isAbort error then JS.Throw (JS.Error "Request aborted")
      else JS.Throw (JS.Error (message error))
  end.

End Llm.

(** ** [POST /api/conversations/:id/messages] ([routes/messages.ts]) *)

Module Messages.
Import Prisma.

(** The parsed request body. *)
Record SendBody := {
  bContent : string;
  bRole : Role;
  existingMessageId : option string
}.

(** [sendMessageSchema.parse(req.body)]:
    [content: z.string().min(1).max(10000)],
    [role: z.enum(['user', 'assistant']).default('user')],
    [existingMessageId: z.string().optional()]. *)
Definition parseContent (v : option Json.JValue) : option string :=
  match v with
  | Some (Json.JString s) =>
      let n := Z.of_nat (String.length s) in
      if (1 <=? n) && (n <=? 10000) then Some s else None
  | _ => None
  end.

Definition parseRole (v : option Json.JValue) : option Role :=
  match v with
  | None => Some User
  | Some (Json.JString s) =>
      if String.eqb s "user" then Some User
      else if String.eqb s "assistant" then Some Assistant
      else None
  | Some _ => None
  end.

Definition parseOptionalString (v : option Json.JValue) : option (option string) :=
  match v with
  | None => Some None
  | Some (Json.JString s) => Some (Some s)
  | Some _ => None
  end.

Definition sendMessageSchema (reqBody : Json.JValue) : JS.Result SendBody :=
  match reqBody with
  | Json.JObject fields =>
      match parseContent (Json.lookup "content" fields),
            parseRole (Json.lookup "role" fields),
            parseOptionalString (Json.lookup "existingMessageId" fields) with
      | Some c, Some r, Some e =>
          JS.Ok {| bContent := c; bRole := r; existingMessageId := e |}
      | _, _, _ => JS.Throw JS.ZodError
      end
  | _ => JS.Throw JS.ZodError
  end.

(** What one run of the handler takes from outside, in the order the
    handler asks for it. *)
Record World := {
  now : Z;                        (* Date.now() of the duplicate check *)
  userMessageId : string;         (* identifier and timestamp the store *)
  userMessageAt : Z;              (*   gives a created user message     *)
  processEnv : Llm.ProcessEnv;
  callStart : Z;                  (* instant of adapter.complete        *)
  abortAt : option Z;             (* instant abortSignal fires, if ever *)
  script : Llm.Provider;          (* the provider                       *)
  replyId : string;               (* identifier and timestamp the store *)
  replyAt : Z;                    (*   gives the assistant message      *)
  stampAt : Z                     (* new Date() for lastMessageAt       *)
}.

Inductive Body :=
| ErrorBody (error : string)
| InvalidRequest
| Unavailable (error : string) (messageId : string)
| Sent (message reply : Message).

Record Response := {
  status : Z;
  body : Body
}.

Definition fiveMinutes : Z := 5 * 60 * 1000.

(** Lines 33-88: the user message of this request, found by
    [existingMessageId], found as a recent duplicate, or created. *)
Definition lookupExisting (db : Store) (b : SendBody) : option Message :=
  if JS.truthy (existingMessageId b)
  then findUniqueMessage db (JS.orElse (existingMessageId b) "")
  else None.

Definition resolveUserMessage (db : Store) (conversationId : string)
  (b : SendBody) (w : World) : JS.Result (Store * Message) :=
  match lookupExisting db b with
  | Some existingMessage => JS.Ok (db, existingMessage)
  | None =>
      let fiveMinutesAgo := now w - fiveMinutes in
      match findFirstDuplicate db conversationId (bRole b) (bContent b)
              fiveMinutesAgo with
      | Some duplicateMessage => JS.Ok (db, duplicateMessage)
      | None =>
          createMessage db (userMessageId w) (userMessageAt w)
            conversationId (bRole b) (bContent b)
      end
  end.

(** Lines 95-111: the history sent to the provider. *)
Definition llmMessages (db : Store) (conversationId : string)
  : list (string * string) :=
  map (fun m => (roleName (role m), content m))
      (findManyHistory db conversationId).

(** Lines 113-121: [createLlmAdapter()] then [adapter.complete]. *)
Definition getCompletion (db : Store) (conversationId : string) (w : World)
  : JS.Result string :=
  match Llm.createLlmAdapter (processEnv w) with
  | JS.Throw e => JS.Throw e
  | JS.Ok adapter =>
      Llm.complete adapter (llmMessages db conversationId)
        (callStart w) (abortAt w) (script w)
  end.

Definition internalError : Response :=
  {| status := 500; body := ErrorBody "Internal server error" |}.

(** Lines 122-163: what follows the provider call. *)
Definition finish (db : Store) (conversationId : string) (userMessage : Message)
  (w : World) : Store * Response :=
  match getCompletion db conversationId w with
  | JS.Throw e =>
      match e with
      | JS.Error msg =>
          if JS.includes "aborted" msg
          then (db, {| status := 499; body := ErrorBody "Request cancelled" |})
          else (db, {| status := 502;
                       body := Unavailable "LLM service unavailable"
                                           (id userMessage) |})
      | JS.ZodError =>
          (db, {| status := 502;
                  body := Unavailable "LLM service unavailable"
                                      (id userMessage) |})
      end
  | JS.Ok llmResponse =>
      match createMessage db (replyId w) (replyAt w) conversationId
              Assistant llmResponse with
      | JS.Throw _ => (db, internalError)
      | JS.Ok (db1, assistantMessage) =>
          match updateLastMessageAt db1 conversationId (stampAt w) with
          | JS.Throw _ => (db1, internalError)
          | JS.Ok db2 =>
              (db2, {| status := 201;
                       body := Sent userMessage assistantMessage |})
          end
      end
  end.

(** The handler. *)
Definition postMessage (db : Store) (conversationId : string)
  (reqBody : Json.JValue) (w : World) : Store * Response :=
  match sendMessageSchema reqBody with
  | JS.Throw JS.ZodError =>
      (db, {| status := 400; body := InvalidRequest |})
  | JS.Throw _ => (db, internalError)
  | JS.Ok b =>
      match findUniqueConversation db conversationId with
      | None => (db, {| status := 404; body := ErrorBody "Conversation not found" |})
      | Some _ =>
          match resolveUserMessage db conversationId b w with
          | JS.Throw _ => (db, internalError)
          | JS.Ok (db1, userMessage) => finish db1 conversationId userMessage w
          end
      end
  end.

(** The request body the client sends ([api.sendMessage]):
    [{ content, ...(existingMessageId && { existingMessageId }) }]. *)
Definition clientBody (text : string) (existing : option string) : Json.JValue :=
  Json.JObject
    (("content", Json.JString text)
     :: (if JS.truthy existing
         then [("existingMessageId", Json.JString (JS.orElse existing ""))]
         else [])).

End Messages.

(** ** [JSON.stringify] and [JSON.parse] *)

Module JsonText.
Import Json.

Local Open Scope char_scope.

Definition dquote : ascii := "034".
Definition backslash : ascii := "\".

Definition code (c : ascii) : N := N_of_ascii c.

Definition hexDigit (n : N) : ascii :=
  if (n <? 10)%N then ascii_of_N (48 + n) else ascii_of_N (87 + n).

Definition hexValue (c : ascii) : option N :=
  let n := code c in
  if ((48 <=? n) && (n <=? 57))%N then Some (n - 48)%N
  else if ((97 <=? n) && (n <=? 102))%N then Some (n - 87)%N
  else if ((65 <=? n) && (n <=? 70))%N then Some (n - 55)%N
  else None.

(** *** Writing *)

(** [QuoteJSONString]: the escapes of one character. *)
Definition escapeChar (c : ascii) (rest : string) : string :=
  let n := code c in
  if Ascii.eqb c dquote then String backslash (String dquote rest)
  else if Ascii.eqb c backslash then String backslash (String backslash rest)
  else if (n =? 8)%N then String backslash (String "b" rest)
  else if (n =? 9)%N then String backslash (String "t" rest)
  else if (n =? 10)%N then String backslash (String "n" rest)
  else if (n =? 12)%N then String backslash (String "f" rest)
  else if (n =? 13)%N then String backslash (String "r" rest)
  else if (n <? 32)%N then
    String backslash (String "u" (String "0" (String "0"
      (String (hexDigit (n / 16)) (String (hexDigit (n mod 16)) rest)))))
  else String c rest.

Fixpoint escape (s : string) (rest : string) : string :=
  match s with
  | EmptyString => rest
  | String c s' => escapeChar c (escape s' rest)
  end.

(** [JSON.stringify(s)] of a string, followed by [rest]. *)
Definition quote (s : string) (rest : string) : string :=
  String dquote (escape s (String dquote rest)).

(** *** Reading *)

Definition isWhitespace (c : ascii) : bool :=
  let n := code c in
  ((n =? 32) || (n =? 9) || (n =? 10) || (n =? 13))%N.

Fixpoint skipWhitespace (s : string) : string :=
  match s with
  | String c rest => if isWhitespace c then skipWhitespace rest else s
  | EmptyString => s
  end.

(** UTF-8 bytes of a code point, in front of [rest]. *)
Definition utf8 (cp : N) (rest : string) : string :=
  if (cp <? 128)%N then String (ascii_of_N cp) rest
  else if (cp <? 2048)%N then
    String (ascii_of_N (192 + cp / 64))
      (String (ascii_of_N (128 + cp mod 64)) rest)
  else if (cp <? 65536)%N then
    String (ascii_of_N (224 + cp / 4096))
      (String (ascii_of_N (128 + (cp / 64) mod 64))
        (String (ascii_of_N (128 + cp mod 64)) rest))
  else
    String (ascii_of_N (240 + cp / 262144))
      (String (ascii_of_N (128 + (cp / 4096) mod 64))
        (String (ascii_of_N (128 + (cp / 64) mod 64))
          (String (ascii_of_N (128 + cp mod 64)) rest))).

Definition hex4 (a b c d : ascii) : option N :=
  match hexValue a, hexValue b, hexValue c, hexValue d with
  | Some x, Some y, Some z, Some w => Some (((x * 16 + y) * 16 + z) * 16 + w)%N
  | _, _, _, _ => None
  end.

Definition isHighSurrogate (u : N) : bool := ((55296 <=? u) && (u <? 56320))%N.
Definition isLowSurrogate (u : N) : bool := ((56320 <=? u) && (u <? 57344))%N.

(** The low half of a surrogate pair written [\uXXXX] at the head of [s]. *)
Definition lowSurrogateEscape (s : string) : option N :=
  match s with
  | String e (String u (String a (String b (String c (String d _))))) =>
      if Ascii.eqb e backslash && Ascii.eqb u "u" then
        match hex4 a b c d with
        | Some lo => if isLowSurrogate lo then Some lo else None
        | None => None
        end
      else None
  | _ => None
  end.

(** The characters of a string literal after its opening quote, up to the
    closing quote; what follows the literal is returned with them.  A
    surrogate that has no partner has no UTF-8 form and becomes U+FFFD. *)
Fixpoint parseChars (s : string) : option (string * string) :=
  match s with
  | EmptyString => None
  | String c rest =>
      if Ascii.eqb c dquote then Some (EmptyString, rest)
      else if Ascii.eqb c backslash then
        match rest with
        | EmptyString => None
        | String e rest1 =>
            let simple (x : ascii) :=
              match parseChars rest1 with
              | Some (t, r) => Some (String x t, r)
              | None => None
              end in
            if Ascii.eqb e dquote then simple dquote
            else if Ascii.eqb e backslash then simple backslash
            else if Ascii.eqb e "/" then simple "/"
            else if Ascii.eqb e "b" then simple "008"
            else if Ascii.eqb e "f" then simple "012"
            else if Ascii.eqb e "n" then simple "010"
            else if Ascii.eqb e "r" then simple "013"
            else if Ascii.eqb e "t" then simple "009"
            else if Ascii.eqb e "u" then
              match rest1 with
              | String a (String b (String c' (String d rest2))) =>
                  match hex4 a b c' d with
                  | None => None
                  | Some u =>
                      match (if isHighSurrogate u then lowSurrogateEscape rest2
                             else None), rest2 with
                      | Some lo, String _ (String _ (String _ (String _
                                   (String _ (String _ rest3))))) =>
                          match parseChars rest3 with
                          | Some (t, r) =>
                              Some (utf8 (65536 + (u - 55296) * 1024
                                          + (lo - 56320)) t, r)
                          | None => None
                          end
                      | _, _ =>
                          match parseChars rest2 with
                          | Some (t, r) =>
                              Some (utf8 (if isHighSurrogate u || isLowSurrogate u
                                          then 65533 else u) t, r)
                          | None => None
                          end
                      end
                  end
              | _ => None
              end
            else None
        end
      else if (code c <? 32)%N then None
      else
        match parseChars rest with
        | Some (t, r) => Some (String c t, r)
        | None => None
        end
  end.

Definition isDigit (c : ascii) : bool := ((48 <=? code c) && (code c <=? 57))%N.

Fixpoint takeDigits (s : string) : string * string :=
  match s with
  | String c rest =>
      if isDigit c then let (ds, r) := takeDigits rest in (String c ds, r)
      else (EmptyString, s)
  | EmptyString => (EmptyString, s)
  end.

(** A number: an optional minus sign, an integer part without a leading
    zero, an optional fraction and an optional exponent. *)
Definition parseInteger (s : string) : option (string * string) :=
  match s with
  | String c rest =>
      if Ascii.eqb c "0" then Some (String c EmptyString, rest)
      else if isDigit c then
        let (ds, r) := takeDigits rest in Some (String c ds, r)
      else None
  | EmptyString => None
  end.

Definition parseFraction (s : string) : option (string * string) :=
  match s with
  | String c rest =>
      if Ascii.eqb c "." then
        match takeDigits rest with
        | (EmptyString, _) => None
        | (ds, r) => Some (String c ds, r)
        end
      else Some (EmptyString, s)
  | EmptyString => Some (EmptyString, s)
  end.

Definition parseExponent (s : string) : option (string * string) :=
  match s with
  | String c rest =>
      if Ascii.eqb c "e" || Ascii.eqb c "E" then
        let (sign, rest1) :=
          match rest with
          | String g rest' =>
              if Ascii.eqb g "+" || Ascii.eqb g "-"
              then (String g EmptyString, rest') else (EmptyString, rest)
          | EmptyString => (EmptyString, rest)
          end in
        match takeDigits rest1 with
        | (EmptyString, _) => None
        | (ds, r) => Some ((String c sign ++ ds)%string, r)
        end
      else Some (EmptyString, s)
  | EmptyString => Some (EmptyString, s)
  end.

Definition parseNumber (s : string) : option (string * string) :=
  let (sign, s1) :=
    match s with
    | String c rest => if Ascii.eqb c "-" then (String c EmptyString, rest)
                       else (EmptyString, s)
    | EmptyString => (EmptyString, s)
    end in
  match parseInteger s1 with
  | None => None
  | Some (i, s2) =>
      match parseFraction s2 with
      | None => None
      | Some (f, s3) =>
          match parseExponent s3 with
          | None => None
          | Some (e, s4) => Some ((sign ++ i ++ f ++ e)%string, s4)
          end
      end
  end.

(** [word] at the head of [s]: what follows it. *)
Fixpoint expect (word s : string) : option string :=
  match word with
  | EmptyString => Some s
  | String w word' =>
      match s with
      | String c s' => if Ascii.eqb w c then expect word' s' else None
      | EmptyString => None
      end
  end.

(** A value, with the whitespace before it.  [fuel] bounds the number of
    nested calls; a call on [s] needs at most [2 * length s + 1]. *)
Fixpoint parseValue (fuel : nat) (s : string) : option (JValue * string) :=
  match fuel with
  | O => None
  | S fuel' =>
      match skipWhitespace s with
      | EmptyString => None
      | String c rest as s' =>
          if Ascii.eqb c "{" then
            match skipWhitespace rest with
            | String c' rest' =>
                if Ascii.eqb c' "}" then Some (JObject [], rest')
                else match parseMembers fuel' rest with
                     | Some (fields, r) => Some (JObject fields, r)
                     | None => None
                     end
            | EmptyString => None
            end
          else if Ascii.eqb c "[" then
            match skipWhitespace rest with
            | String c' rest' =>
                if Ascii.eqb c' "]" then Some (JArray [], rest')
                else match parseElements fuel' rest with
                     | Some (items, r) => Some (JArray items, r)
                     | None => None
                     end
            | EmptyString => None
            end
          else if Ascii.eqb c dquote then
            match parseChars rest with
            | Some (t, r) => Some (JString t, r)
            | None => None
            end
          else if Ascii.eqb c "t" then
            option_map (fun r => (JBool true, r)) (expect "true" s')
          else if Ascii.eqb c "f" then
            option_map (fun r => (JBool false, r)) (expect "false" s')
          else if Ascii.eqb c "n" then
            option_map (fun r => (JNull, r)) (expect "null" s')
          else
            match parseNumber s' with
            | Some (lexeme, r) => Some (JNumber lexeme, r)
            | None => None
            end
      end
  end

with parseMembers (fuel : nat) (s : string)
  : option (list (string * JValue) * string) :=
  match fuel with
  | O => None
  | S fuel' =>
      match skipWhitespace s with
      | String q r =>
          if Ascii.eqb q dquote then
            match parseChars r with
            | Some (key, r1) =>
                match skipWhitespace r1 with
                | String colon r2 =>
                    if Ascii.eqb colon ":" then
                      match parseValue fuel' r2 with
                      | Some (v, r3) =>
                          match skipWhitespace r3 with
                          | String d r4 =>
                              if Ascii.eqb d "," then
                                match parseMembers fuel' r4 with
                                | Some (more, r5) => Some ((key, v) :: more, r5)
                                | None => None
                                end
                              else if Ascii.eqb d "}" then Some ([(key, v)], r4)
                              else None
                          | EmptyString => None
                          end
                      | None => None
                      end
                    else None
                | EmptyString => None
                end
            | None => None
            end
          else None
      | EmptyString => None
      end
  end

with parseElements (fuel : nat) (s : string) : option (list JValue * string) :=
  match fuel with
  | O => None
  | S fuel' =>
      match parseValue fuel' s with
      | Some (v, r) =>
          match skipWhitespace r with
          | String d r1 =>
              if Ascii.eqb d "," then
                match parseElements fuel' r1 with
                | Some (more, r2) => Some (v :: more, r2)
                | None => None
                end
              else if Ascii.eqb d "]" then Some ([v], r1)
              else None
          | EmptyString => None
          end
      | None => None
      end
  end.

(** [JSON.parse(text)]: [None] is a [SyntaxError].  The fuel is enough for
    every text ([parse_complete]). *)
Definition parse (text : string) : option JValue :=
  match parseValue (2 * String.length text + 2) text with
  | Some (v, r) =>
      match skipWhitespace r with
      | EmptyString => Some v
      | String _ _ => None
      end
  | None => None
  end.

End JsonText.

(** ** [Buffer] and the base64url encoding *)

Module Base64Url.

Local Open Scope N_scope.

(** The base64url alphabet. *)
Definition alphabet (n : N) : ascii :=
  if n <? 26 then ascii_of_N (65 + n)
  else if n <? 52 then ascii_of_N (71 + n)
  else if n <? 62 then ascii_of_N (n - 4)
  else if n =? 62 then "-"%char
  else "_"%char.

(** The value of a character when decoding: both the base64url and the
    base64 alphabets are accepted. *)
Definition unbase64 (c : ascii) : option N :=
  let n := N_of_ascii c in
  if (65 <=? n) && (n <=? 90) then Some (n - 65)
  else if (97 <=? n) && (n <=? 122) then Some (n - 71)
  else if (48 <=? n) && (n <=? 57) then Some (n + 4)
  else if (n =? 45) || (n =? 43) then Some 62
  else if (n =? 95) || (n =? 47) then Some 63
  else None.

(** [buf.toString('base64url')]: no padding. *)
Fixpoint encode (bytes : string) : string :=
  match bytes with
  | EmptyString => EmptyString
  | String a EmptyString =>
      let x := N_of_ascii a in
      String (alphabet (x / 4)) (String (alphabet (x mod 4 * 16)) EmptyString)
  | String a (String b EmptyString) =>
      let x := N_of_ascii a in
      let y := N_of_ascii b in
      String (alphabet (x / 4))
        (String (alphabet (x mod 4 * 16 + y / 16))
          (String (alphabet (y mod 16 * 4)) EmptyString))
  | String a (String b (String c rest)) =>
      let x := N_of_ascii a in
      let y := N_of_ascii b in
      let z := N_of_ascii c in
      String (alphabet (x / 4))
        (String (alphabet (x mod 4 * 16 + y / 16))
          (String (alphabet (y mod 16 * 4 + z / 64))
            (String (alphabet (z mod 64)) (encode rest))))
  end.

(** [Buffer.from(text, 'base64url')] never throws: a character outside the
    alphabets is skipped, and decoding stops at the first [=]. *)
Fixpoint sextets (text : string) : list N :=
  match text with
  | EmptyString => []
  | String c rest =>
      if Ascii.eqb c "="%char then []
      else match unbase64 c with
           | Some n => n :: sextets rest
           | None => sextets rest
           end
  end.

Fixpoint bytesOf (l : list N) : string :=
  match l with
  | a :: b :: c :: d :: rest =>
      String (ascii_of_N (a * 4 + b / 16))
        (String (ascii_of_N (b mod 16 * 16 + c / 4))
          (String (ascii_of_N (c mod 4 * 64 + d)) (bytesOf rest)))
  | [a; b; c] =>
      String (ascii_of_N (a * 4 + b / 16))
        (String (ascii_of_N (b mod 16 * 16 + c / 4)) EmptyString)
  | [a; b] => String (ascii_of_N (a * 4 + b / 16)) EmptyString
  | _ => EmptyString
  end.

Definition decode (text : string) : string := bytesOf (sextets text).

End Base64Url.

(** ** Cursor pagination ([utils/pagination.ts]) *)

Module Pagination.
Import Prisma.

(** [Date.prototype.toISOString] for a time value in the range of a
    four-digit year or beyond, with the proleptic Gregorian calendar. *)
Definition pad (width : nat) (n : Z) : string :=
  let digits := JS.showInt n in
  (String.concat "" (repeat "0" (width - String.length digits)) ++ digits)%string.

Definition toISOString (ms : Z) : string :=
  let days := ms / 86400000 in
  let rem := ms mod 86400000 in
  let hh := pad 2 (rem / 3600000) in
  let mm := pad 2 (rem / 60000 mod 60) in
  let ss := pad 2 (rem / 1000 mod 60) in
  let sss := pad 3 (rem mod 1000) in
  let z := days + 719468 in
  let era := z / 146097 in
  let doe := z - era * 146097 in
  let yoe := (doe - doe / 1460 + doe / 36524 - doe / 146096) / 365 in
  let doy := doe - (365 * yoe + yoe / 4 - yoe / 100) in
  let mp := (5 * doy + 2) / 153 in
  let d := doy - (153 * mp + 2) / 5 + 1 in
  let m := if mp <? 10 then mp + 3 else mp - 9 in
  let y := yoe + era * 400 + (if m <=? 2 then 1 else 0) in
  let sign := if y <? 0 then "-" else "+" in
  let year := if (0 <=? y) && (y <=? 9999) then pad 4 y
              else (sign ++ pad 6 (Z.abs y))%string in
  (year ++ "-" ++ pad 2 m ++ "-" ++ pad 2 d ++ "T"
   ++ hh ++ ":" ++ mm ++ ":" ++ ss ++ "." ++ sss ++ "Z")%string.

(** [interface CursorData] *)
Record CursorData := {
  cursorId : string;
  cursorCreatedAt : string
}.

(** [JSON.stringify(data)] of a [CursorData]: the keys in the order of the
    object literal. *)
Definition stringifyCursor (data : CursorData) : string :=
  String "{"
    (JsonText.quote "id"
      (String ":"
        (JsonText.quote (cursorId data)
          (String ","
            (JsonText.quote "createdAt"
              (String ":"
                (JsonText.quote (cursorCreatedAt data) "}"))))))).

(** [encodeCursor] *)
Definition encodeCursor (data : CursorData) : string :=
  Base64Url.encode (stringifyCursor data).

(** [decodeCursor]: whatever [JSON.parse] returns is cast to [CursorData]
    unchecked; a [SyntaxError] becomes [Error('Invalid cursor format')]. *)
Definition decodeCursor (cursor : string) : JS.Result Json.JValue :=
  match JsonText.parse (Base64Url.decode cursor) with
  | Some v => JS.Ok v
  | None => JS.Throw (JS.Error "Invalid cursor format")
  end.

(** The value a well-formed [CursorData] parses to. *)
Definition cursorValue (data : CursorData) : Json.JValue :=
  Json.JObject [("id", Json.JString (cursorId data));
                ("createdAt", Json.JString (cursorCreatedAt data))].

(** [interface PaginatedResult<T>] *)
Record PaginatedResult := {
  items : list Message;
  nextCursor : option string;
  prevCursor : option string;
  hasMore : bool
}.

(** [items.slice(0, limit)] *)
Definition slice0 (l : list Message) (limit : Z) : list Message :=
  if limit <? 0 then firstn (Z.to_nat (Z.max (Z.of_nat (List.length l) + limit) 0)) l
  else firstn (Z.to_nat limit) l.

Definition cursorOf (m : Message) : string :=
  encodeCursor {| cursorId := id m; cursorCreatedAt := toISOString (createdAt m) |}.

(** [createCursorPagination] *)
Definition createCursorPagination (fetched : list Message) (limit : Z)
  : PaginatedResult :=
  let hasMore := limit <? Z.of_nat (List.length fetched) in
  let resultItems := if hasMore then slice0 fetched limit else fetched in
  {| items := resultItems;
     nextCursor := if hasMore then option_map cursorOf (last (map Some resultItems) None)
                   else None;
     prevCursor := option_map cursorOf (hd_error resultItems);
     hasMore := hasMore |}.

(** The argument of [findMany] that [buildPaginationQuery] returns; the
    ordering is always [{ createdAt: 'desc' }].  [cursor] is [None] when the
    key is absent, and otherwise holds [cursorData.id], itself [None] when
    that is [undefined]. *)
Record PaginationQuery := {
  take : Z;
  cursor : option (option Json.JValue)
}.

(** [cursorData.id]: reading a property of [null] throws a [TypeError]; a
    value that is not an object, or an object without the key, has none. *)
Definition idOf (v : Json.JValue) : JS.Result (option Json.JValue) :=
  match v with
  | Json.JNull => JS.Throw (JS.Error "Cannot read properties of null (reading 'id')")
  | Json.JObject fields => JS.Ok (Json.lookup "id" fields)
  | _ => JS.Ok None
  end.

(** [buildPaginationQuery] *)
Definition buildPaginationQuery (cursor : option string) (limit : Z)
  : JS.Result PaginationQuery :=
  let take := Z.min (Z.max limit 1) 100 in
  if negb (JS.truthy cursor) then
    JS.Ok {| take := take + 1; cursor := None |}
  else
    match decodeCursor (JS.orElse cursor "") with
    | JS.Throw e => JS.Throw e
    | JS.Ok cursorData =>
        match idOf cursorData with
        | JS.Throw e => JS.Throw e
        | JS.Ok i => JS.Ok {| take := take + 1; cursor := Some i |}
        end
    end.

(** [prisma.message.findMany({ where: { conversationId }, take, cursor,
    orderBy: { createdAt: 'desc' } })].  The rows start at the cursor row:
    those not newer than it, none when no row has that identifier.  A
    cursor whose [id] is missing or is not a string is refused by the
    client library. *)
Definition rowsFrom (db : Store) (conv : string) (cursor : option (option Json.JValue))
  : JS.Result (list Message) :=
  let rows := sortBy createdAtDesc
                (filter (fun m => String.eqb (conversationId m) conv) (messages db)) in
  match cursor with
  | None => JS.Ok rows
  | Some (Some (Json.JString c)) =>
      match findUniqueMessage db c with
      | Some boundary =>
          JS.Ok (filter (fun m => createdAt m <=? createdAt boundary) rows)
      | None => JS.Ok []
      end
  | Some _ => JS.Throw (JS.Error "Argument `cursor` is invalid")
  end.

Definition findManyPage (db : Store) (conv : string) (q : PaginationQuery)
  : JS.Result (list Message) :=
  match rowsFrom db conv (cursor q) with
  | JS.Ok rows => JS.Ok (firstn (Z.to_nat (take q)) rows)
  | JS.Throw e => JS.Throw e
  end.

End Pagination.

(** ** [/api/conversations] ([routes/conversations.ts]) *)

Module Conversations.
Import Prisma.

(** [parseInt(text)] without a radix, on ASCII input: leading blanks, a
    sign, an optional [0x], then the longest run of digits; [None] is
    [NaN]. *)
Definition digitValue (radix : Z) (c : ascii) : option Z :=
  match JsonText.hexValue c with
  | Some v => if Z.of_N v <? radix then Some (Z.of_N v) else None
  | None => None
  end.

Fixpoint readDigits (radix : Z) (acc : option Z) (s : string) : option Z :=
  match s with
  | EmptyString => acc
  | String c rest =>
      match digitValue radix c with
      | Some v =>
          readDigits radix
            (Some (match acc with Some a => a * radix + v | None => v end)) rest
      | None => acc
      end
  end.

Definition readUnsigned (s : string) : option Z :=
  match s with
  | String z (String x rest) =>
      if Ascii.eqb z "0" && (Ascii.eqb x "x" || Ascii.eqb x "X")
      then readDigits 16 None rest
      else readDigits 10 None s
  | _ => readDigits 10 None s
  end.

Fixpoint trimStart (s : string) : string :=
  match s with
  | String c rest =>
      if JsonText.isWhitespace c || (N_of_ascii c =? 11)%N || (N_of_ascii c =? 12)%N
      then trimStart rest else s
  | EmptyString => s
  end.

Definition parseInt (text : string) : option Z :=
  match trimStart text with
  | String c rest =>
      if Ascii.eqb c "-" then option_map Z.opp (readUnsigned rest)
      else if Ascii.eqb c "+" then readUnsigned rest
      else readUnsigned (String c rest)
  | EmptyString => None
  end.

(** [parseInt(req.query.limit as string) || 20] *)
Definition limitOf (limitParam : option string) : Z :=
  match limitParam with
  | Some text =>
      match parseInt text with
      | Some n => if n =? 0 then 20 else n
      | None => 20
      end
  | None => 20
  end.

(** *** [POST /] *)

(** [createConversationSchema.parse(req.body)]:
    [title: z.string().min(1).max(200).optional()]. *)
Definition parseTitle (v : option Json.JValue) : option (option string) :=
  match v with
  | None => Some None
  | Some (Json.JString s) =>
      let n := Z.of_nat (String.length s) in
      if (1 <=? n) && (n <=? 200) then Some (Some s) else None
  | Some _ => None
  end.

Definition createConversationSchema (reqBody : Json.JValue)
  : JS.Result (option string) :=
  match reqBody with
  | Json.JObject fields =>
      match parseTitle (Json.lookup "title" fields) with
      | Some t => JS.Ok t
      | None => JS.Throw JS.ZodError
      end
  | _ => JS.Throw JS.ZodError
  end.

Definition displayIndexDesc (a b : Conversation) : bool :=
  displayIndex b <=? displayIndex a.

(** [prisma.conversation.findFirst({ orderBy: { displayIndex: 'desc' } })] *)
Definition maxConversation (db : Store) : option Conversation :=
  hd_error (sortBy displayIndexDesc (conversations db)).

Definition nextDisplayIndex (db : Store) : Z :=
  match maxConversation db with
  | Some c => displayIndex c + 1
  | None => 1
  end.

(** [prisma.conversation.create({ data: { title, displayIndex } })]: the
    store assigns [newId] and the creation time; the primary key and the
    unique index [conversations_displayIndex_key] are enforced. *)
Definition createConversation (db : Store) (newId : string) (at_ : Z)
  (title : string) (index : Z) : JS.Result (Store * Conversation) :=
  if existsb (fun c => String.eqb (cid c) newId) (conversations db) then
    JS.Throw (JS.Error "Unique constraint failed on the fields: (`id`)")
  else if existsb (fun c => displayIndex c =? index) (conversations db) then
    JS.Throw (JS.Error "Unique constraint failed on the fields: (`displayIndex`)")
  else
    let c := {| cid := newId; title := title; displayIndex := index;
                cCreatedAt := at_; lastMessageAt := None |} in
    JS.Ok ({| conversations := conversations db ++ [c];
              messages := messages db |}, c).

Inductive Body :=
| ErrorBody (error : string)
| InvalidRequest
| NoContent
| One (c : Conversation)
| Page (c : Conversation) (page : Pagination.PaginatedResult).

Record Response := {
  status : Z;
  body : Body
}.

Definition internalError : Response :=
  {| status := 500; body := ErrorBody "Internal server error" |}.

Definition notFound : Response :=
  {| status := 404; body := ErrorBody "Conversation not found" |}.

Definition defaultTitle (index : Z) : string :=
  ("Conversation #" ++ JS.showInt index)%string.

(** The handler: [newId] and [at_] are what the store assigns. *)
Definition postConversation (db : Store) (reqBody : Json.JValue)
  (newId : string) (at_ : Z) : Store * Response :=
  match createConversationSchema reqBody with
  | JS.Throw JS.ZodError => (db, {| status := 400; body := InvalidRequest |})
  | JS.Throw _ => (db, internalError)
  | JS.Ok bodyTitle =>
      let index := nextDisplayIndex db in
      let title := match bodyTitle with
                   | Some t => t
                   | None => defaultTitle index
                   end in
      match createConversation db newId at_ title index with
      | JS.Throw _ => (db, internalError)
      | JS.Ok (db1, conversation) =>
          (db1, {| status := 201; body := One conversation |})
      end
  end.

(** *** [GET /:id] *)

Definition getConversation (db : Store) (conv : string)
  (cursor limitParam : option string) : Response :=
  let limit := limitOf limitParam in
  match findUniqueConversation db conv with
  | None => notFound
  | Some conversation =>
      match Pagination.buildPaginationQuery cursor limit with
      | JS.Throw _ => internalError
      | JS.Ok paginationQuery =>
          match Pagination.findManyPage db conv paginationQuery with
          | JS.Throw _ => internalError
          | JS.Ok fetched =>
              {| status := 200;
                 body := Page conversation
                           (Pagination.createCursorPagination fetched limit) |}
          end
      end
  end.

(** *** [PATCH /:id] and [DELETE /:id] *)

Definition updateConversationSchema (reqBody : Json.JValue) : JS.Result string :=
  match reqBody with
  | Json.JObject fields =>
      match parseTitle (Json.lookup "title" fields) with
      | Some (Some t) => JS.Ok t
      | _ => JS.Throw JS.ZodError
      end
  | _ => JS.Throw JS.ZodError
  end.

Definition rename (t : string) (c : Conversation) : Conversation :=
  {| cid := cid c; title := t; displayIndex := displayIndex c;
     cCreatedAt := cCreatedAt c; lastMessageAt := lastMessageAt c |}.

Definition patchConversation (db : Store) (conv : string) (reqBody : Json.JValue)
  : Store * Response :=
  match updateConversationSchema reqBody with
  | JS.Throw JS.ZodError => (db, {| status := 400; body := InvalidRequest |})
  | JS.Throw _ => (db, internalError)
  | JS.Ok t =>
      match findUniqueConversation db conv with
      | None => (db, notFound)
      | Some c =>
          ({| conversations :=
                map (fun c' => if String.eqb (cid c') conv then rename t c' else c')
                    (conversations db);
              messages := messages db |},
           {| status := 200; body := One (rename t c) |})
      end
  end.

(** The foreign key of [messages] is [ON DELETE CASCADE]. *)
Definition deleteConversation (db : Store) (conv : string) : Store * Response :=
  match findUniqueConversation db conv with
  | None => (db, notFound)
  | Some _ =>
      ({| conversations :=
            filter (fun c => negb (String.eqb (cid c) conv)) (conversations db);
          messages :=
            filter (fun m => negb (String.eqb (conversationId m) conv)) (messages db) |},
       {| status := 204; body := NoContent |})
  end.

End Conversations.

(** ** The client's message list ([useChatConversation]) *)

Module Client.

(** [interface Message] of [lib/api.ts]; [createdAt] stands for
    [new Date(createdAt).getTime()]. *)
Record Message := {
  id : string;
  role : Prisma.Role;
  content : string;
  createdAt : Z;
  isError : bool
}.

Definition byTime (a b : Message) : bool := createdAt a <=? createdAt b.

(** [[...items].sort((a, b) => time(a) - time(b))], or [[]] without data;
    [Array.prototype.sort] is stable. *)
Definition displayed (items : option (list Message)) : list Message :=
  match items with
  | Some l => Prisma.sortBy byTime l
  | None => []
  end.

(** [handleLoadOlder]: the older page goes in front of the cached items. *)
Definition mergeOlder (older cached : list Message) : list Message :=
  older ++ cached.

(** What the server sends for a stored message. *)
Definition ofStored (m : Prisma.Message) : Message :=
  {| id := Prisma.id m; role := Prisma.role m; content := Prisma.content m;
     createdAt := Prisma.createdAt m; isError := false |}.

End Client.

(** ** The client's API layer ([lib/api.ts]) *)

Module Api.

(** [class ApiRequestError]; [None] is [undefined]. *)
Record ApiRequestError := {
  message : string;
  statusCode : option Z;
  messageId : option string;
  isLlmError : option bool
}.

(** [interface ApiError], the body of an error response, as far as
    [handleError] reads it: [data.error] and [data.messageId]. *)
Record ApiError := {
  error : option string;
  dataMessageId : option string
}.

Record AxiosResponse := {
  status : Z;
  statusText : string;
  data : option ApiError
}.

(** What a request of the HTTP client rejects with. *)
Inductive Rejection :=
| Cancelled                                (* axios.isCancel(error) *)
| Axios (code : option string)             (* axios.isAxiosError(error) *)
        (response : option AxiosResponse)
        (request : bool)
        (text : string)
| OtherError (text : string)               (* another Error *)
| NotAnError.                              (* a thrown value that is no Error *)

(** What [handleError] throws: an [ApiRequestError], or the error it was
    given when that is an [Error] of another kind. *)
Inductive Thrown :=
| Request (e : ApiRequestError)
| Plain (text : string).

Definition messageOf (e : Thrown) : string :=
  match e with
  | Request r => message r
  | Plain text => text
  end.

(** [new ApiRequestError(text)] *)
Definition bare (text : string) : ApiRequestError :=
  {| message := text; statusCode := None; messageId := None; isLlmError := None |}.

(** [handleError] *)
Definition handleError (e : Rejection) : Thrown :=
  match e with
  | Cancelled => Request (bare "Request cancelled")
  | Axios code response request text =>
      if match code with
         | Some c => String.eqb c "ECONNABORTED"
         | None => false
         end
      then Request (bare "Request timeout - the server took too long to respond")
      else
        match response with
        | Some r =>
            if status r =? 499 then
              Request {| message := "Request cancelled"; statusCode := Some 499;
                         messageId := None; isLlmError := None |}
            else
              Request
                {| message :=
                     JS.orElse (match data r with
                                | Some d => error d
                                | None => None
                                end)
                               ("HTTP " ++ JS.showInt (status r) ++ ": "
                                ++ statusText r);
                   statusCode := Some (status r);
                   messageId := match data r with
                                | Some d => dataMessageId d
                                | None => None
                                end;
                   isLlmError := Some (status r =? 502) |}
        | None =>
            if request
            then Request (bare "Network error - unable to reach the server")
            else Plain text
        end
  | OtherError text => Plain text
  | NotAnError => Request (bare "An unknown error occurred")
  end.

(** The body of a response of the send route, read as an [ApiError]. *)
Definition errorData (b : Messages.Body) : ApiError :=
  match b with
  | Messages.ErrorBody e => {| error := Some e; dataMessageId := None |}
  | Messages.InvalidRequest =>
      {| error := Some "Invalid request"; dataMessageId := None |}
  | Messages.Unavailable e saved =>
      {| error := Some e; dataMessageId := Some saved |}
  | Messages.Sent _ _ => {| error := None; dataMessageId := None |}
  end.

(** How the HTTP client settles a response of the send route: a status
    outside 200..299 rejects with an error that carries the response;
    [None] is a fulfilled request. *)
Definition settle (r : Messages.Response) (reason : string) : option Rejection :=
  let s := Messages.status r in
  if (200 <=? s) && (s <? 300) then None
  else
    Some (Axios (if s / 100 =? 4 then Some "ERR_BAD_REQUEST"
                 else if s / 100 =? 5 then Some "ERR_BAD_RESPONSE"
                 else None)
                (Some {| status := s; statusText := reason;
                         data := Some (errorData (Messages.body r)) |})
                true
                ("Request failed with status code " ++ JS.showInt s)).

End Api.

(** ** Sending and retrying on the client ([useSendMessage],
    [handleRetryMessage]) *)

Module SendHook.

(** A cached message: [interface Message] with the two fields a failed
    send adds. *)
Record Entry := {
  shown : Client.Message;
  errorMessage : option string;
  failedUserMessageId : option string
}.

(** [queryClient.getQueryData(latestQueryKey)]: the items of the cached
    conversation; [None] when nothing is cached. *)
Definition Cache := option (list Entry).

(** What [onMutate] returns; [latestQueryKey] is [false] for [null]. *)
Record Context := {
  previousConversation : Cache;
  latestQueryKey : bool
}.

(** [stamp] is [Date.now()] and [at_] is [new Date()]. *)
Definition optimisticUserMessage (content : string) (stamp at_ : Z) : Entry :=
  {| shown := {| Client.id := "temp-" ++ JS.showInt stamp;
                 Client.role := Prisma.User;
                 Client.content := content;
                 Client.createdAt := at_;
                 Client.isError := false |};
     errorMessage := None;
     failedUserMessageId := None |}.

(** [onMutate] *)
Definition onMutate (cache : Cache) (content : string)
  (existingMessageId : option string) (stamp at_ : Z) : Cache * Context :=
  if JS.truthy existingMessageId then
    (cache, {| previousConversation := None; latestQueryKey := false |})
  else
    (match cache with
     | Some items => Some (items ++ [optimisticUserMessage content stamp at_])
     | None => None
     end,
     {| previousConversation := cache; latestQueryKey := true |}).

(** The text shown under a failed message. *)
Definition errorText (e : Api.Thrown) : string :=
  if JS.includes "cancelled" (Api.messageOf e) then "Message was cancelled"
  else if JS.includes "timeout" (Api.messageOf e)
       then "Request timed out. Please try again."
  else if match e with
          | Api.Request r => match Api.isLlmError r with
                             | Some b => b
                             | None => false
                             end
          | Api.Plain _ => false
          end
       then "LLM service unavailable. Please try again."
  else "Failed to send message. Please try again.".

(** [error instanceof ApiRequestError ? error.messageId : undefined] *)
Definition savedMessageId (e : Api.Thrown) : option string :=
  match e with
  | Api.Request r => Api.messageId r
  | Api.Plain _ => None
  end.

(** The function [onError] maps over the cached items. *)
Definition markFailed (content : string) (saved : option string) (text : string)
  (msg : Entry) : Entry :=
  if String.prefix "temp-" (Client.id (shown msg))
     && String.eqb (Client.content (shown msg)) content
     && Prisma.role_eqb (Client.role (shown msg)) Prisma.User
  then {| shown := {| Client.id := JS.orElse saved (Client.id (shown msg));
                      Client.role := Client.role (shown msg);
                      Client.content := Client.content (shown msg);
                      Client.createdAt := Client.createdAt (shown msg);
                      Client.isError := true |};
          errorMessage := Some text;
          failedUserMessageId := saved |}
  else msg.

(** [onError] *)
Definition onError (cache : Cache) (e : Api.Thrown) (content : string)
  (context : Context) : Cache :=
  if latestQueryKey context then
    match cache with
    | Some items =>
        Some (map (markFailed content (savedMessageId e) (errorText e)) items)
    | None => None
    end
  else cache.

(** [handleRetryMessage], with a conversation selected, up to the call of
    [handleSendMessage]: the cache it leaves and the [existingMessageId] it
    passes on. *)
Definition handleRetryMessage (cache : Cache) (failedMessageId : string)
  : Cache * option string :=
  match cache with
  | Some items =>
      (Some (filter (fun msg =>
                       negb (String.eqb (Client.id (shown msg)) failedMessageId))
                    items),
       match find (fun msg => String.eqb (Client.id (shown msg)) failedMessageId)
                  items with
       | Some failedMessage => failedUserMessageId failedMessage
       | None => None
       end)
  | None => (None, None)
  end.

(** A send from the input box, up to the request: the cache and the context
    [onMutate] leaves, and the body [api.sendMessage] posts. *)
Definition sendRequest (cache : Cache) (content : string) (stamp at_ : Z)
  : Cache * Context * Json.JValue :=
  let (cache1, context) := onMutate cache content None stamp at_ in
  (cache1, context, Messages.clientBody content None).

(** A click on [Retry] under the message [failedMessageId], up to the
    request. *)
Definition retryRequest (cache : Cache) (messageContent failedMessageId : string)
  (stamp at_ : Z) : Cache * Context * Json.JValue :=
  let (cache1, existingMessageId) := handleRetryMessage cache failedMessageId in
  let (cache2, context) := onMutate cache1 messageContent existingMessageId stamp at_ in
  (cache2, context, Messages.clientBody messageContent existingMessageId).

End SendHook.

(** * Properties *)

(** ** Ordering *)

Section SortFacts.
Context {A : Type} (before : A -> A -> bool).
Hypothesis before_total : forall a b, before a b = true \/ before b a = true.
Hypothesis before_trans :
  forall a b c, before a b = true -> before b c = true -> before a c = true.

Lemma insertSorted_perm (x : A) (l : list A) :
  Permutation (Prisma.insertSorted before x l) (x :: l).
Proof.
  induction l as [|y ys IH]; simpl.
  - apply Permutation_refl.
  - destruct (before x y).
    + apply Permutation_refl.
    + eapply perm_trans; [apply perm_skip, IH | apply perm_swap].
Qed.

Lemma sortBy_perm (l : list A) : Permutation (Prisma.sortBy before l) l.
Proof.
  induction l as [|x xs IH]; simpl.
  - constructor.
  - eapply perm_trans; [apply insertSorted_perm | apply perm_skip, IH].
Qed.

Lemma sortBy_In (l : list A) (x : A) : In x (Prisma.sortBy before l) <-> In x l.
Proof.
  split; intro H.
  - eapply Permutation_in; [apply sortBy_perm | exact H].
  - eapply Permutation_in; [apply Permutation_sym, sortBy_perm | exact H].
Qed.

Lemma sortBy_length (l : list A) : List.length (Prisma.sortBy before l) = List.length l.
Proof. apply Permutation_length, sortBy_perm. Qed.

Definition inOrder (a b : A) : Prop := before a b = true.

Lemma insertSorted_sorted (x : A) (l : list A) :
  StronglySorted inOrder l -> StronglySorted inOrder (Prisma.insertSorted before x l).
Proof.
  induction l as [|y ys IH]; simpl; intro Hs.
  - constructor; constructor.
  - inversion Hs as [|? ? Hys Hall]; subst.
    destruct (before x y) eqn:Hxy.
    + constructor; [exact Hs|].
      constructor; [exact Hxy|].
      rewrite Forall_forall in Hall |- *.
      intros z Hz. eapply before_trans; [exact Hxy | apply Hall, Hz].
    + constructor; [apply IH, Hys|].
      rewrite Forall_forall in Hall |- *.
      intros z Hz.
      apply (Permutation_in _ (insertSorted_perm x ys)) in Hz.
      destruct Hz as [<- | Hz].
      * destruct (before_total x y) as [H | H]; [congruence | exact H].
      * apply Hall, Hz.
Qed.

Lemma sortBy_sorted (l : list A) : StronglySorted inOrder (Prisma.sortBy before l).
Proof.
  induction l as [|x xs IH]; simpl.
  - constructor.
  - apply insertSorted_sorted, IH.
Qed.

(** The first row of a sorted table comes before every row. *)
Lemma hd_sortBy_first (l : list A) (x : A) :
  hd_error (Prisma.sortBy before l) = Some x ->
  In x l /\ forall y, In y l -> before x y = true.
Proof.
  intro Hhd.
  pose proof (sortBy_sorted l) as Hs.
  destruct (Prisma.sortBy before l) as [|z zs] eqn:E; [discriminate|].
  injection Hhd as ->.
  split.
  - apply sortBy_In. rewrite E. now left.
  - intros y Hy. apply sortBy_In in Hy. rewrite E in Hy.
    inversion Hs as [|? ? _ Hall]; subst.
    destruct Hy as [<- | Hy].
    + destruct (before_total x x); assumption.
    + rewrite Forall_forall in Hall. apply Hall, Hy.
Qed.

Lemma hd_sortBy_none (l : list A) :
  hd_error (Prisma.sortBy before l) = None <-> l = [].
Proof.
  split.
  - intro H. destruct l as [|x xs]; [reflexivity|].
    pose proof (sortBy_length (x :: xs)) as Hl.
    destruct (Prisma.sortBy before (x :: xs)); [discriminate Hl | discriminate H].
  - intros ->. reflexivity.
Qed.
End SortFacts.

(** ** The most recent duplicate *)

Section Newest.
Import Prisma.

(** The first row among those with the greatest timestamp. *)
Fixpoint newest (l : list Message) : option Message :=
  match l with
  | [] => None
  | x :: l' =>
      match newest l' with
      | None => Some x
      | Some y => if createdAt y <=? createdAt x then Some x else Some y
      end
  end.

Lemma hd_sortBy_newest (l : list Message) :
  hd_error (sortBy createdAtDesc l) = newest l.
Proof.
  induction l as [|x xs IH]; simpl; [reflexivity|].
  rewrite <- IH.
  destruct (sortBy createdAtDesc xs) as [|y ys]; simpl; [reflexivity|].
  unfold createdAtDesc at 1.
  destruct (createdAt y <=? createdAt x); reflexivity.
Qed.

Lemma newest_In (l : list Message) (x : Message) : newest l = Some x -> In x l.
Proof.
  revert x. induction l as [|a l IH]; simpl; intros x H; [discriminate|].
  destruct (newest l) as [y|].
  - destruct (createdAt y <=? createdAt a); injection H as <-; auto.
  - injection H as <-. auto.
Qed.

Lemma newest_max (l : list Message) (x : Message) :
  newest l = Some x -> forall z, In z l -> createdAt z <= createdAt x.
Proof.
  revert x. induction l as [|a l IH]; simpl; intros x H z Hz; [contradiction|].
  destruct (newest l) as [y|] eqn:E.
  - destruct (createdAt y <=? createdAt a) eqn:C; injection H as <-.
    + apply Z.leb_le in C. destruct Hz as [<- | Hz]; [lia|].
      specialize (IH y eq_refl z Hz). lia.
    + apply Z.leb_gt in C. destruct Hz as [<- | Hz]; [lia|].
      apply (IH y eq_refl z Hz).
  - injection H as <-. destruct l; [|simpl in E; destruct (newest l); [destruct (_ <=? _)|]; discriminate].
    destruct Hz as [<- | []]. lia.
Qed.

Lemma newest_nil (l : list Message) : newest l = None -> l = [].
Proof.
  destruct l as [|a l]; simpl; [reflexivity|].
  destruct (newest l); [destruct (_ <=? _)|]; discriminate.
Qed.

End Newest.

(** ** Facts about the store *)

Section StoreFacts.
Import Prisma.

Lemma createMessage_inv db newId at_ conv r text db' m :
  createMessage db newId at_ conv r text = JS.Ok (db', m) ->
  m = {| id := newId; conversationId := conv; role := r; content := text;
         createdAt := at_ |}
  /\ messages db' = messages db ++ [m]
  /\ conversations db' = conversations db
  /\ findUniqueMessage db newId = None.
Proof.
  unfold createMessage.
  destruct (findUniqueMessage db newId) eqn:F; [discriminate|].
  destruct (findUniqueConversation db conv); [|discriminate].
  intro H. injection H as <- <-. simpl. auto.
Qed.

Lemma findUniqueConversation_ext db db' conv :
  conversations db' = conversations db ->
  findUniqueConversation db' conv = findUniqueConversation db conv.
Proof. unfold findUniqueConversation. now intros ->. Qed.

Lemma updateLastMessageAt_inv db conv at_ db' :
  updateLastMessageAt db conv at_ = JS.Ok db' ->
  messages db' = messages db
  /\ map cid (conversations db') = map cid (conversations db)
  /\ map displayIndex (conversations db') = map displayIndex (conversations db).
Proof.
  unfold updateLastMessageAt.
  destruct (findUniqueConversation db conv); [|discriminate].
  intro H. injection H as <-. simpl. rewrite !map_map.
  repeat split; apply map_ext; intro x; destruct (String.eqb (cid x) conv); reflexivity.
Qed.

Lemma find_cid_map (l l' : list Conversation) conv :
  map cid l' = map cid l ->
  find (fun c => String.eqb (cid c) conv) l <> None ->
  find (fun c => String.eqb (cid c) conv) l' <> None.
Proof.
  revert l'. induction l as [|a l IH]; intros [|a' l'] Hm; simpl; try discriminate; auto.
  simpl in Hm. injection Hm as Ha Hl. rewrite Ha.
  destruct (String.eqb (cid a) conv); [discriminate|].
  now apply IH.
Qed.
End StoreFacts.

(** ** The send pipeline *)

Section SendFacts.
Import Prisma Messages.

Definition userTurn (text : string) (existing : option string) : SendBody :=
  {| bContent := text; bRole := User; existingMessageId := existing |}.

Lemma schema_fresh (text : string) :
  1 <= Z.of_nat (String.length text) <= 10000 ->
  sendMessageSchema (clientBody text None) = JS.Ok (userTurn text None).
Proof.
  intros [H1 H2]. unfold sendMessageSchema, clientBody. simpl.
  apply Z.leb_le in H1, H2. rewrite H1, H2. reflexivity.
Qed.

Lemma schema_retry (text existing : string) :
  1 <= Z.of_nat (String.length text) <= 10000 ->
  existing <> "" ->
  sendMessageSchema (clientBody text (Some existing))
  = JS.Ok (userTurn text (Some existing)).
Proof.
  intros [H1 H2] Hne. unfold sendMessageSchema, clientBody. simpl.
  apply String.eqb_neq in Hne. rewrite Hne. simpl.
  apply Z.leb_le in H1, H2. rewrite H1, H2. reflexivity.
Qed.

(** The user message of a request is a row of the store it leaves. *)
Lemma resolve_persisted db conv b w db1 um :
  resolveUserMessage db conv b w = JS.Ok (db1, um) -> In um (messages db1).
Proof.
  unfold resolveUserMessage, lookupExisting.
  destruct (JS.truthy (existingMessageId b)).
  - destruct (findUniqueMessage db _) eqn:F.
    + intro H. injection H as <- <-.
      apply find_some in F. tauto.
    + destruct (findFirstDuplicate db conv (bRole b) (bContent b) _) eqn:D.
      * intro H. injection H as <- <-.
        unfold findFirstDuplicate in D. rewrite hd_sortBy_newest in D.
        apply newest_In, filter_In in D. tauto.
      * intro H. apply createMessage_inv in H as (_ & -> & _). apply in_or_app.
        right. now left.
  - destruct (findFirstDuplicate db conv (bRole b) (bContent b) _) eqn:D.
    + intro H. injection H as <- <-.
      unfold findFirstDuplicate in D. rewrite hd_sortBy_newest in D.
      apply newest_In, filter_In in D. tauto.
    + intro H. apply createMessage_inv in H as (_ & -> & _). apply in_or_app.
      right. now left.
Qed.

(** Resolving the user message adds at most that message, with the role
    of the request, and leaves the conversations alone. *)
Lemma resolve_store db conv b w db1 um :
  resolveUserMessage db conv b w = JS.Ok (db1, um) ->
  conversations db1 = conversations db
  /\ (messages db1 = messages db
      \/ (messages db1 = messages db ++ [um] /\ role um = bRole b)).
Proof.
  unfold resolveUserMessage.
  destruct (lookupExisting db b).
  - intro H. injection H as <- <-. auto.
  - destruct (findFirstDuplicate db conv (bRole b) (bContent b) _).
    + intro H. injection H as <- <-. auto.
    + intro H. apply createMessage_inv in H as (-> & Hm & Hc & _).
      split; [exact Hc|]. right. split; [exact Hm | reflexivity].
Qed.


Lemma finish_created db conv um w db' resp :
  finish db conv um w = (db', resp) ->
  status resp = 201 -> exists reply, body resp = Sent um reply.
Proof.
  unfold finish.
  destruct (getCompletion db conv w) as [llmResponse | e].
  - destruct (createMessage db (replyId w) (replyAt w) conv Assistant llmResponse)
      as [[db1 reply] | e].
    + destruct (updateLastMessageAt db1 conv (stampAt w)) as [db2 | e];
        intro H; injection H as <- <-; simpl; [eauto | discriminate].
    + intro H. injection H as <- <-. discriminate.
  - destruct e as [|msg]; [|destruct (JS.includes "aborted" msg)];
      intro H; injection H as <- <-; discriminate.
Qed.

(** The rows a content search can return. *)
Definition sameTurn (conv text : string) (m : Message) : bool :=
  String.eqb (conversationId m) conv && role_eqb (role m) User
  && String.eqb (content m) text.





End SendFacts.

Section SendTheorems.
Import Prisma Messages.

(** C10.  A request whose [existingMessageId] is the identifier of any
    stored message takes that message as its user turn: nothing relates the
    message to the target conversation or asks for the role [user].  The
    handler goes on with it, and a successful reply returns it as the
    request's [message]. *)
Theorem existing_message_reused_unchecked :
  forall db conv c text existing m w,
    findUniqueConversation db conv = Some c ->
    1 <= Z.of_nat (String.length text) <= 10000 ->
    existing <> "" ->
    findUniqueMessage db existing = Some m ->
    resolveUserMessage db conv (userTurn text (Some existing)) w = JS.Ok (db, m)
    /\ postMessage db conv (clientBody text (Some existing)) w
       = finish db conv m w
    /\ (status (snd (postMessage db conv (clientBody text (Some existing)) w)) = 201 ->
        exists reply,
          body (snd (postMessage db conv (clientBody text (Some existing)) w))
          = Sent m reply).
Proof.
  intros db conv c text existing m w Hc Hlen Hne Hm.
  assert (Hres : resolveUserMessage db conv (userTurn text (Some existing)) w
                 = JS.Ok (db, m)).
  { unfold resolveUserMessage, lookupExisting. simpl.
    apply String.eqb_neq in Hne. rewrite Hne. simpl. now rewrite Hm. }
  assert (Hpost : postMessage db conv (clientBody text (Some existing)) w
                  = finish db conv m w).
  { unfold postMessage. rewrite (schema_retry _ _ Hlen Hne), Hc, Hres. reflexivity. }
  repeat split; [exact Hres | exact Hpost |].
  rewrite Hpost. intro H201.
  destruct (finish db conv m w) as [db' resp] eqn:F.
  apply (finish_created _ _ _ _ _ _ F H201).
Qed.


End SendTheorems.

(** ** The retrying client *)

Section RetryFacts.
Import Llm.

Lemma retryDelay_nonneg (k : Z) : 0 <= retryDelay k.
Proof.
  unfold retryDelay.
  pose proof (Z.pow_nonneg 2 (k - 1) ltac:(lia)). lia.
Qed.

Lemma retryCondition_spec (e : AxiosError) :
  retryCondition e = true
  <-> response e = None \/ exists st, response e = Some st /\ 500 <= st.
Proof.
  unfold retryCondition. destruct (response e) as [st|].
  - rewrite Z.leb_le. split.
    + intro H. right. now exists st.
    + intros [H | (st' & H & Hle)]; [discriminate | congruence].
  - split; auto.
Qed.



Lemma dispatch_bounds start limit abortAt a :
  0 <= limit -> 0 <= latency a ->
  start <= fst (dispatch start limit abortAt a) <= start + limit.
Proof.
  intros Hl Ha. unfold dispatch, firedBy.
  destruct abortAt as [t|].
  - destruct (t <=? start) eqn:C0; [simpl; lia|]. apply Z.leb_gt in C0.
    destruct (t <? start + Z.min (latency a) limit) eqn:C1.
    + apply Z.ltb_lt in C1. simpl. lia.
    + destruct (limit <=? latency a) eqn:C2; simpl; [lia|].
      apply Z.leb_gt in C2. lia.
  - destruct (limit <=? latency a) eqn:C2; simpl; [lia|].
    apply Z.leb_gt in C2. lia.
Qed.

(** Every call is over within the time [config.timeout] allows. *)
Lemma attemptLoop_deadline (budget : nat) :
  forall k limit start abortAt script,
    0 <= limit ->
    (forall i, 0 <= latency (script i)) ->
    start <= finishedAt (attemptLoop budget k limit start abortAt script)
          <= start + limit.
Proof.
  induction budget as [|b IH]; intros k limit start abortAt script Hl Hlat;
    pose proof (dispatch_bounds start limit abortAt (script k) Hl (Hlat k)) as Hb;
    simpl; destruct (dispatch start limit abortAt (script k)) as [finish outcome];
    simpl in Hb.
  - destruct outcome; exact Hb.
  - destruct outcome as [field | error]; [exact Hb|].
    destruct (retryCondition error); [|exact Hb].
    destruct (limit - (finish - start) - retryDelay (k + 1) <=? 0) eqn:C; [exact Hb|].
    apply Z.leb_gt in C. simpl.
    pose proof (retryDelay_nonneg (k + 1)) as Hd.
    set (resume := match abortAt with
                   | Some t => if t <? finish + retryDelay (k + 1)
                               then Z.max t finish else finish + retryDelay (k + 1)
                   | None => finish + retryDelay (k + 1)
                   end).
    assert (Hr : finish <= resume <= finish + retryDelay (k + 1)).
    { unfold resume. destruct abortAt as [t|]; [|lia].
      destruct (t <? finish + retryDelay (k + 1)) eqn:C'; [|lia].
      apply Z.ltb_lt in C'. lia. }
    specialize (IH (k + 1) (limit - (finish - start) - retryDelay (k + 1))
                   resume abortAt script ltac:(lia) Hlat).
    lia.
Qed.

(** *** The shape of a call *)

(** The trace of a call that has made [k] retries so far: a last request, or
    a failed request that [retryCondition] accepts, the notification of
    retry [k + 1] with its delay, and the rest.  The next request starts
    when the delay, counted from the end of the failed one, has elapsed,
    or earlier if the signal has fired by then. *)
Inductive Schedule (abortAt : option Z) : Z -> list Event -> Prop :=
| Last k start finish outcome :
    Schedule abortAt k [Requested start finish outcome]
| Again k start finish error start' finish' outcome' more :
    k < retries ->
    retryCondition error = true ->
    start' = finish + retryDelay (k + 1)
    \/ (firedBy abortAt start' = true
        /\ finish <= start' <= finish + retryDelay (k + 1)) ->
    Schedule abortAt (k + 1) (Requested start' finish' outcome' :: more) ->
    Schedule abortAt k
      (Requested start finish (inr error)
       :: OnRetry (k + 1) (retryDelay (k + 1))
       :: Requested start' finish' outcome' :: more).

Definition isRetry (e : Event) : bool :=
  match e with
  | OnRetry _ _ => true
  | Requested _ _ _ => false
  end.

Definition retriesMade (es : list Event) : nat := List.length (filter isRetry es).

Lemma events_head budget k limit start abortAt script :
  exists finish outcome more,
    events (attemptLoop budget k limit start abortAt script)
    = Requested start finish outcome :: more.
Proof.
  destruct budget as [|b]; simpl;
    destruct (dispatch start limit abortAt (script k)) as [finish outcome].
  - destruct outcome; simpl; eauto.
  - destruct outcome as [field | error]; simpl; [eauto|].
    destruct (retryCondition error); simpl; [|eauto].
    destruct (limit - (finish - start) - retryDelay (k + 1) <=? 0); simpl; eauto.
Qed.

Lemma attemptLoop_schedule (budget : nat) :
  forall k limit start abortAt script,
    k + Z.of_nat budget = retries ->
    Schedule abortAt k (events (attemptLoop budget k limit start abortAt script)).
Proof.
  induction budget as [|b IH]; intros k limit start abortAt script Hk; simpl;
    destruct (dispatch start limit abortAt (script k)) as [finish outcome].
  - destruct outcome; simpl; constructor.
  - destruct outcome as [field | error]; simpl; [constructor|].
    destruct (retryCondition error) eqn:R; simpl; [|constructor].
    destruct (limit - (finish - start) - retryDelay (k + 1) <=? 0); simpl;
      [constructor|].
    pose proof (retryDelay_nonneg (k + 1)) as Hd.
    set (resume := match abortAt with
                   | Some t => if t <? finish + retryDelay (k + 1)
                               then Z.max t finish else finish + retryDelay (k + 1)
                   | None => finish + retryDelay (k + 1)
                   end).
    specialize (IH (k + 1) (limit - (finish - start) - retryDelay (k + 1))
                   resume abortAt script ltac:(lia)).
    destruct (events_head b (k + 1)
                (limit - (finish - start) - retryDelay (k + 1))
                resume abortAt script) as (f' & o' & more & E).
    rewrite E in IH |- *.
    apply Again; [lia | exact R | | exact IH].
    unfold resume. destruct abortAt as [t|]; [|now left].
    destruct (t <? finish + retryDelay (k + 1)) eqn:C; [|now left].
    apply Z.ltb_lt in C. right. split; [|lia].
    simpl. apply Z.leb_le. lia.
Qed.

Lemma attemptLoop_retries (budget : nat) :
  forall k limit start abortAt script,
    (retriesMade (events (attemptLoop budget k limit start abortAt script))
     <= budget)%nat.
Proof.
  unfold retriesMade.
  induction budget as [|b IH]; intros k limit start abortAt script; simpl;
    destruct (dispatch start limit abortAt (script k)) as [finish outcome].
  - destruct outcome; simpl; lia.
  - destruct outcome as [field | error]; simpl; [lia|].
    destruct (retryCondition error); simpl; [|lia].
    destruct (limit - (finish - start) - retryDelay (k + 1) <=? 0); simpl; [lia|].
    apply le_n_S, IH.
Qed.

(** C5.  Every call through a client of [createHttpClient]: a failed
    request is retried only if it got no response or a status of 500 or
    more (so never on a 4xx status); at most 2 retries are made; retry 1
    waits 500 ms and retry 2 waits 1000 ms, counted from the end of the
    failed request (the wait ends early only when the abort signal fires);
    and the whole call is over within the 12 s ceiling, 12000 on the
    millisecond clock of the delays. *)
Theorem retry_policy :
  forall start abortAt script,
    (forall k, 0 <= latency (script k)) ->
    let call := post start abortAt script in
    Schedule abortAt 0 (events call)
    /\ (retriesMade (events call) <= 2)%nat
    /\ retryDelay 1 = 500 /\ retryDelay 2 = 1000
    /\ start <= finishedAt call <= start + 12 * 1000
    /\ (forall e, retryCondition e = true
                  <-> response e = None
                      \/ exists st, response e = Some st /\ 500 <= st)
    /\ (forall e st, response e = Some st -> 400 <= st < 500 ->
                     retryCondition e = false).
Proof.
  intros start abortAt script Hlat call. unfold call, post.
  split; [apply attemptLoop_schedule; reflexivity|].
  split; [apply (attemptLoop_retries 2)|].
  split; [reflexivity|]. split; [reflexivity|].
  split; [apply attemptLoop_deadline; [unfold timeout; lia | exact Hlat]|].
  split; [apply retryCondition_spec|].
  intros e st He Hst. unfold retryCondition. rewrite He. apply Z.leb_gt. lia.
Qed.



End RetryFacts.

Section FailureTheorems.
Import Prisma Messages.



End FailureTheorems.

(** ** The display counter *)

Section CounterFacts.
Import Prisma Conversations.

(** The stores the handlers can produce from the empty one.  [Created]
    stands for a creation whose index was read before other requests went
    through: the store only takes it if its constraints allow. *)
Inductive Reachable : Store -> Prop :=
| Initial : Reachable empty
| Posted db reqBody newId at_ :
    Reachable db -> Reachable (fst (postConversation db reqBody newId at_))
| Created db newId at_ t index db' c :
    Reachable db ->
    createConversation db newId at_ t index = JS.Ok (db', c) ->
    Reachable db'
| Patched db conv reqBody :
    Reachable db -> Reachable (fst (patchConversation db conv reqBody))
| Deleted db conv :
    Reachable db -> Reachable (fst (deleteConversation db conv))
| MessageSent db conv reqBody w :
    Reachable db -> Reachable (fst (Messages.postMessage db conv reqBody w)).

Definition indexes (db : Store) : list Z := map displayIndex (conversations db).

Lemma displayIndexDesc_total a b :
  displayIndexDesc a b = true \/ displayIndexDesc b a = true.
Proof. unfold displayIndexDesc. rewrite !Z.leb_le. lia. Qed.

Lemma displayIndexDesc_trans a b c :
  displayIndexDesc a b = true -> displayIndexDesc b c = true ->
  displayIndexDesc a c = true.
Proof. unfold displayIndexDesc. rewrite !Z.leb_le. lia. Qed.

Lemma maxConversation_spec db m :
  maxConversation db = Some m ->
  In m (conversations db)
  /\ forall c, In c (conversations db) -> displayIndex c <= displayIndex m.
Proof.
  intro H.
  destruct (hd_sortBy_first displayIndexDesc displayIndexDesc_total
              displayIndexDesc_trans _ _ H) as [Hin Hall].
  split; [exact Hin|].
  intros c Hc. specialize (Hall c Hc). unfold displayIndexDesc in Hall.
  now apply Z.leb_le.
Qed.

Lemma maxConversation_none db : maxConversation db = None -> conversations db = [].
Proof. apply hd_sortBy_none. Qed.

Lemma createConversation_inv db newId at_ t index db' c :
  createConversation db newId at_ t index = JS.Ok (db', c) ->
  c = {| cid := newId; title := t; displayIndex := index; cCreatedAt := at_;
         lastMessageAt := None |}
  /\ conversations db' = conversations db ++ [c]
  /\ messages db' = messages db
  /\ ~ In index (indexes db).
Proof.
  unfold createConversation.
  destruct (existsb (fun c0 => String.eqb (cid c0) newId) (conversations db));
    [discriminate|].
  destruct (existsb (fun c0 => displayIndex c0 =? index) (conversations db)) eqn:E;
    [discriminate|].
  intro H. injection H as <- <-. simpl. repeat split.
  intro Hin. unfold indexes in Hin. apply in_map_iff in Hin as (c0 & Hc0 & Hin).
  assert (existsb (fun c1 => displayIndex c1 =? index) (conversations db) = true).
  { apply existsb_exists. exists c0. split; [exact Hin | now apply Z.eqb_eq]. }
  congruence.
Qed.


Lemma postConversation_inv db reqBody newId at_ db' resp :
  postConversation db reqBody newId at_ = (db', resp) ->
  db' = db
  \/ exists t c, createConversation db newId at_ t (nextDisplayIndex db)
                 = JS.Ok (db', c).
Proof.
  unfold postConversation.
  destruct (createConversationSchema reqBody) as [bodyTitle | e].
  - match goal with
    | |- context [createConversation db newId at_ ?t ?i] =>
        destruct (createConversation db newId at_ t i) as [[db1 c] | e] eqn:C
    end.
    + intro H. injection H as <- <-. right. eauto.
    + intro H. injection H as <- <-. now left.
  - destruct e; intro H; injection H as <- <-; now left.
Qed.




End CounterFacts.

(** ** The cursor codec *)

Section CodecFacts.
Import Base64Url.

Definition alphabetOk (n : N) : bool :=
  match unbase64 (alphabet n) with
  | Some m => (m =? n)%N
  | None => false
  end
  && negb (Ascii.eqb (alphabet n) "="%char).

Lemma alphabet_table : forallb alphabetOk (map N.of_nat (seq 0 64)) = true.
Proof. vm_compute. reflexivity. Qed.

Lemma alphabet_unbase64 (n : N) :
  (n < 64)%N ->
  unbase64 (alphabet n) = Some n /\ Ascii.eqb (alphabet n) "="%char = false.
Proof.
  intro Hn.
  pose proof alphabet_table as T. rewrite forallb_forall in T.
  specialize (T n).
  assert (Hin : In n (map N.of_nat (seq 0 64))).
  { apply in_map_iff. exists (N.to_nat n). split; [apply N2Nat.id|].
    apply in_seq. lia. }
  specialize (T Hin). unfold alphabetOk in T.
  apply andb_prop in T as [T1 T2].
  destruct (unbase64 (alphabet n)) as [m|]; [|discriminate].
  apply N.eqb_eq in T1. subst m.
  split; [reflexivity|]. now apply negb_true_iff in T2.
Qed.

Lemma sextets_alphabet (n : N) (rest : string) :
  (n < 64)%N -> sextets (String (alphabet n) rest) = n :: sextets rest.
Proof.
  intro Hn. destruct (alphabet_unbase64 n Hn) as [H1 H2].
  simpl. now rewrite H2, H1.
Qed.

Ltac byte_bound a :=
  let H := fresh "Hb" in
  pose proof (N_ascii_bounded a) as H.

Ltac solve_sextet :=
  zify; Z.quot_rem_to_equations; Z.div_mod_to_equations; lia.

Lemma ascii_of_value (a : ascii) (n : N) : n = N_of_ascii a -> ascii_of_N n = a.
Proof. intros ->. apply ascii_N_embedding. Qed.

(** Decoding undoes encoding. *)
Lemma decode_encode (bytes : string) : decode (encode bytes) = bytes.
Proof.
  unfold decode.
  enough (H : decode (encode bytes) = bytes
              /\ (forall a, decode (encode (String a bytes)) = String a bytes)
              /\ (forall a b, decode (encode (String a (String b bytes)))
                              = String a (String b bytes)))
    by apply H.
  unfold decode.
  induction bytes as [|c rest IH].
  - split; [reflexivity|]. split.
    + intro a. byte_bound a. cbn [encode].
      rewrite !sextets_alphabet by solve_sextet. cbn [sextets bytesOf].
      f_equal. apply ascii_of_value. solve_sextet.
    + intros a b. byte_bound a. byte_bound b. cbn [encode].
      rewrite !sextets_alphabet by solve_sextet. cbn [sextets bytesOf].
      repeat f_equal; apply ascii_of_value; solve_sextet.
  - destruct IH as (IH0 & IH1 & IH2).
    split; [apply IH1|]. split; [intro a; apply IH2|].
    intros a b. byte_bound a. byte_bound b. byte_bound c.
    change (encode (String a (String b (String c rest))))
      with (String (alphabet (N_of_ascii a / 4))
             (String (alphabet (N_of_ascii a mod 4 * 16 + N_of_ascii b / 16))
               (String (alphabet (N_of_ascii b mod 16 * 4 + N_of_ascii c / 64))
                 (String (alphabet (N_of_ascii c mod 64)) (encode rest))))).
    rewrite !sextets_alphabet by solve_sextet.
    change (bytesOf (?v1 :: ?v2 :: ?v3 :: ?v4 :: ?l))
      with (String (ascii_of_N (v1 * 4 + v2 / 16))
             (String (ascii_of_N (v2 mod 16 * 16 + v3 / 4))
               (String (ascii_of_N (v3 mod 4 * 64 + v4)) (bytesOf l)))).
    rewrite IH0.
    repeat f_equal; apply ascii_of_value; solve_sextet.
Qed.

Import JsonText.

(** Reading back one written character. *)
Lemma parseChars_escapeChar (c : ascii) (text t r : string) :
  parseChars text = Some (t, r) ->
  parseChars (escapeChar c text) = Some (String c t, r).
Proof.
  intro H.
  destruct c as [[|] [|] [|] [|] [|] [|] [|] [|]];
    cbv [escapeChar code N_of_ascii N_of_digits Ascii.eqb Bool.eqb dquote backslash
         N.eqb N.ltb N.compare N.add N.mul N.div N.modulo N.div_eucl
         Pos.eqb Pos.compare Pos.compare_cont Pos.add Pos.mul
         hexDigit ascii_of_N ascii_of_pos];
    cbn; rewrite H; reflexivity.
Qed.

(** Reading back a written string literal. *)
Lemma parseChars_escape (s rest : string) :
  parseChars (escape s (String dquote rest)) = Some (s, rest).
Proof.
  induction s as [|c s IH]; [reflexivity|].
  cbn [escape]. now apply parseChars_escapeChar.
Qed.

End CodecFacts.

(** ** The JSON reader never runs out of fuel *)

Section ParserFacts.
Import Json JsonText.

Ltac break H :=
  repeat (match type of H with
  | match ?x with _ => _ end = Some _ => destruct x eqn:?; try discriminate H
  | (if ?x then _ else _) = Some _ => destruct x eqn:?; try discriminate H
  | (let (_, _) := ?x in _) = Some _ => destruct x eqn:?
  | option_map _ ?x = Some _ => destruct x eqn:?; simpl in H; try discriminate H
  | (match ?x with _ => _ end) = (_, _) => destruct x eqn:?
  | (if ?x then _ else _) = (_, _) => destruct x eqn:?
  end).

Lemma skipWhitespace_length s : (String.length (skipWhitespace s) <= String.length s)%nat.
Proof.
  induction s as [|c s IH]; simpl; [lia|].
  destruct (isWhitespace c); simpl; lia.
Qed.

Lemma parseChars_length : forall n s t r,
  (String.length s <= n)%nat -> parseChars s = Some (t, r) ->
  (String.length r < String.length s)%nat.
Proof.
  induction n as [|n IH]; intros s t r Hn H.
  - destruct s; [discriminate H | simpl in Hn; lia].
  - destruct s as [|c rest]; [discriminate H|].
    cbn [parseChars] in H. simpl in Hn.
    break H.
    all: try (injection H as <- <-; simpl; lia).
    all: simpl in Hn |- *.
    all: try (match goal with
         | E : parseChars ?x = Some (_, ?r') |- _ =>
             injection H as <- <-;
             apply IH in E; simpl in *; try lia
         end).
Qed.

Lemma takeDigits_length s ds r :
  takeDigits s = (ds, r) -> (String.length r <= String.length s)%nat.
Proof.
  revert ds r. induction s as [|c s IH]; simpl; intros ds r H.
  - injection H as <- <-. simpl. lia.
  - destruct (isDigit c).
    + destruct (takeDigits s) as [ds' r'] eqn:E. injection H as <- <-.
      specialize (IH _ _ eq_refl). lia.
    + injection H as <- <-. simpl. lia.
Qed.

Ltac digits :=
  repeat match goal with
  | E : takeDigits _ = (_, _) |- _ => apply takeDigits_length in E
  end.

Lemma parseInteger_length s l r :
  parseInteger s = Some (l, r) -> (String.length r < String.length s)%nat.
Proof.
  unfold parseInteger. intro H. break H; digits; injection H as <- <-; simpl; lia.
Qed.

Lemma parseFraction_length s l r :
  parseFraction s = Some (l, r) -> (String.length r <= String.length s)%nat.
Proof.
  unfold parseFraction. intro H. break H; digits; injection H as <- <-; simpl; lia.
Qed.

Lemma parseExponent_length s l r :
  parseExponent s = Some (l, r) -> (String.length r <= String.length s)%nat.
Proof.
  unfold parseExponent. intro H.
  destruct s as [|c rest]; [injection H as <- <-; simpl; lia|].
  destruct (Ascii.eqb c "e" || Ascii.eqb c "E"); [|injection H as <- <-; simpl; lia].
  match type of H with
  | (let (_, _) := ?x in _) = _ => destruct x as [sign rest1] eqn:S
  end.
  assert (String.length rest1 <= String.length rest)%nat.
  { destruct rest as [|g rest']; [injection S as <- <-; simpl; lia|].
    destruct (Ascii.eqb g "+" || Ascii.eqb g "-"); injection S as <- <-; simpl; lia. }
  destruct (takeDigits rest1) as [ds r'] eqn:D. apply takeDigits_length in D.
  destruct ds; [discriminate|]. injection H as <- <-. simpl. lia.
Qed.

Lemma parseNumber_length s l r :
  parseNumber s = Some (l, r) -> (String.length r < String.length s)%nat.
Proof.
  unfold parseNumber. intro H.
  destruct (match s with
            | EmptyString => (EmptyString, s)
            | String c rest => if Ascii.eqb c "-" then (String c EmptyString, rest)
                               else (EmptyString, s)
            end) as [sign s1] eqn:S.
  assert (String.length s1 <= String.length s)%nat.
  { destruct s as [|c rest]; [injection S as <- <-; simpl; lia|].
    destruct (Ascii.eqb c "-"); injection S as <- <-; simpl; lia. }
  destruct (parseInteger s1) as [[i s2]|] eqn:I; [|discriminate].
  destruct (parseFraction s2) as [[f s3]|] eqn:F; [|discriminate].
  destruct (parseExponent s3) as [[e s4]|] eqn:X; [|discriminate].
  injection H as <- <-.
  apply parseInteger_length in I. apply parseFraction_length in F.
  apply parseExponent_length in X. lia.
Qed.

Lemma expect_length w s r :
  expect w s = Some r -> (String.length r + String.length w = String.length s)%nat.
Proof.
  revert s. induction w as [|c w IH]; simpl; intros s H.
  - injection H as <-. lia.
  - destruct s as [|d s]; [discriminate|].
    destruct (Ascii.eqb c d); [|discriminate].
    apply IH in H. simpl. lia.
Qed.

Ltac lengths :=
  repeat match goal with
  | E : skipWhitespace ?s = ?t |- _ =>
      lazymatch goal with
      | _ : (String.length t <= String.length s)%nat |- _ => fail
      | _ => let L := fresh "L" in
             pose proof (skipWhitespace_length s) as L; rewrite E in L
      end
  | E : parseChars _ = Some _ |- _ => apply (parseChars_length _ _ _ _ (le_n _)) in E
  | E : parseNumber _ = Some _ |- _ => apply parseNumber_length in E
  | E : expect _ _ = Some _ |- _ => apply expect_length in E
  end.

(** Every parser consumes at least one character. *)
Lemma parse_progress : forall f : nat,
  (forall s v r, parseValue f s = Some (v, r) ->
                 (String.length r < String.length s)%nat)
  /\ (forall s m r, parseMembers f s = Some (m, r) ->
                    (String.length r < String.length s)%nat)
  /\ (forall s e r, parseElements f s = Some (e, r) ->
                    (String.length r < String.length s)%nat).
Proof.
  induction f as [|f IH]; [repeat split; discriminate|].
  destruct IH as (IHv & IHm & IHe).
  split; [|split]; intros s x r H;
    [cbn [parseValue] in H | cbn [parseMembers] in H | cbn [parseElements] in H];
    break H;
    repeat match goal with
    | E : parseMembers f _ = Some _ |- _ => apply IHm in E
    | E : parseElements f _ = Some _ |- _ => apply IHe in E
    | E : parseValue f _ = Some _ |- _ => apply IHv in E
    end;
    lengths; injection H as <- <-; simpl in *; lia.
Qed.

(** The fuel [parse] gives is enough: a parse that succeeds with some fuel
    succeeds with the fuel computed from the length of the text. *)
Lemma parse_fuel : forall f : nat,
  (forall s x g, parseValue f s = Some x ->
                 (2 * String.length s + 1 <= g)%nat -> parseValue g s = Some x)
  /\ (forall s x g, parseMembers f s = Some x ->
                    (2 * String.length s + 2 <= g)%nat -> parseMembers g s = Some x)
  /\ (forall s x g, parseElements f s = Some x ->
                    (2 * String.length s + 2 <= g)%nat -> parseElements g s = Some x).
Proof.
  induction f as [|f IH]; [repeat split; discriminate|].
  destruct IH as (IHv & IHm & IHe).
  destruct (parse_progress f) as (Pv & Pm & Pe).
  split; [|split]; intros s x g H Hg;
    (destruct g as [|g]; [lia|]);
    [cbn [parseValue] in H |- * | cbn [parseMembers] in H |- *
     | cbn [parseElements] in H |- *];
    break H; lengths;
    repeat match goal with
    | E : parseValue f ?s' = Some (?v, ?r) |- _ =>
        let P := fresh "P" in
        pose proof (Pv s' v r E) as P;
        rewrite (IHv s' (v, r) g E) by (simpl in *; lia); clear E
    | E : parseMembers f ?s' = Some (?v, ?r) |- _ =>
        let P := fresh "P" in
        pose proof (Pm s' v r E) as P;
        rewrite (IHm s' (v, r) g E) by (simpl in *; lia); clear E
    | E : parseElements f ?s' = Some (?v, ?r) |- _ =>
        let P := fresh "P" in
        pose proof (Pe s' v r E) as P;
        rewrite (IHe s' (v, r) g E) by (simpl in *; lia); clear E
    | E : skipWhitespace _ = _ |- _ => rewrite E
    | E : Ascii.eqb _ _ = _ |- _ => rewrite E
    end;
    exact H.
Qed.

Lemma parse_complete (text : string) (f : nat) (v : JValue) (r : string) :
  parseValue f text = Some (v, r) -> skipWhitespace r = EmptyString ->
  parse text = Some v.
Proof.
  intros H Hr. unfold parse.
  rewrite (proj1 (parse_fuel f) text (v, r) _ H) by lia.
  now rewrite Hr.
Qed.

End ParserFacts.

Section CursorTheorems.
Import Prisma Pagination Conversations.

Lemma parse_stringifyCursor (data : CursorData) :
  JsonText.parse (stringifyCursor data) = Some (cursorValue data).
Proof.
  unfold JsonText.parse.
  assert (Hfuel : exists k, (2 * String.length (stringifyCursor data) + 2)%nat
                            = S (S (S (S k)))).
  { unfold stringifyCursor.
    match goal with
    | |- context [String "{" ?tail] =>
        exists (2 * String.length tail)%nat; cbn [String.length]; lia
    end. }
  destruct Hfuel as [k ->].
  unfold stringifyCursor, JsonText.quote.
  cbn -[JsonText.parseChars JsonText.escape].
  repeat (rewrite parseChars_escape; cbn -[JsonText.parseChars JsonText.escape]).
  reflexivity.
Qed.

(** Decoding an encoded cursor gives back its identifier and timestamp. *)
Lemma cursor_round_trip (data : CursorData) :
  decodeCursor (encodeCursor data) = JS.Ok (cursorValue data).
Proof.
  unfold decodeCursor, encodeCursor.
  now rewrite decode_encode, parse_stringifyCursor.
Qed.

(** C4, at cursors that no [encodeCursor] produces.  [bnVsbA] is the
    base64url form of [null]: [decodeCursor] returns it without an error.
    [eyJpZCI6Inp6eiJ9] is the form of an object with the single key [id]:
    [decodeCursor] returns it too, and the route answers 200 with an empty
    page, as no message has that identifier. *)
Theorem malformed_cursor_accepted :
  let conv := {| cid := "c1"; title := "Conversation #1"; displayIndex := 1;
                 cCreatedAt := 1000; lastMessageAt := Some 3000 |} in
  let db := {| conversations := [conv];
               messages :=
                 [ {| id := "m1"; conversationId := "c1"; role := User;
                      content := "Hello"; createdAt := 2000 |};
                   {| id := "m2"; conversationId := "c1"; role := Assistant;
                      content := "Hi"; createdAt := 3000 |} ] |} in
  (forall data, encodeCursor data <> "bnVsbA")
  /\ decodeCursor "bnVsbA" = JS.Ok Json.JNull
  /\ (forall data, encodeCursor data <> "eyJpZCI6Inp6eiJ9")
  /\ decodeCursor "eyJpZCI6Inp6eiJ9"
     = JS.Ok (Json.JObject [("id", Json.JString "zzz")])
  /\ getConversation db "c1" (Some "eyJpZCI6Inp6eiJ9") None
     = {| status := 200;
          body := Page conv {| items := []; nextCursor := None;
                               prevCursor := None; hasMore := false |} |}.
Proof.
  intros conv db.
  assert (H1 : decodeCursor "bnVsbA" = JS.Ok Json.JNull) by (vm_compute; reflexivity).
  assert (H2 : decodeCursor "eyJpZCI6Inp6eiJ9"
               = JS.Ok (Json.JObject [("id", Json.JString "zzz")]))
    by (vm_compute; reflexivity).
  split; [|split; [|split; [|split]]].
  - intros data E. pose proof (cursor_round_trip data) as R.
    rewrite E, H1 in R. discriminate R.
  - exact H1.
  - intros data E. pose proof (cursor_round_trip data) as R.
    rewrite E, H2 in R. discriminate R.
  - exact H2.
  - vm_compute. reflexivity.
Qed.

End CursorTheorems.

(** ** Pages *)

Section PageFacts.
Import Prisma Pagination Conversations.

Lemma StronglySorted_filter {A} (R : A -> A -> Prop) (p : A -> bool) (l : list A) :
  StronglySorted R l -> StronglySorted R (filter p l).
Proof.
  induction 1 as [|a l Hs IH Hall]; simpl; [constructor|].
  destruct (p a); [|exact IH].
  constructor; [exact IH|].
  rewrite Forall_forall in Hall |- *. intros x Hx.
  apply filter_In in Hx. now apply Hall.
Qed.

Lemma In_firstn {A} (n : nat) (l : list A) (x : A) : In x (firstn n l) -> In x l.
Proof.
  intro H. rewrite <- (firstn_skipn n l). apply in_or_app. now left.
Qed.

Lemma StronglySorted_firstn {A} (R : A -> A -> Prop) (n : nat) (l : list A) :
  StronglySorted R l -> StronglySorted R (firstn n l).
Proof.
  intro Hs. revert n.
  induction Hs as [|a l Hs IH Hall]; intros [|n]; simpl; try constructor.
  - apply IH.
  - rewrite Forall_forall in Hall |- *. intros x Hx.
    apply Hall. eapply In_firstn. exact Hx.
Qed.

Lemma StronglySorted_weaken {A} (R S : A -> A -> Prop) (l : list A) :
  (forall a b, R a b -> S a b) -> StronglySorted R l -> StronglySorted S l.
Proof.
  intros HRS. induction 1 as [|a l Hs IH Hall]; constructor; [exact IH|].
  eapply Forall_impl; [|exact Hall]. intros b. apply HRS.
Qed.

(** A stable sort keeps the relative order of the rows of one class, when
    rows of one class are never out of order. *)
Lemma sortBy_stable {A} (before : A -> A -> bool) (same : A -> bool) :
  (forall x y, before x y = false -> same x = true -> same y = true -> False) ->
  forall l, filter same (sortBy before l) = filter same l.
Proof.
  intros Hcls.
  assert (Hins : forall x l, filter same (insertSorted before x l)
                             = filter same (x :: l)).
  { intros x l. induction l as [|y ys IH]; [reflexivity|].
    cbn [insertSorted]. destruct (before x y) eqn:B; [reflexivity|].
    cbn [filter] in *. rewrite IH.
    destruct (same x) eqn:Sx, (same y) eqn:Sy; try reflexivity.
    exfalso. eapply Hcls; eassumption. }
  induction l as [|x xs IH]; [reflexivity|].
  cbn [sortBy]. rewrite Hins. cbn [filter]. now rewrite IH.
Qed.

Definition newestFirst (a b : Message) : Prop := createdAt b <= createdAt a.
Definition oldestFirst (a b : Message) : Prop := createdAt a <= createdAt b.

Lemma createdAtDesc_total a b : createdAtDesc a b = true \/ createdAtDesc b a = true.
Proof. unfold createdAtDesc. rewrite !Z.leb_le. lia. Qed.

Lemma createdAtDesc_trans a b c :
  createdAtDesc a b = true -> createdAtDesc b c = true -> createdAtDesc a c = true.
Proof. unfold createdAtDesc. rewrite !Z.leb_le. lia. Qed.

Lemma createdAtAsc_total a b : createdAtAsc a b = true \/ createdAtAsc b a = true.
Proof. unfold createdAtAsc. rewrite !Z.leb_le. lia. Qed.

Lemma createdAtAsc_trans a b c :
  createdAtAsc a b = true -> createdAtAsc b c = true -> createdAtAsc a c = true.
Proof. unfold createdAtAsc. rewrite !Z.leb_le. lia. Qed.

Lemma sortBy_newestFirst (l : list Message) :
  StronglySorted newestFirst (sortBy createdAtDesc l).
Proof.
  eapply StronglySorted_weaken;
    [|apply (sortBy_sorted createdAtDesc createdAtDesc_total createdAtDesc_trans)].
  intros a b H. unfold inOrder, createdAtDesc in H. now apply Z.leb_le in H.
Qed.

Lemma sortBy_oldestFirst (l : list Message) :
  StronglySorted oldestFirst (sortBy createdAtAsc l).
Proof.
  eapply StronglySorted_weaken;
    [|apply (sortBy_sorted createdAtAsc createdAtAsc_total createdAtAsc_trans)].
  intros a b H. unfold inOrder, createdAtAsc in H. now apply Z.leb_le in H.
Qed.

Lemma rowsFrom_sorted db conv cur rows :
  rowsFrom db conv cur = JS.Ok rows -> StronglySorted newestFirst rows.
Proof.
  unfold rowsFrom. destruct cur as [[v|]|].
  - destruct v; try discriminate.
    destruct (findUniqueMessage db s) as [boundary|]; intro H; injection H as <-.
    + apply StronglySorted_filter, sortBy_newestFirst.
    + constructor.
  - discriminate.
  - intro H. injection H as <-. apply sortBy_newestFirst.
Qed.

Lemma findManyPage_sorted db conv q rows :
  findManyPage db conv q = JS.Ok rows -> StronglySorted newestFirst rows.
Proof.
  unfold findManyPage.
  destruct (rowsFrom db conv (cursor q)) as [all|] eqn:R; [|discriminate].
  intro H. injection H as <-.
  apply StronglySorted_firstn. now apply rowsFrom_sorted in R.
Qed.

Lemma buildPaginationQuery_take cur limit q :
  buildPaginationQuery cur limit = JS.Ok q ->
  take q = Z.min (Z.max limit 1) 100 + 1.
Proof.
  unfold buildPaginationQuery.
  destruct (negb (JS.truthy cur)).
  - intro H. now injection H as <-.
  - destruct (decodeCursor _) as [v|]; [|discriminate].
    destruct (idOf v); [|discriminate].
    intro H. now injection H as <-.
Qed.

(** With a limit between 1 and 100 a page holds the first [limit] of the
    rows the query selects, newest first, one row more than that is
    fetched, and [hasMore] tells whether more than [limit] rows were
    selected. *)
Lemma page_within_bounds db conv cur limit q rows :
  1 <= limit <= 100 ->
  buildPaginationQuery cur limit = JS.Ok q ->
  rowsFrom db conv (cursor q) = JS.Ok rows ->
  take q = limit + 1
  /\ findManyPage db conv q = JS.Ok (firstn (Z.to_nat (limit + 1)) rows)
  /\ items (createCursorPagination (firstn (Z.to_nat (limit + 1)) rows) limit)
     = firstn (Z.to_nat limit) rows
  /\ (hasMore (createCursorPagination (firstn (Z.to_nat (limit + 1)) rows) limit)
      = true <-> limit < Z.of_nat (List.length rows))
  /\ Z.of_nat (List.length
       (items (createCursorPagination (firstn (Z.to_nat (limit + 1)) rows) limit)))
     <= limit
  /\ StronglySorted newestFirst
       (items (createCursorPagination (firstn (Z.to_nat (limit + 1)) rows) limit)).
Proof.
  intros Hl Hq Hrows.
  pose proof (buildPaginationQuery_take _ _ _ Hq) as Htake.
  assert (Ht : take q = limit + 1) by lia.
  assert (Hlen : Z.of_nat (List.length (firstn (Z.to_nat (limit + 1)) rows))
                 = Z.min (limit + 1) (Z.of_nat (List.length rows)))
    by (rewrite length_firstn; lia).
  assert (Hitems : items (createCursorPagination
                            (firstn (Z.to_nat (limit + 1)) rows) limit)
                   = firstn (Z.to_nat limit) rows).
  { unfold createCursorPagination. cbn [items]. rewrite Hlen.
    destruct (limit <? Z.min (limit + 1) (Z.of_nat (List.length rows))) eqn:C.
    - unfold slice0.
      assert ((limit <? 0) = false) as -> by (apply Z.ltb_ge; lia).
      rewrite firstn_firstn. f_equal. lia.
    - apply Z.ltb_ge in C.
      rewrite !firstn_all2 by lia. reflexivity. }
  split; [exact Ht|].
  split; [unfold findManyPage; now rewrite Hrows, Ht|].
  split; [exact Hitems|].
  split.
  - unfold createCursorPagination. cbn [hasMore]. rewrite Hlen, Z.ltb_lt. lia.
  - rewrite Hitems. split.
    + rewrite length_firstn. lia.
    + apply StronglySorted_firstn. now apply rowsFrom_sorted in Hrows.
Qed.

(** A conversation of 120 messages, one per millisecond. *)
Definition busyStore : Store :=
  {| conversations :=
       [ {| cid := "c1"; title := "Conversation #1"; displayIndex := 1;
            cCreatedAt := 0; lastMessageAt := Some 119 |} ];
     messages :=
       map (fun i => {| id := ("m" ++ JS.showInt (Z.of_nat i))%string;
                        conversationId := "c1";
                        role := if Nat.even i then User else Assistant;
                        content := "turn"; createdAt := Z.of_nat i |})
           (seq 0 120) |}.

Definition pageOf (r : Response) : option PaginatedResult :=
  match body r with
  | Page _ page => Some page
  | _ => None
  end.

Definition pageSummary (r : Response) : option (nat * bool * bool) :=
  match pageOf r with
  | Some page =>
      Some (List.length (items page), hasMore page,
            match nextCursor page with Some _ => true | None => false end)
  | None => None
  end.

(** C7, at limits outside 1..100.  With [limit=150] on a conversation of
    120 messages the query fetches 101 rows, not 151; all 101 are
    returned, with [hasMore = false] and no [nextCursor], although 19 older
    messages remain.  With [limit=-1] two rows are fetched and one is
    returned, more than the limit, with [hasMore = true]. *)
Theorem page_limit_unclamped :
  buildPaginationQuery None 150 = JS.Ok {| take := 101; cursor := None |}
  /\ rowsFrom busyStore "c1" None
     = JS.Ok (sortBy createdAtDesc (messages busyStore))
  /\ List.length (messages busyStore) = 120%nat
  /\ status (getConversation busyStore "c1" None (Some "150")) = 200
  /\ pageSummary (getConversation busyStore "c1" None (Some "150"))
     = Some (101%nat, false, false)
  /\ buildPaginationQuery None (-1) = JS.Ok {| take := 2; cursor := None |}
  /\ pageSummary (getConversation busyStore "c1" None (Some "-1"))
     = Some (1%nat, true, true).
Proof. vm_compute. repeat split. Qed.

End PageFacts.

(** ** The order of messages *)

Section OrderTheorems.
Import Prisma.

(** The order the specification names: by creation timestamp, and by
    identifier among messages with the same timestamp. *)
Definition byTimestampThenId (a b : Client.Message) : Prop :=
  Client.createdAt a < Client.createdAt b
  \/ (Client.createdAt a = Client.createdAt b
      /\ String.leb (Client.id a) (Client.id b) = true).

Definition clientOldestFirst (a b : Client.Message) : Prop :=
  Client.createdAt a <= Client.createdAt b.

Lemma byTime_total a b : Client.byTime a b = true \/ Client.byTime b a = true.
Proof. unfold Client.byTime. rewrite !Z.leb_le. lia. Qed.

Lemma byTime_trans a b c :
  Client.byTime a b = true -> Client.byTime b c = true -> Client.byTime a c = true.
Proof. unfold Client.byTime. rewrite !Z.leb_le. lia. Qed.

(** C9 as stated fails on two messages of the same millisecond received
    with the greater identifier first: the displayed list keeps them in
    that order. *)
Lemma ties_not_broken_by_identifier :
  let first := {| Client.id := "b"; Client.role := User;
                  Client.content := "Hello"; Client.createdAt := 1000;
                  Client.isError := false |} in
  let second := {| Client.id := "a"; Client.role := Assistant;
                   Client.content := "Hi"; Client.createdAt := 1000;
                   Client.isError := false |} in
  Client.displayed (Some [first; second]) = [first; second]
  /\ ~ StronglySorted byTimestampThenId (Client.displayed (Some [first; second])).
Proof.
  intros first second. split; [reflexivity|].
  change (Client.displayed (Some [first; second])) with [first; second].
  intro H. inversion H as [|? ? _ Hall]; subst.
  inversion Hall as [|? ? Hfs _]; subst.
  destruct Hfs as [Hlt | [_ Hle]].
  - simpl in Hlt. lia.
  - vm_compute in Hle. discriminate Hle.
Qed.

(** C9, amended.  Every read path orders the messages by creation
    timestamp alone: the history sent to the provider and the displayed
    list oldest first, a page newest first.  The displayed list is a
    rearrangement of the items received in which the messages of one
    timestamp keep the order they were received in. *)
Theorem read_paths_ordered_by_timestamp :
  forall db conv,
    StronglySorted oldestFirst (findManyHistory db conv)
    /\ (forall q rows,
          Pagination.findManyPage db conv q = JS.Ok rows ->
          StronglySorted newestFirst rows)
    /\ (forall received,
          StronglySorted clientOldestFirst (Client.displayed (Some received))
          /\ Permutation (Client.displayed (Some received)) received
          /\ forall t,
               filter (fun m => Client.createdAt m =? t)
                      (Client.displayed (Some received))
               = filter (fun m => Client.createdAt m =? t) received).
Proof.
  intros db conv. split; [apply sortBy_oldestFirst|].
  split; [intros q rows; apply findManyPage_sorted|].
  intro received. unfold Client.displayed. split; [|split].
  - eapply StronglySorted_weaken;
      [|apply (sortBy_sorted Client.byTime byTime_total byTime_trans)].
    intros a b H. unfold inOrder, Client.byTime in H. now apply Z.leb_le in H.
  - apply sortBy_perm.
  - intro t. apply sortBy_stable.
    intros x y B Hx Hy. unfold Client.byTime in B.
    apply Z.leb_gt in B. apply Z.eqb_eq in Hx, Hy. lia.
Qed.

End OrderTheorems.

(** ** Instances *)

Section Instances.
Import Prisma Messages.

Definition mockEnv : Llm.ProcessEnv :=
  {| Llm.LLM_PROVIDER := None;
     Llm.MOCK_LLM_BASE_URL := Some "http://mock-llm:8080";
     Llm.OLLAMA_BASE_URL := None;
     Llm.OLLAMA_MODEL := None |}.

(** A provider that answers after 100 ms. *)
Definition answering (text : string) (_ : Z) : Llm.Attempt :=
  {| Llm.latency := 100; Llm.reply := Llm.HttpResponse 200 (Some text) |}.

(** A provider that is down. *)
Definition failing (_ : Z) : Llm.Attempt :=
  {| Llm.latency := 100; Llm.reply := Llm.HttpResponse 503 None |}.

(** A provider that takes a second. *)
Definition slow (_ : Z) : Llm.Attempt :=
  {| Llm.latency := 1000; Llm.reply := Llm.HttpResponse 200 (Some "late") |}.

Definition world (clock : Z) (tag : string) (abort : option Z)
  (provider : Z -> Llm.Attempt) : World :=
  {| now := clock;
     userMessageId := ("u" ++ tag)%string; userMessageAt := clock + 1;
     processEnv := mockEnv;
     callStart := clock + 2; abortAt := abort; script := fun _ => provider;
     replyId := ("r" ++ tag)%string; replyAt := clock + 150;
     stampAt := clock + 151 |}.

Definition chat (cid_ : string) (index : Z) : Conversation :=
  {| cid := cid_; title := Conversations.defaultTitle index;
     displayIndex := index; cCreatedAt := 0; lastMessageAt := None |}.

Definition twoChats : Store :=
  {| conversations := [chat "c1" 1; chat "c2" 2];
     messages :=
       [ {| id := "m9"; conversationId := "c2"; role := Assistant;
            content := "An answer given elsewhere"; createdAt := 500 |} ] |}.

Definition oneChat : Store :=
  {| conversations := [chat "c1" 1]; messages := [] |}.

Definition hello (tag : string) (at_ : Z) : Message :=
  {| id := ("u" ++ tag)%string; conversationId := "c1"; role := User;
     content := "Hello"; createdAt := at_ |}.

(** C10 at a request to [c1] that names an assistant message of [c2]. *)
Lemma existing_message_reused_unchecked_witness :
  let m := {| id := "m9"; conversationId := "c2"; role := Assistant;
              content := "An answer given elsewhere"; createdAt := 500 |} in
  let w := world 1000 "1" None (answering "Hi") in
  findUniqueMessage twoChats "m9" = Some m
  /\ conversationId m <> "c1"
  /\ role m <> User
  /\ resolveUserMessage twoChats "c1" (userTurn "Hello" (Some "m9")) w
     = JS.Ok (twoChats, m)
  /\ exists reply,
       body (snd (postMessage twoChats "c1" (clientBody "Hello" (Some "m9")) w))
       = Sent m reply.
Proof.
  intros m w.
  destruct (existing_message_reused_unchecked twoChats "c1" (chat "c1" 1)
              "Hello" "m9" m w eq_refl) as (H1 & _ & H3).
  - simpl. lia.
  - discriminate.
  - reflexivity.
  - split; [reflexivity|]. split; [discriminate|]. split; [discriminate|].
    split; [exact H1|]. apply H3. reflexivity.
Defined.


(** C5 at a provider that answers 503 every time. *)
Lemma retry_policy_witness :
  (forall k, 0 <= Llm.latency (failing k))
  /\ Schedule None 0 (Llm.events (Llm.post 0 None failing))
  /\ Llm.events (Llm.post 0 None failing)
     = [ Llm.Requested 0 100 (inr (Llm.badStatus 503)); Llm.OnRetry 1 500;
         Llm.Requested 600 700 (inr (Llm.badStatus 503)); Llm.OnRetry 2 1000;
         Llm.Requested 1700 1800 (inr (Llm.badStatus 503)) ]
  /\ 0 <= Llm.finishedAt (Llm.post 0 None failing) <= 0 + 12 * 1000.
Proof.
  assert (Hlat : forall k, 0 <= Llm.latency (failing k)) by (intro k; simpl; lia).
  destruct (retry_policy 0 None failing Hlat) as (H1 & _ & _ & _ & H5 & _).
  split; [exact Hlat|]. split; [exact H1|]. split; [reflexivity | exact H5].
Defined.




(** C9 at the two read paths of a store and a list received out of order. *)
Lemma read_paths_ordered_by_timestamp_witness :
  let early := {| Client.id := "m1"; Client.role := User;
                  Client.content := "Hello"; Client.createdAt := 1000;
                  Client.isError := false |} in
  let late := {| Client.id := "m2"; Client.role := Assistant;
                 Client.content := "Hi"; Client.createdAt := 2000;
                 Client.isError := false |} in
  Pagination.findManyPage twoChats "c2"
    {| Pagination.take := 21; Pagination.cursor := None |}
  = JS.Ok (messages twoChats)
  /\ StronglySorted newestFirst (messages twoChats)
  /\ Client.displayed (Some [late; early]) = [early; late]
  /\ StronglySorted clientOldestFirst (Client.displayed (Some [late; early])).
Proof.
  intros early late.
  destruct (read_paths_ordered_by_timestamp twoChats "c2") as (_ & H2 & H3).
  split; [reflexivity|].
  split; [apply (H2 {| Pagination.take := 21; Pagination.cursor := None |});
          reflexivity|].
  split; [reflexivity|]. apply H3.
Defined.

End Instances.

(** * Further properties *)

(** ** More on the send pipeline *)

Section SendProperties.
Import Prisma Messages.

Lemma sendMessageSchema_throws reqBody e :
  sendMessageSchema reqBody = JS.Throw e -> e = JS.ZodError.
Proof.
  unfold sendMessageSchema. destruct reqBody; try (intro H; now injection H).
  destruct (parseContent _); [|intro H; now injection H].
  destruct (parseRole _); [|intro H; now injection H].
  destruct (parseOptionalString _); [discriminate | intro H; now injection H].
Qed.

Lemma finish_status db conv um w :
  In (status (snd (finish db conv um w))) [201; 499; 500; 502].
Proof.
  unfold finish.
  destruct (getCompletion db conv w) as [llmResponse | e].
  - destruct (createMessage db _ _ conv Assistant llmResponse) as [[db1 reply] | e];
      [|simpl; tauto].
    destruct (updateLastMessageAt db1 conv _); simpl; tauto.
  - destruct e as [|msg]; [|destruct (JS.includes "aborted" msg)]; simpl; tauto.
Qed.

(** X1. A request answered with 400 or 404 has left the store as it was: 400
    is the answer to a body the schema refuses, 404 the answer to a valid
    body for a conversation that does not exist. *)
Theorem rejected_send_leaves_store :
  forall db conv reqBody w,
    let r := postMessage db conv reqBody w in
    status (snd r) = 400 \/ status (snd r) = 404 ->
    fst r = db
    /\ ((status (snd r) = 400 /\ sendMessageSchema reqBody = JS.Throw JS.ZodError)
        \/ (status (snd r) = 404 /\ findUniqueConversation db conv = None
            /\ exists b, sendMessageSchema reqBody = JS.Ok b)).
Proof.
  intros db conv reqBody w r. unfold r, postMessage.
  destruct (sendMessageSchema reqBody) as [b | e] eqn:S.
  - destruct (findUniqueConversation db conv) eqn:C.
    + destruct (resolveUserMessage db conv b w) as [[db1 um] | e].
      * pose proof (finish_status db1 conv um w) as Hs.
        intros [H | H]; rewrite H in Hs; simpl in Hs;
          repeat (destruct Hs as [Hs | Hs]; try discriminate Hs); contradiction.
      * simpl. intros [H | H]; discriminate H.
    + simpl. intros [H | _]; [discriminate H|].
      split; [reflexivity|]. right. eauto.
  - apply sendMessageSchema_throws in S. subst e. simpl.
    intros [_ | H]; [|discriminate H]. auto.
Qed.

(** X2. What a request answered with 201 has written: the assistant message,
    with the identifier and timestamp the store gave it and the completion
    as content, after the rows that were there when the user message had
    been resolved; and the timestamp of the conversation, of that one only. *)
Theorem successful_send_writes :
  forall db conv reqBody w db' resp,
    postMessage db conv reqBody w = (db', resp) ->
    status resp = 201 ->
    exists b db1 um completion,
      sendMessageSchema reqBody = JS.Ok b
      /\ resolveUserMessage db conv b w = JS.Ok (db1, um)
      /\ getCompletion db1 conv w = JS.Ok completion
      /\ let reply := {| id := replyId w; conversationId := conv;
                         role := Assistant; content := completion;
                         createdAt := replyAt w |} in
         body resp = Sent um reply
         /\ messages db' = messages db1 ++ [reply]
         /\ conversations db'
            = map (fun c => if String.eqb (cid c) conv
                            then touch (stampAt w) c else c)
                  (conversations db).
Proof.
  intros db conv reqBody w db' resp. unfold postMessage.
  destruct (sendMessageSchema reqBody) as [b | e];
    [|destruct e; intro H; injection H as <- <-; discriminate].
  destruct (findUniqueConversation db conv);
    [|intro H; injection H as <- <-; discriminate].
  destruct (resolveUserMessage db conv b w) as [[db1 um] | e] eqn:R;
    [|intro H; injection H as <- <-; discriminate].
  unfold finish.
  destruct (getCompletion db1 conv w) as [completion | e] eqn:G.
  - destruct (createMessage db1 _ _ conv Assistant completion)
      as [[db2 reply] | e] eqn:C;
      [|intro H; injection H as <- <-; discriminate].
    destruct (updateLastMessageAt db2 conv (stampAt w)) as [db3 | e] eqn:U;
      [|intro H; injection H as <- <-; discriminate].
    intro H. injection H as <- <-. intros _.
    exists b, db1, um, completion.
    split; [reflexivity|]. split; [exact R|]. split; [exact G|].
    apply createMessage_inv in C as (Hr & Hm & Hc & _).
    pose proof (resolve_store _ _ _ _ _ _ R) as [Hc1 _].
    unfold updateLastMessageAt in U.
    destruct (findUniqueConversation db2 conv); [|discriminate U].
    injection U as <-. simpl.
    split; [now rewrite Hr|]. split; [now rewrite Hm, Hr|].
    now rewrite Hc, Hc1.
  - destruct e as [|msg]; [|destruct (JS.includes "aborted" msg)];
      intro H; injection H as <- <-; discriminate.
Qed.

Lemma findFirstDuplicate_some db conv r text since d :
  findFirstDuplicate db conv r text since = Some d ->
  In d (messages db)
  /\ conversationId d = conv /\ role d = r /\ content d = text
  /\ since <= createdAt d.
Proof.
  unfold findFirstDuplicate. rewrite hd_sortBy_newest. intro N.
  apply newest_In, filter_In in N as [Hin Hd].
  split; [exact Hin|].
  unfold recentDuplicate in Hd.
  apply andb_prop in Hd as [Hd H4]. apply andb_prop in Hd as [Hd H3].
  apply andb_prop in Hd as [H1 H2].
  apply String.eqb_eq in H1, H3. apply Z.leb_le in H4.
  repeat split; try assumption.
  destruct (role d), r; (reflexivity || discriminate H2).
Qed.

Lemma findFirstDuplicate_none db conv r text since m :
  findFirstDuplicate db conv r text since = None ->
  In m (messages db) -> recentDuplicate conv r text since m = false.
Proof.
  unfold findFirstDuplicate. rewrite hd_sortBy_newest. intros N Hm.
  apply newest_nil in N.
  destruct (recentDuplicate conv r text since m) eqn:E; [|reflexivity].
  assert (H : In m (filter (recentDuplicate conv r text since) (messages db)))
    by (apply filter_In; auto).
  rewrite N in H. contradiction.
Qed.

(** X3. The content search returns a row that matches, none of the matching
    rows being more recent; it returns nothing only if no row matches. *)
Theorem duplicate_search_most_recent :
  forall db conv r text since,
    match findFirstDuplicate db conv r text since with
    | Some d =>
        In d (messages db)
        /\ conversationId d = conv /\ role d = r /\ content d = text
        /\ since <= createdAt d
        /\ forall m, In m (messages db) ->
                     recentDuplicate conv r text since m = true ->
                     createdAt m <= createdAt d
    | None =>
        forall m, In m (messages db) ->
                  recentDuplicate conv r text since m = false
    end.
Proof.
  intros db conv r text since.
  destruct (findFirstDuplicate db conv r text since) as [d|] eqn:F.
  - destruct (findFirstDuplicate_some _ _ _ _ _ _ F) as (H0 & H1 & H2 & H3 & H4).
    repeat split; try assumption.
    intros m Hm Hrm. unfold findFirstDuplicate in F.
    rewrite hd_sortBy_newest in F.
    apply (newest_max _ _ F). apply filter_In. auto.
  - intros m. now apply findFirstDuplicate_none.
Qed.

Lemma fresh_turn_facts db conv b w db1 um :
  JS.truthy (existingMessageId b) = false ->
  resolveUserMessage db conv b w = JS.Ok (db1, um) ->
  conversationId um = conv /\ role um = bRole b /\ content um = bContent b.
Proof.
  intros Hno. unfold resolveUserMessage, lookupExisting. rewrite Hno.
  destruct (findFirstDuplicate db conv (bRole b) (bContent b) _) as [d|] eqn:D.
  - apply findFirstDuplicate_some in D.
    intro H. injection H as <- <-. tauto.
  - intro H. apply createMessage_inv in H as (-> & _). simpl. auto.
Qed.

(** X4. Without an [existingMessageId] the user message of the request
    carries the request's content and role in the target conversation, and
    the history handed to the provider contains that turn. *)
Theorem fresh_turn_reaches_provider :
  forall db conv b w db1 um,
    JS.truthy (existingMessageId b) = false ->
    resolveUserMessage db conv b w = JS.Ok (db1, um) ->
    conversationId um = conv /\ role um = bRole b /\ content um = bContent b
    /\ In (roleName (bRole b), bContent b) (llmMessages db1 conv).
Proof.
  intros db conv b w db1 um Hno Hres.
  pose proof (resolve_persisted _ _ _ _ _ _ Hres) as Hin.
  pose proof (fresh_turn_facts _ _ _ _ _ _ Hno Hres) as Hum.
  destruct Hum as (H1 & H2 & H3). repeat split; try assumption.
  unfold llmMessages. apply in_map_iff. exists um.
  split; [now rewrite H2, H3|].
  unfold findManyHistory. apply sortBy_In. apply filter_In.
  split; [exact Hin | now apply String.eqb_eq].
Qed.

(** X5. Once every stored message with the same conversation, role and
    content is older than five minutes, sending the content again creates a
    new user message with the identifier and timestamp the store assigns. *)
Theorem resend_after_window_creates :
  forall db conv c text w,
    findUniqueConversation db conv = Some c ->
    findUniqueMessage db (userMessageId w) = None ->
    (forall m, In m (messages db) -> sameTurn conv text m = true ->
               createdAt m < now w - fiveMinutes) ->
    let fresh := {| id := userMessageId w; conversationId := conv; role := User;
                    content := text; createdAt := userMessageAt w |} in
    resolveUserMessage db conv (userTurn text None) w
    = JS.Ok ({| conversations := conversations db;
                messages := messages db ++ [fresh] |}, fresh).
Proof.
  intros db conv c text w Hc Hid Hold fresh.
  unfold resolveUserMessage, lookupExisting. simpl.
  destruct (findFirstDuplicate db conv User text (now w - fiveMinutes))
    as [d|] eqn:D.
  - apply findFirstDuplicate_some in D as (Hin & H1 & H2 & H3 & H4).
    assert (sameTurn conv text d = true).
    { unfold sameTurn. rewrite H1, H2, H3, !String.eqb_refl. reflexivity. }
    specialize (Hold d Hin H). lia.
  - unfold createMessage. now rewrite Hid, Hc.
Qed.

(** *** Integrity of the store *)

(** Identifiers are unique in both tables and every message belongs to a
    stored conversation. *)
Definition Integrity (db : Store) : Prop :=
  NoDup (map cid (conversations db))
  /\ NoDup (map id (messages db))
  /\ forall m, In m (messages db) ->
               findUniqueConversation db (conversationId m) <> None.

Lemma kept_keys_unique {Row Key} (key : Row -> Key) (keep : Row -> bool)
  (rows : list Row) :
  NoDup (map key rows) -> NoDup (map key (filter keep rows)).
Proof.
  intro Hnd. induction rows as [|row rows IH]; [exact Hnd|].
  cbn [map] in Hnd. apply NoDup_cons_iff in Hnd as [Hfresh Hrest].
  cbn [filter]. destruct (keep row); [|exact (IH Hrest)].
  cbn [map]. apply NoDup_cons; [|exact (IH Hrest)].
  rewrite in_map_iff. intros (other & Hsame & Hin).
  apply filter_In in Hin as [Hin _].
  apply Hfresh, in_map_iff. now exists other.
Qed.

Lemma appended_key_unique {Row Key} (key : Row -> Key) (rows : list Row) (row : Row) :
  NoDup (map key rows) -> ~ In (key row) (map key rows) ->
  NoDup (map key (rows ++ [row])).
Proof.
  intros Hnd Hnew. rewrite map_app. cbn [map].
  apply NoDup_app; [exact Hnd | repeat constructor; auto |].
  intros k Hk [<- | []]. exact (Hnew Hk).
Qed.

Lemma find_none_not_in (l : list Message) (i : string) :
  find (fun m => String.eqb (id m) i) l = None -> ~ In i (map id l).
Proof.
  intros F Hin. apply in_map_iff in Hin as (m & Hm & Hin).
  pose proof (find_none _ _ F m Hin) as E. simpl in E.
  rewrite Hm, String.eqb_refl in E. discriminate E.
Qed.

(** A stored message is the one its identifier finds. *)
Lemma find_by_unique_id (l : list Message) (m : Message) :
  NoDup (map id l) -> In m l ->
  find (fun x => String.eqb (id x) (id m)) l = Some m.
Proof.
  induction l as [|a l IH]; intros Hnd Hin; [contradiction|].
  cbn [map] in Hnd. apply NoDup_cons_iff in Hnd as [Hfresh Hrest].
  cbn [find]. destruct Hin as [-> | Hin].
  - now rewrite String.eqb_refl.
  - destruct (String.eqb (id a) (id m)) eqn:E; [|now apply IH].
    apply String.eqb_eq in E. exfalso. apply Hfresh. rewrite E.
    now apply in_map.
Qed.

Lemma createMessage_integrity db newId at_ conv r text db' m :
  Integrity db -> createMessage db newId at_ conv r text = JS.Ok (db', m) ->
  Integrity db'.
Proof.
  intros (Hc & Hm & Hfk) C.
  assert (Hconv : findUniqueConversation db conv <> None).
  { unfold createMessage in C. destruct (findUniqueMessage db newId); [discriminate|].
    destruct (findUniqueConversation db conv); [discriminate | discriminate C]. }
  apply createMessage_inv in C as (Hdef & Hms & Hcs & Hnone).
  unfold Integrity, findUniqueConversation in *. rewrite Hcs, Hms.
  split; [exact Hc|]. split.
  - apply appended_key_unique; [exact Hm|].
    rewrite Hdef. simpl. now apply find_none_not_in.
  - intros x Hx. apply in_app_or in Hx as [Hx | [<- | []]]; [now apply Hfk|].
    rewrite Hdef. exact Hconv.
Qed.

Lemma updateLastMessageAt_integrity db conv at_ db' :
  Integrity db -> updateLastMessageAt db conv at_ = JS.Ok db' -> Integrity db'.
Proof.
  intros (Hc & Hm & Hfk) U.
  apply updateLastMessageAt_inv in U as (Hms & Hcs & _).
  unfold Integrity. rewrite Hcs, Hms. split; [exact Hc|]. split; [exact Hm|].
  intros x Hx. unfold findUniqueConversation.
  apply (find_cid_map (conversations db)); [exact Hcs | now apply Hfk].
Qed.

Lemma resolve_integrity db conv b w db1 um :
  Integrity db -> resolveUserMessage db conv b w = JS.Ok (db1, um) ->
  Integrity db1.
Proof.
  intro Hi. unfold resolveUserMessage.
  destruct (lookupExisting db b); [intro H; now injection H as <- <-|].
  destruct (findFirstDuplicate db conv (bRole b) (bContent b) _);
    [intro H; now injection H as <- <-|].
  now apply createMessage_integrity.
Qed.

Lemma finish_integrity db conv um w :
  Integrity db -> Integrity (fst (finish db conv um w)).
Proof.
  intro Hi. unfold finish.
  destruct (getCompletion db conv w) as [completion | e].
  - destruct (createMessage db _ _ conv Assistant completion)
      as [[db1 reply] | e] eqn:C; [|exact Hi].
    pose proof (createMessage_integrity _ _ _ _ _ _ _ _ Hi C) as Hi1.
    destruct (updateLastMessageAt db1 conv (stampAt w)) as [db2 | e] eqn:U;
      [|exact Hi1].
    now apply (updateLastMessageAt_integrity _ _ _ _ Hi1 U).
  - destruct e as [|msg]; [|destruct (JS.includes "aborted" msg)]; exact Hi.
Qed.

Lemma postMessage_integrity db conv reqBody w :
  Integrity db -> Integrity (fst (postMessage db conv reqBody w)).
Proof.
  intro Hi. unfold postMessage.
  destruct (sendMessageSchema reqBody) as [b | e]; [|destruct e; exact Hi].
  destruct (findUniqueConversation db conv); [|exact Hi].
  destruct (resolveUserMessage db conv b w) as [[db1 um] | e] eqn:R; [|exact Hi].
  apply finish_integrity. now apply (resolve_integrity _ _ _ _ _ _ Hi R).
Qed.

Lemma find_in_longer {Row} (p : Row -> bool) (l more : list Row) :
  find p l <> None -> find p (l ++ more) <> None.
Proof.
  induction l as [|a l IH]; [contradiction|].
  cbn [find app]. destruct (p a); [discriminate | exact IH].
Qed.

Lemma createConversation_integrity db newId at_ t index db' c :
  Integrity db -> Conversations.createConversation db newId at_ t index = JS.Ok (db', c) ->
  Integrity db'.
Proof.
  intros (Hc & Hm & Hfk) C.
  assert (Hnew : ~ In newId (map cid (conversations db))).
  { unfold Conversations.createConversation in C.
    destruct (existsb (fun c0 => String.eqb (cid c0) newId) (conversations db)) eqn:E;
      [discriminate|].
    intro Hin. apply in_map_iff in Hin as (c0 & Hc0 & Hin).
    assert (existsb (fun c1 => String.eqb (cid c1) newId) (conversations db) = true).
    { apply existsb_exists. exists c0. split; [exact Hin | now apply String.eqb_eq]. }
    congruence. }
  apply createConversation_inv in C as (Hdef & Hcs & Hms & _).
  unfold Integrity, findUniqueConversation in *. rewrite Hcs, Hms.
  split; [|split; [exact Hm|]].
  - apply appended_key_unique; [exact Hc | now rewrite Hdef].
  - intros x Hx. apply find_in_longer. now apply Hfk.
Qed.

Lemma find_kept (l : list Conversation) (keep : Conversation -> bool) (k : string) c :
  find (fun x => String.eqb (cid x) k) l = Some c -> keep c = true ->
  find (fun x => String.eqb (cid x) k) (filter keep l) <> None.
Proof.
  induction l as [|a l IH]; [discriminate|].
  cbn [find filter]. destruct (String.eqb (cid a) k) eqn:E.
  - intro H. injection H as ->. intros ->. cbn [find]. rewrite E. discriminate.
  - intros F K. destruct (keep a); [cbn [find]; rewrite E|]; now apply IH.
Qed.

(** X6. Every store the handlers can produce keeps identifiers unique and
    every message attached to a stored conversation. *)
Theorem reachable_store_integrity :
  forall db, Reachable db -> Integrity db.
Proof.
  induction 1 as [| db reqBody newId at_ _ IH | db newId at_ t index db' c _ IH C
                  | db conv reqBody _ IH | db conv _ IH | db conv reqBody w _ IH].
  - repeat split; try constructor. intros m [].
  - destruct (Conversations.postConversation db reqBody newId at_) as [db' resp] eqn:P.
    apply postConversation_inv in P as [-> | (t & c & C)]; [exact IH|].
    now apply (createConversation_integrity _ _ _ _ _ _ _ IH C).
  - now apply (createConversation_integrity _ _ _ _ _ _ _ IH C).
  - unfold Conversations.patchConversation.
    destruct (Conversations.updateConversationSchema reqBody) as [t | e];
      [|destruct e; exact IH].
    destruct (findUniqueConversation db conv); [|exact IH].
    destruct IH as (Hc & Hm & Hfk).
    assert (Hcids : map cid (map (fun c' => if String.eqb (cid c') conv
                                            then Conversations.rename t c' else c')
                                 (conversations db))
                    = map cid (conversations db)).
    { rewrite map_map. apply map_ext. intro x.
      destruct (String.eqb (cid x) conv); reflexivity. }
    unfold Integrity. simpl. rewrite Hcids.
    split; [exact Hc|]. split; [exact Hm|].
    intros x Hx. unfold findUniqueConversation. simpl.
    apply (find_cid_map (conversations db)); [exact Hcids | now apply Hfk].
  - unfold Conversations.deleteConversation.
    destruct (findUniqueConversation db conv); [|exact IH].
    destruct IH as (Hc & Hm & Hfk). unfold Integrity. simpl.
    split; [now apply kept_keys_unique|]. split; [now apply kept_keys_unique|].
    intros x Hx. apply filter_In in Hx as [Hx Hne].
    specialize (Hfk x Hx). unfold findUniqueConversation in *. simpl.
    destruct (find (fun c0 => String.eqb (cid c0) (conversationId x))
                   (conversations db)) as [c0|] eqn:F; [|contradiction].
    apply (find_kept _ _ _ c0 F).
    apply find_some in F as [_ E]. apply String.eqb_eq in E. now rewrite E.
  - now apply postMessage_integrity.
Qed.

(** *** Retrying and the first exchange *)

Lemma schema_fresh_inv text b :
  sendMessageSchema (clientBody text None) = JS.Ok b -> b = userTurn text None.
Proof.
  unfold sendMessageSchema, clientBody. simpl.
  destruct ((1 <=? Z.of_nat (String.length text))
            && (Z.of_nat (String.length text) <=? 10000)); [|discriminate].
  intro H. now injection H as <-.
Qed.

Lemma finish_502 db conv um w db' resp :
  finish db conv um w = (db', resp) -> status resp = 502 ->
  db' = db /\ body resp = Unavailable "LLM service unavailable" (id um).
Proof.
  unfold finish.
  destruct (getCompletion db conv w) as [completion | e].
  - destruct (createMessage db _ _ conv Assistant completion) as [[db1 reply] | e];
      [|intro H; injection H as <- <-; discriminate].
    destruct (updateLastMessageAt db1 conv (stampAt w));
      intro H; injection H as <- <-; discriminate.
  - destruct e as [|msg]; [|destruct (JS.includes "aborted" msg)];
      intro H; injection H as <- <-; (discriminate || auto).
Qed.

Lemma finish_201 db conv um w db' resp :
  finish db conv um w = (db', resp) -> status resp = 201 ->
  exists reply, body resp = Sent um reply
                /\ messages db' = messages db ++ [reply]
                /\ role reply = Assistant /\ conversationId reply = conv
                /\ findUniqueConversation db' conv <> None.
Proof.
  unfold finish.
  destruct (getCompletion db conv w) as [completion | e].
  - destruct (createMessage db _ _ conv Assistant completion)
      as [[db1 reply] | e] eqn:C;
      [|intro H; injection H as <- <-; discriminate].
    destruct (updateLastMessageAt db1 conv (stampAt w)) as [db2 | e] eqn:U;
      intro H; injection H as <- <-; [|discriminate].
    intros _. exists reply.
    assert (Hconv : findUniqueConversation db1 conv <> None).
    { unfold updateLastMessageAt in U.
      destruct (findUniqueConversation db1 conv); [discriminate | discriminate U]. }
    apply createMessage_inv in C as (Hr & Hm & Hc & _).
    apply updateLastMessageAt_inv in U as (Hm2 & Hc2 & _).
    split; [reflexivity|]. split; [now rewrite Hm2, Hm|].
    split; [now rewrite Hr|]. split; [now rewrite Hr|].
    unfold findUniqueConversation in *.
    apply (find_cid_map (conversations db1)); [exact Hc2 | exact Hconv].
  - destruct e as [|msg]; [|destruct (JS.includes "aborted" msg)];
      intro H; injection H as <- <-; discriminate.
Qed.

Lemma unavailable_response db conv text w db1 um :
  resolveUserMessage db conv (userTurn text None) w = JS.Ok (db1, um) ->
  status (snd (postMessage db conv (clientBody text None) w)) = 502 ->
  postMessage db conv (clientBody text None) w
  = (db1, {| status := 502;
             body := Unavailable "LLM service unavailable" (id um) |}).
Proof.
  intros Hres. unfold postMessage.
  destruct (sendMessageSchema (clientBody text None)) as [b | e] eqn:S;
    [|destruct e; discriminate].
  apply schema_fresh_inv in S. subst b.
  destruct (findUniqueConversation db conv); [|discriminate].
  rewrite Hres.
  destruct (finish db1 conv um w) as [dbA respA] eqn:F. simpl. intro H502.
  destruct (finish_502 _ _ _ _ _ _ F H502) as [-> Hb].
  destruct respA as [st bd]. simpl in *. now subst.
Qed.

(** X7. After an answer 502 the identifier it carries names the user message
    the request left in the store. A retry that sends it back as
    [existingMessageId] takes that very message as its user turn and creates
    no other; if the retry succeeds, the assistant reply is the only row it
    adds. *)
Theorem retry_by_id_reuses_message :
  forall db conv text w1 w2 db1 um,
    NoDup (map id (messages db)) ->
    resolveUserMessage db conv (userTurn text None) w1 = JS.Ok (db1, um) ->
    status (snd (postMessage db conv (clientBody text None) w1)) = 502 ->
    id um <> "" ->
    let first := postMessage db conv (clientBody text None) w1 in
    let second := postMessage (fst first) conv (clientBody text (Some (id um))) w2 in
    first = (db1, {| status := 502;
                     body := Unavailable "LLM service unavailable" (id um) |})
    /\ In um (messages db1)
    /\ resolveUserMessage db1 conv (userTurn text (Some (id um))) w2
       = JS.Ok (db1, um)
    /\ second = finish db1 conv um w2
    /\ (status (snd second) = 201 ->
        exists reply, body (snd second) = Sent um reply
                      /\ messages (fst second) = messages db1 ++ [reply]).
Proof.
  intros db conv text w1 w2 db1 um Hnd Hres H502 Hid first second.
  assert (Hfirst : first = (db1, {| status := 502;
                     body := Unavailable "LLM service unavailable" (id um) |}))
    by (now apply unavailable_response).
  assert (Hlen : 1 <= Z.of_nat (String.length text) <= 10000).
  { revert H502. unfold postMessage, sendMessageSchema, clientBody. simpl.
    destruct (1 <=? Z.of_nat (String.length text)) eqn:A;
      [|simpl; discriminate].
    destruct (Z.of_nat (String.length text) <=? 10000) eqn:B;
      [|simpl; discriminate].
    intros _. apply Z.leb_le in A, B. lia. }
  assert (Hconv : findUniqueConversation db conv <> None).
  { revert H502. unfold postMessage. rewrite (schema_fresh _ Hlen).
    destruct (findUniqueConversation db conv); [discriminate | simpl; discriminate]. }
  pose proof (resolve_persisted _ _ _ _ _ _ Hres) as Hin.
  destruct (resolve_store _ _ _ _ _ _ Hres) as [Hc1 Hm1].
  assert (Hnd1 : NoDup (map id (messages db1))).
  { revert Hres. unfold resolveUserMessage, lookupExisting. simpl.
    destruct (findFirstDuplicate db conv User text _).
    - intro H. now injection H as <- <-.
    - intro H. apply createMessage_inv in H as (Hdef & Hms & _ & Hnone).
      rewrite Hms. apply appended_key_unique; [exact Hnd|].
      rewrite Hdef. simpl. now apply find_none_not_in. }
  assert (Hres2 : resolveUserMessage db1 conv (userTurn text (Some (id um))) w2
                  = JS.Ok (db1, um)).
  { unfold resolveUserMessage, lookupExisting. simpl.
    apply String.eqb_neq in Hid. rewrite Hid. simpl.
    unfold findUniqueMessage. now rewrite (find_by_unique_id _ _ Hnd1 Hin). }
  assert (Hsecond : second = finish db1 conv um w2).
  { unfold second. rewrite Hfirst. simpl. unfold postMessage.
    rewrite (schema_retry _ _ Hlen Hid).
    rewrite (findUniqueConversation_ext db db1 conv Hc1).
    destruct (findUniqueConversation db conv); [|contradiction].
    now rewrite Hres2. }
  split; [exact Hfirst|]. split; [exact Hin|]. split; [exact Hres2|].
  split; [exact Hsecond|].
  rewrite Hsecond. intro H201.
  destruct (finish db1 conv um w2) as [dbB respB] eqn:F. simpl in *.
  destruct (finish_201 _ _ _ _ _ _ F H201) as (reply & Hb & Hm & _).
  eauto.
Qed.

(** X8. The first exchange of a conversation: a request with new content
    that is answered with 201 leaves exactly two messages in the
    conversation, the user's and the assistant's, and the first page of the
    conversation holds both, with nothing more to load. *)
Theorem first_exchange :
  forall db conv text w db' resp,
    filter (fun m => String.eqb (conversationId m) conv) (messages db) = [] ->
    postMessage db conv (clientBody text None) w = (db', resp) ->
    status resp = 201 ->
    exists um reply,
      body resp = Sent um reply
      /\ filter (fun m => String.eqb (conversationId m) conv) (messages db')
         = [um; reply]
      /\ role um = User /\ content um = text /\ role reply = Assistant
      /\ pageSummary (Conversations.getConversation db' conv None None)
         = Some (2%nat, false, false).
Proof.
  intros db conv text w db' resp Hempty. unfold postMessage.
  destruct (sendMessageSchema (clientBody text None)) as [b | e] eqn:S;
    [|destruct e; intro H; injection H as <- <-; discriminate].
  apply schema_fresh_inv in S. subst b.
  destruct (findUniqueConversation db conv);
    [|intro H; injection H as <- <-; discriminate].
  destruct (resolveUserMessage db conv (userTurn text None) w)
    as [[db1 um] | e] eqn:R; [|intro H; injection H as <- <-; discriminate].
  intros F H201.
  destruct (finish_201 _ _ _ _ _ _ F H201) as (reply & Hb & Hm & Hr & Hrc & Hconv).
  destruct (fresh_turn_facts db conv (userTurn text None) w db1 um eq_refl R)
    as (Hu1 & Hu2 & Hu3).
  assert (Hm1 : messages db1 = messages db ++ [um]).
  { destruct (resolve_store _ _ _ _ _ _ R) as [_ [Hsame | [Hnew _]]]; [|exact Hnew].
    pose proof (resolve_persisted _ _ _ _ _ _ R) as Hin. rewrite Hsame in Hin.
    assert (In um (filter (fun m => String.eqb (conversationId m) conv) (messages db)))
      by (apply filter_In; split; [exact Hin | now apply String.eqb_eq]).
    rewrite Hempty in H. contradiction. }
  assert (Hrows : filter (fun m => String.eqb (conversationId m) conv) (messages db')
                  = [um; reply]).
  { rewrite Hm, Hm1, !filter_app, Hempty. simpl.
    rewrite Hu1, Hrc, String.eqb_refl. reflexivity. }
  exists um, reply. repeat split; try assumption.
  unfold pageSummary, pageOf, Conversations.getConversation.
  destruct (findUniqueConversation db' conv); [|contradiction].
  cbn [Conversations.limitOf Pagination.buildPaginationQuery JS.truthy negb].
  unfold Pagination.findManyPage, Pagination.rowsFrom.
  cbn [Pagination.cursor Pagination.take]. rewrite Hrows.
  pose proof (sortBy_length createdAtDesc [um; reply]) as Hlen.
  destruct (sortBy createdAtDesc [um; reply]) as [|x [|y [|z rest]]];
    try discriminate Hlen.
  reflexivity.
Qed.

End SendProperties.

(** ** More on the retrying client *)

Section RetryProperties.
Import Llm.

(** X9. A provider that has not answered when the timeout expires: the
    single request is given up after 12000 ms; the timeout error would
    qualify for a retry, but no time is left for one. *)
Theorem hung_provider_not_retried :
  forall start script,
    timeout <= latency (script 0) ->
    post start None script
    = {| events := [Requested start (start + 12000) (inr (timedOut 12000))];
         finishedAt := start + 12000;
         result := inr (timedOut 12000) |}
    /\ retryCondition (timedOut 12000) = true.
Proof.
  intros start script Hlat. split; [|reflexivity].
  unfold post, timeout in *. change (Z.to_nat retries) with 2%nat.
  cbn [attemptLoop]. unfold dispatch. cbn [firedBy].
  assert ((12000 <=? latency (script 0)) = true) as -> by now apply Z.leb_le.
  change (retryCondition (timedOut 12000)) with true. cbv iota.
  replace (12000 - (start + 12000 - start) - retryDelay (0 + 1)) with (-500)
    by (change (retryDelay (0 + 1)) with 500; lia).
  reflexivity.
Qed.

(** X10. A failure that qualifies for a retry, followed by an answer: the
    call returns the answer of the second request, which starts 500 ms after
    the failure, as long as both requests and the delay fit in the timeout. *)
Theorem transient_failure_recovered :
  forall start script error field,
    0 <= latency (script 0) ->
    0 <= latency (script 1) ->
    settle (reply (script 0)) = inr error ->
    retryCondition error = true ->
    settle (reply (script 1)) = inl field ->
    latency (script 0) + 500 + latency (script 1) < timeout ->
    let failed := start + latency (script 0) in
    let done := failed + 500 + latency (script 1) in
    post start None script
    = {| events := [Requested start failed (inr error); OnRetry 1 500;
                    Requested (failed + 500) done (inl field)];
         finishedAt := done;
         result := inl field |}.
Proof.
  intros start script error field H0 H1 S0 R S1 Hfit failed done.
  unfold post, timeout in *. change (Z.to_nat retries) with 2%nat.
  cbn [attemptLoop]. unfold dispatch. cbn [firedBy].
  assert ((12000 <=? latency (script 0)) = false) as -> by (apply Z.leb_gt; lia).
  rewrite S0, R.
  change (0 + 1) with 1. change (retryDelay 1) with 500.
  replace (start + latency (script 0) - start) with (latency (script 0)) by lia.
  assert ((12000 - latency (script 0) - 500 <=? 0) = false) as ->
    by (apply Z.leb_gt; lia).
  assert ((12000 - latency (script 0) - 500 <=? latency (script 1)) = false) as ->
    by (apply Z.leb_gt; lia).
  rewrite S1. unfold done, failed. repeat f_equal; lia.
Qed.

End RetryProperties.

(** ** More on pages and cursors *)

Section PageProperties.
Import Prisma Pagination Conversations.

Lemma slice0_firstn (l : list Message) (limit : Z) :
  exists n, slice0 l limit = firstn n l.
Proof. unfold slice0. destruct (limit <? 0); eauto. Qed.

(** X11. Whatever the cursor and the limit of the request, a page never
    holds more than 101 messages, and they are in descending order of
    creation. *)
Theorem page_never_exceeds_cap :
  forall db conv cur limitParam page,
    pageOf (getConversation db conv cur limitParam) = Some page ->
    (List.length (items page) <= 101)%nat
    /\ StronglySorted newestFirst (items page).
Proof.
  intros db conv cur limitParam page. unfold pageOf, getConversation.
  destruct (findUniqueConversation db conv) as [c|]; [|discriminate].
  destruct (buildPaginationQuery cur (limitOf limitParam)) as [q|] eqn:Q;
    [|discriminate].
  destruct (findManyPage db conv q) as [fetched|] eqn:F; [|discriminate].
  cbn [body]. intro H. injection H as <-.
  pose proof (buildPaginationQuery_take _ _ _ Q) as Ht.
  pose proof (findManyPage_sorted _ _ _ _ F) as Hs.
  assert (Hlen : (List.length fetched <= 101)%nat).
  { unfold findManyPage in F.
    destruct (rowsFrom db conv (cursor q)); [|discriminate].
    injection F as <-. rewrite length_firstn. lia. }
  unfold createCursorPagination. cbn [items].
  destruct (limitOf limitParam <? Z.of_nat (List.length fetched)); [|auto].
  destruct (slice0_firstn fetched (limitOf limitParam)) as [n ->].
  split; [rewrite length_firstn; lia | now apply StronglySorted_firstn].
Qed.

Lemma encode_nonempty (a : ascii) (s : string) :
  String.eqb (Base64Url.encode (String a s)) "" = false.
Proof. destruct s as [|b [|c s]]; reflexivity. Qed.

Lemma encodeCursor_truthy (data : CursorData) :
  JS.truthy (Some (encodeCursor data)) = true
  /\ JS.orElse (Some (encodeCursor data)) "" = encodeCursor data.
Proof.
  unfold JS.truthy, JS.orElse, encodeCursor, stringifyCursor.
  now rewrite encode_nonempty.
Qed.

(** X12. A cursor the server has issued for a message is taken back: the
    query built from it starts at that message's identifier. *)
Theorem issued_cursor_accepted :
  forall m limit,
    buildPaginationQuery (Some (cursorOf m)) limit
    = JS.Ok {| take := Z.min (Z.max limit 1) 100 + 1;
               cursor := Some (Some (Json.JString (id m))) |}.
Proof.
  intros m limit. unfold buildPaginationQuery, cursorOf.
  destruct (encodeCursor_truthy
              {| cursorId := id m; cursorCreatedAt := toISOString (createdAt m) |})
    as [-> ->].
  cbn [negb]. rewrite cursor_round_trip. reflexivity.
Qed.

End PageProperties.

Section BoundaryProperties.
Import Prisma Pagination Conversations.

Lemma last_map_Some (l : list Message) (b : Message) :
  last (map Some l) None = Some b -> exists front, l = front ++ [b].
Proof.
  induction l as [|x l IH]; [discriminate|].
  destruct l as [|y l].
  - cbn. intro H. injection H as <-. now exists [].
  - intro H. destruct (IH H) as [front E]. exists (x :: front).
    cbn [app]. now rewrite <- E.
Qed.

Lemma nextCursor_last (fetched : list Message) (limit : Z) (c : string) :
  nextCursor (createCursorPagination fetched limit) = Some c ->
  exists front b,
    items (createCursorPagination fetched limit) = front ++ [b]
    /\ c = cursorOf b.
Proof.
  unfold createCursorPagination. cbn [nextCursor items].
  destruct (limit <? Z.of_nat (List.length fetched)); [|discriminate].
  destruct (last (map Some (slice0 fetched limit)) None) as [b|] eqn:L;
    [|discriminate].
  cbn [option_map]. intro H. injection H as <-.
  destruct (last_map_Some _ _ L) as [front E]. now exists front, b.
Qed.

Lemma newer_rows_before (l1 l2 : list Message) (b : Message) :
  StronglySorted newestFirst (l1 ++ b :: l2) ->
  forall x, In x l1 -> createdAt b <= createdAt x.
Proof.
  induction l1 as [|a l1 IH]; cbn [app]; intros Hs x Hin; [contradiction|].
  apply StronglySorted_inv in Hs as [Hs Hall]. destruct Hin as [-> | Hin].
  - rewrite Forall_forall in Hall. apply Hall, in_elt.
  - now apply IH.
Qed.

Lemma other_instants_before (l1 l2 : list Message) (b : Message) :
  NoDup (map createdAt (l1 ++ b :: l2)) ->
  forall x, In x l1 -> createdAt x <> createdAt b.
Proof.
  rewrite map_app. cbn [map]. intros Hnd x Hin E.
  apply NoDup_remove_2 in Hnd. apply Hnd, in_or_app. left.
  rewrite <- E. now apply in_map.
Qed.

Lemma rows_from_boundary (l1 l2 : list Message) (b : Message) :
  StronglySorted newestFirst (l1 ++ b :: l2) ->
  NoDup (map createdAt (l1 ++ b :: l2)) ->
  filter (fun m => createdAt m <=? createdAt b) (l1 ++ b :: l2)
  = b :: filter (fun m => createdAt m <=? createdAt b) l2.
Proof.
  intros Hs Hnd. rewrite filter_app.
  assert (filter (fun m => createdAt m <=? createdAt b) l1 = []) as ->.
  { induction l1 as [|a l1 IH]; [reflexivity|].
    cbn [filter].
    pose proof (newer_rows_before _ _ _ Hs a (or_introl eq_refl)) as H1.
    pose proof (other_instants_before _ _ _ Hnd a (or_introl eq_refl)) as H2.
    assert ((createdAt a <=? createdAt b) = false) as -> by (apply Z.leb_gt; lia).
    apply IH.
    - cbn [app] in Hs. now apply StronglySorted_inv in Hs.
    - cbn [app map] in Hnd. now apply NoDup_cons_iff in Hnd. }
  cbn [app filter]. now rewrite Z.leb_refl.
Qed.

Lemma boundary_repeated :
  forall db conv limitParam page1 c,
    NoDup (map id (messages db)) ->
    NoDup (map createdAt
             (filter (fun m => String.eqb (conversationId m) conv) (messages db))) ->
    1 <= limitOf limitParam <= 100 ->
    pageOf (getConversation db conv None limitParam) = Some page1 ->
    nextCursor page1 = Some c ->
    exists front boundary page2,
      items page1 = front ++ [boundary]
      /\ c = cursorOf boundary
      /\ In boundary (messages db)
      /\ pageOf (getConversation db conv (Some c) limitParam) = Some page2
      /\ hd_error (items page2) = Some boundary
      /\ Forall (fun m => createdAt m <= createdAt boundary) (items page2).
Proof.
  intros db conv limitParam page1 c Hids Htimes Hl H1 Hc.
  unfold pageOf, getConversation in *.
  destruct (findUniqueConversation db conv) as [c0|]; [|discriminate].
  set (limit := limitOf limitParam) in *.
  set (rows := sortBy createdAtDesc
                 (filter (fun m => String.eqb (conversationId m) conv) (messages db))).
  assert (Q1 : buildPaginationQuery None limit
               = JS.Ok {| take := Z.min (Z.max limit 1) 100 + 1; cursor := None |})
    by reflexivity.
  destruct (page_within_bounds db conv None limit _ rows Hl Q1 eq_refl)
    as (_ & F1 & I1 & _).
  rewrite Q1, F1 in H1. cbn [body] in H1. injection H1 as <-.
  destruct (nextCursor_last _ _ _ Hc) as (front & b & E & ->).
  rewrite I1 in E.
  assert (Hrow : In b rows).
  { apply (In_firstn (Z.to_nat limit)). rewrite E. apply in_or_app. right. now left. }
  assert (Hin : In b (messages db)).
  { unfold rows in Hrow. apply sortBy_In in Hrow. now apply filter_In in Hrow. }
  assert (Q2 : buildPaginationQuery (Some (cursorOf b)) limit
               = JS.Ok {| take := Z.min (Z.max limit 1) 100 + 1;
                          cursor := Some (Some (Json.JString (id b))) |}).
  { unfold buildPaginationQuery, cursorOf.
    destruct (encodeCursor_truthy
                {| cursorId := id b; cursorCreatedAt := toISOString (createdAt b) |})
      as [-> ->].
    cbn [negb]. rewrite cursor_round_trip. reflexivity. }
  assert (R2 : rowsFrom db conv (Some (Some (Json.JString (id b))))
               = JS.Ok (filter (fun m => createdAt m <=? createdAt b) rows)).
  { unfold rowsFrom, findUniqueMessage. now rewrite (find_by_unique_id _ _ Hids Hin). }
  destruct (page_within_bounds db conv _ limit _ _ Hl Q2 R2) as (_ & F2 & I2 & _).
  rewrite Q2, F2. cbn [body].
  exists front, b, (createCursorPagination
                      (firstn (Z.to_nat (limit + 1))
                         (filter (fun m => createdAt m <=? createdAt b) rows)) limit).
  rewrite I1, I2.
  destruct (in_split _ _ Hrow) as (l1 & l2 & Hsplit).
  assert (Hsorted : StronglySorted newestFirst (l1 ++ b :: l2))
    by (rewrite <- Hsplit; apply sortBy_newestFirst).
  assert (Hdistinct : NoDup (map createdAt (l1 ++ b :: l2))).
  { rewrite <- Hsplit. eapply Permutation_NoDup; [|exact Htimes].
    apply Permutation_map, Permutation_sym, sortBy_perm. }
  repeat (split; [easy|]). rewrite Hsplit, (rows_from_boundary _ _ _ Hsorted Hdistinct).
  destruct (Z.to_nat limit) as [|n] eqn:N; [lia|]. cbn [firstn hd_error].
  split; [reflexivity|].
  constructor; [lia|]. apply Forall_forall. intros x Hx.
  apply In_firstn in Hx. apply filter_In in Hx as [_ Hx]. now apply Z.leb_le.
Qed.

(** X13. The cursor is inclusive. When the newest page of a conversation
    (all identifiers and all timestamps of the conversation distinct, limit
    between 1 and 100) announces a next cursor, that cursor names the last
    message of the page, and the page fetched with it begins with that same
    message: the boundary message is delivered twice. *)
Theorem next_page_repeats_boundary :
  forall db conv limitParam page1 c,
    NoDup (map id (messages db)) ->
    NoDup (map createdAt
             (filter (fun m => String.eqb (conversationId m) conv) (messages db))) ->
    1 <= limitOf limitParam <= 100 ->
    pageOf (getConversation db conv None limitParam) = Some page1 ->
    nextCursor page1 = Some c ->
    exists front boundary page2,
      items page1 = front ++ [boundary]
      /\ c = cursorOf boundary
      /\ In boundary (messages db)
      /\ pageOf (getConversation db conv (Some c) limitParam) = Some page2
      /\ hd_error (items page2) = Some boundary
      /\ Forall (fun m => createdAt m <= createdAt boundary) (items page2).
Proof. exact boundary_repeated. Qed.

(** X14. [handleLoadOlder] asks for the page at the cached [nextCursor] with
    limit 20 and puts its items in front of the cached ones, nothing being
    removed: as the cursor is inclusive, the displayed list then holds the
    boundary message twice. *)
Theorem load_older_shows_boundary_twice :
  forall db conv page1 c,
    NoDup (map id (messages db)) ->
    NoDup (map createdAt
             (filter (fun m => String.eqb (conversationId m) conv) (messages db))) ->
    pageOf (getConversation db conv None (Some "20")) = Some page1 ->
    nextCursor page1 = Some c ->
    exists page2,
      pageOf (getConversation db conv (Some c) (Some "20")) = Some page2
      /\ ~ NoDup (map Client.id
                    (Client.displayed
                       (Some (Client.mergeOlder
                                (map Client.ofStored (items page2))
                                (map Client.ofStored (items page1)))))).
Proof.
  intros db conv page1 c Hids Htimes H1 Hc.
  assert (Hl : 1 <= limitOf (Some "20") <= 100) by (vm_compute; split; discriminate).
  destruct (boundary_repeated db conv _ page1 c Hids Htimes Hl H1 Hc)
    as (front & b & page2 & E1 & _ & _ & H2 & Hhd & _).
  exists page2. split; [exact H2|].
  destruct (items page2) as [|b' rest]; [discriminate|].
  cbn [hd_error] in Hhd. injection Hhd as ->.
  unfold Client.displayed, Client.mergeOlder. intro Hnd.
  eapply Permutation_NoDup in Hnd;
    [|apply Permutation_map, (sortBy_perm Client.byTime)].
  rewrite E1 in Hnd. cbn [map app] in Hnd.
  apply NoDup_cons_iff in Hnd as [Hfresh _]. apply Hfresh.
  rewrite !map_app. apply in_or_app. right. apply in_or_app. right. now left.
Qed.

End BoundaryProperties.

(** ** More on the conversation routes *)

Section ConversationProperties.
Import Prisma Pagination Conversations.

Lemma nextDisplayIndex_free db :
  existsb (fun c => displayIndex c =? nextDisplayIndex db) (conversations db) = false.
Proof.
  destruct (existsb _ _) eqn:E; [|reflexivity]. exfalso.
  apply existsb_exists in E as (c & Hin & Hc). apply Z.eqb_eq in Hc.
  unfold nextDisplayIndex in Hc. destruct (maxConversation db) as [m|] eqn:M.
  - apply maxConversation_spec in M as [_ Hmax]. specialize (Hmax c Hin). lia.
  - apply maxConversation_none in M. rewrite M in Hin. contradiction.
Qed.

Lemma nextDisplayIndex_above db c :
  In c (conversations db) -> displayIndex c < nextDisplayIndex db.
Proof.
  intro Hin. unfold nextDisplayIndex. destruct (maxConversation db) as [m|] eqn:M.
  - apply maxConversation_spec in M as [_ Hmax]. specialize (Hmax c Hin). lia.
  - apply maxConversation_none in M. rewrite M in Hin. contradiction.
Qed.

Lemma fresh_cid db newId :
  ~ In newId (map cid (conversations db)) ->
  existsb (fun c => String.eqb (cid c) newId) (conversations db) = false
  /\ findUniqueConversation db newId = None.
Proof.
  intro Hfresh. split.
  - destruct (existsb _ _) eqn:E; [|reflexivity]. exfalso.
    apply existsb_exists in E as (c & Hin & Hc). apply String.eqb_eq in Hc.
    apply Hfresh. rewrite <- Hc. now apply in_map.
  - unfold findUniqueConversation. destruct (find _ _) as [c|] eqn:F; [|reflexivity].
    exfalso. apply find_some in F as [Hin Hc]. apply String.eqb_eq in Hc.
    apply Hfresh. rewrite <- Hc. now apply in_map.
Qed.

Lemma find_appended (l : list Conversation) (c : Conversation) :
  find (fun x => String.eqb (cid x) (cid c)) l = None ->
  find (fun x => String.eqb (cid x) (cid c)) (l ++ [c]) = Some c.
Proof.
  induction l as [|a l IH]; cbn [find app].
  - now rewrite String.eqb_refl.
  - destruct (String.eqb (cid a) (cid c)); [discriminate | exact IH].
Qed.

Lemma no_rows_of (l : list Message) (conv : string) :
  (forall m, In m l -> conversationId m <> conv) ->
  filter (fun m => String.eqb (conversationId m) conv) l = [].
Proof.
  intro H. induction l as [|a l IH]; [reflexivity|].
  cbn [filter].
  assert (String.eqb (conversationId a) conv = false) as ->
    by (apply String.eqb_neq, H; now left).
  apply IH. intros m Hm. apply H. now right.
Qed.

(** X15. A creation that follows the requests before it never fails: on a
    consistent store, with a valid body and an identifier the store has not
    used, the answer is 201, the counter of the new conversation lies above
    every existing one, and fetching the new conversation gives an empty
    page. *)
Theorem creation_succeeds :
  forall db reqBody t newId at_,
    Integrity db ->
    createConversationSchema reqBody = JS.Ok t ->
    ~ In newId (map cid (conversations db)) ->
    exists c,
      postConversation db reqBody newId at_
      = ({| conversations := conversations db ++ [c]; messages := messages db |},
         {| status := 201; body := One c |})
      /\ c = {| cid := newId;
                title := match t with
                         | Some text => text
                         | None => defaultTitle (nextDisplayIndex db)
                         end;
                displayIndex := nextDisplayIndex db;
                cCreatedAt := at_;
                lastMessageAt := None |}
      /\ (forall c', In c' (conversations db) -> displayIndex c' < displayIndex c)
      /\ getConversation
           {| conversations := conversations db ++ [c]; messages := messages db |}
           newId None None
         = {| status := 200;
              body := Page c {| items := []; nextCursor := None;
                                prevCursor := None; hasMore := false |} |}.
Proof.
  intros db reqBody t newId at_ (_ & _ & Hfk) Hbody Hfresh.
  destruct (fresh_cid db newId Hfresh) as [Hid Hnone].
  eexists. split; [|split; [reflexivity|split]].
  - unfold postConversation, createConversation.
    now rewrite Hbody, Hid, nextDisplayIndex_free.
  - intros c' Hin. cbn [displayIndex]. now apply nextDisplayIndex_above.
  - unfold getConversation, findUniqueConversation. cbn [conversations].
    match goal with
    | |- context [find _ (_ ++ [?c])] =>
        pose proof (find_appended (conversations db) c Hnone) as Fa
    end.
    cbn [cid] in Fa. rewrite Fa.
    change (buildPaginationQuery None (limitOf None))
      with (JS.Ok {| take := 21; cursor := None |}).
    unfold findManyPage, rowsFrom. cbn [cursor messages].
    rewrite no_rows_of; [reflexivity|].
    intros m Hm E. apply (Hfk m Hm). now rewrite E.
Qed.

Lemma find_removed (l : list Conversation) (conv : string) :
  find (fun c => String.eqb (cid c) conv)
       (filter (fun c => negb (String.eqb (cid c) conv)) l) = None.
Proof.
  induction l as [|a l IH]; [reflexivity|].
  cbn [filter]. destruct (String.eqb (cid a) conv) eqn:E; cbn [negb]; [exact IH|].
  cbn [find]. now rewrite E.
Qed.

Lemma find_others (l : list Conversation) (conv other : string) :
  other <> conv ->
  find (fun c => String.eqb (cid c) other)
       (filter (fun c => negb (String.eqb (cid c) conv)) l)
  = find (fun c => String.eqb (cid c) other) l.
Proof.
  intro Hne. induction l as [|a l IH]; [reflexivity|].
  cbn [filter find]. destruct (String.eqb (cid a) conv) eqn:E; cbn [negb].
  - apply String.eqb_eq in E.
    assert (String.eqb (cid a) other = false) as ->
      by (apply String.eqb_neq; congruence).
    exact IH.
  - cbn [find]. destruct (String.eqb (cid a) other); [reflexivity | exact IH].
Qed.

(** X16. [DELETE /:id] answers 404 and changes nothing when the conversation
    is unknown; otherwise it answers 204, the conversation and exactly its
    messages are gone, every other conversation is found as before, and
    from then on fetching it answers 404 and a send to it answers 400 or 404
    and changes nothing. *)
Theorem delete_cascades :
  forall db conv db' resp,
    deleteConversation db conv = (db', resp) ->
    (resp = notFound /\ db' = db /\ findUniqueConversation db conv = None)
    \/ (status resp = 204
        /\ findUniqueConversation db conv <> None
        /\ findUniqueConversation db' conv = None
        /\ (forall m, In m (messages db')
                      <-> In m (messages db) /\ conversationId m <> conv)
        /\ (forall other, other <> conv ->
              findUniqueConversation db' other = findUniqueConversation db other)
        /\ (forall cur limitParam, getConversation db' conv cur limitParam = notFound)
        /\ (forall reqBody w,
              fst (Messages.postMessage db' conv reqBody w) = db'
              /\ (Messages.status (snd (Messages.postMessage db' conv reqBody w)) = 400
                  \/ Messages.status (snd (Messages.postMessage db' conv reqBody w))
                     = 404))).
Proof.
  intros db conv db' resp. unfold deleteConversation.
  destruct (findUniqueConversation db conv) as [c|] eqn:F;
    intro H; injection H as <- <-; [right | now left].
  assert (Hgone : findUniqueConversation
                    {| conversations :=
                         filter (fun c => negb (String.eqb (cid c) conv))
                                (conversations db);
                       messages :=
                         filter (fun m => negb (String.eqb (conversationId m) conv))
                                (messages db) |} conv = None)
    by apply find_removed.
  split; [reflexivity|]. split; [discriminate|]. split; [exact Hgone|].
  split; [|split; [|split]].
  - intro m. cbn [messages]. rewrite filter_In, negb_true_iff, String.eqb_neq.
    reflexivity.
  - intros other Hne. now apply find_others.
  - intros cur limitParam. unfold getConversation. now rewrite Hgone.
  - intros reqBody w. unfold Messages.postMessage.
    destruct (Messages.sendMessageSchema reqBody) as [b|e] eqn:S.
    + rewrite Hgone. cbn. auto.
    + apply sendMessageSchema_throws in S as ->. cbn. auto.
Qed.



End ConversationProperties.

(** ** More on the provider call *)

Section ProviderProperties.
Import Prisma Messages.

(** Without an abort signal no request of a call is cancelled. *)
Lemma attemptLoop_no_signal (budget : nat) :
  forall k limit start script error,
    Llm.result (Llm.attemptLoop budget k limit start None script) = inr error ->
    Llm.isCancel error = false.
Proof.
  assert (Hone : forall start limit a finish error,
             Llm.dispatch start limit None a = (finish, inr error) ->
             Llm.isCancel error = false).
  { intros start limit a finish error. unfold Llm.dispatch. cbn [Llm.firedBy].
    destruct (limit <=? Llm.latency a).
    - intro H. now injection H as _ <-.
    - unfold Llm.settle. destruct (Llm.reply a) as [status field | msg].
      + destruct ((200 <=? status) && (status <? 300)); [discriminate|].
        intro H. now injection H as _ <-.
      + intro H. now injection H as _ <-. }
  induction budget as [|b IH]; intros k limit start script error; cbn [Llm.attemptLoop];
    destruct (Llm.dispatch start limit None (script k)) as [finish outcome] eqn:D;
    destruct outcome as [field | e]; cbn [Llm.result]; try discriminate.
  - intro H. injection H as <-. exact (Hone _ _ _ _ _ D).
  - destruct (Llm.retryCondition e);
      [|cbn [Llm.result]; intro H; injection H as <-; exact (Hone _ _ _ _ _ D)].
    destruct (limit - (finish - start) - Llm.retryDelay (k + 1) <=? 0);
      cbn [Llm.result]; [intro H; injection H as <-; exact (Hone _ _ _ _ _ D)|].
    apply IH.
Qed.

(** X18. The adapters take an error for an abort when its message contains
    [aborted]. So a provider call that fails with such a message, although
    no abort signal exists and no request was cancelled, is answered like a
    client cancellation: 499 [Request cancelled], without the identifier of
    the saved user message. *)
Theorem upstream_abort_text_answers_499 :
  forall db conv c reqBody b w db1 um adapter error,
    sendMessageSchema reqBody = JS.Ok b ->
    findUniqueConversation db conv = Some c ->
    resolveUserMessage db conv b w = JS.Ok (db1, um) ->
    Llm.createLlmAdapter (processEnv w) = JS.Ok adapter ->
    abortAt w = None ->
    Llm.result
      (Llm.post (callStart w) None
         (script w (Llm.requestOf adapter (llmMessages db1 conv))))
    = inr error ->
    JS.includes "aborted" (Llm.message error) = true ->
    Llm.isCancel error = false
    /\ postMessage db conv reqBody w
       = (db1, {| status := 499; body := ErrorBody "Request cancelled" |})
    /\ In um (messages db1).
Proof.
  intros db conv c reqBody b w db1 um adapter error Hb Hc Hres Had Hab Herr Htext.
  split; [exact (attemptLoop_no_signal _ _ _ _ _ _ Herr)|].
  split; [|exact (resolve_persisted _ _ _ _ _ _ Hres)].
  unfold postMessage. rewrite Hb, Hc, Hres.
  unfold finish, getCompletion, Llm.complete. rewrite Had, Hab, Herr.
  unfold Llm.isAbort. rewrite Htext, orb_true_r. reflexivity.
Qed.

(** X19. A provider that answers 2xx without the completion field, or with
    an empty one, makes the request succeed: an assistant message with empty
    content is stored and returned with status 201. *)
Theorem empty_completion_stored :
  forall db conv c reqBody b w db1 um adapter field,
    sendMessageSchema reqBody = JS.Ok b ->
    findUniqueConversation db conv = Some c ->
    resolveUserMessage db conv b w = JS.Ok (db1, um) ->
    Llm.createLlmAdapter (processEnv w) = JS.Ok adapter ->
    Llm.result
      (Llm.post (callStart w) (abortAt w)
         (script w (Llm.requestOf adapter (llmMessages db1 conv))))
    = inl field ->
    JS.truthy field = false ->
    findUniqueMessage db1 (replyId w) = None ->
    let reply := {| id := replyId w; conversationId := conv; role := Assistant;
                    content := ""; createdAt := replyAt w |} in
    exists db',
      postMessage db conv reqBody w
      = (db', {| status := 201; body := Sent um reply |})
      /\ messages db' = messages db1 ++ [reply].
Proof.
  intros db conv c reqBody b w db1 um adapter field Hb Hc Hres Had Hok Hempty
         Hfresh reply.
  assert (Hfield : JS.orElse field "" = "").
  { destruct field as [s|]; [|reflexivity]. cbn [JS.truthy JS.orElse] in *.
    apply negb_false_iff in Hempty. now rewrite Hempty. }
  destruct (resolve_store _ _ _ _ _ _ Hres) as [Hconvs _].
  assert (Hc1 : findUniqueConversation db1 conv = Some c)
    by (rewrite (findUniqueConversation_ext _ _ _ Hconvs); exact Hc).
  unfold postMessage. rewrite Hb, Hc, Hres.
  unfold finish, getCompletion, Llm.complete. rewrite Had, Hok, Hfield.
  unfold createMessage. rewrite Hfresh, Hc1.
  unfold updateLastMessageAt, findUniqueConversation in *.
  cbn [conversations messages]. rewrite Hc1.
  eexists. split; reflexivity.
Qed.

(** X20. With [LLM_PROVIDER] unset, [mock] or [ollama] and a variable of
    that provider missing, no adapter can be built: every valid send to an
    existing conversation saves the user message and is answered 502, and
    the provider is not called. *)
Theorem unconfigured_provider_answers_502 :
  forall db conv c reqBody b w db1 um e,
    sendMessageSchema reqBody = JS.Ok b ->
    findUniqueConversation db conv = Some c ->
    resolveUserMessage db conv b w = JS.Ok (db1, um) ->
    JS.orElse (Llm.LLM_PROVIDER (processEnv w)) "mock" = "mock"
    \/ JS.orElse (Llm.LLM_PROVIDER (processEnv w)) "mock" = "ollama" ->
    Llm.createLlmAdapter (processEnv w) = JS.Throw e ->
    postMessage db conv reqBody w
    = (db1, {| status := 502;
               body := Unavailable "LLM service unavailable" (id um) |})
    /\ In um (messages db1).
Proof.
  intros db conv c reqBody b w db1 um e Hb Hc Hres Hprovider Hthrow.
  split; [|exact (resolve_persisted _ _ _ _ _ _ Hres)].
  unfold postMessage. rewrite Hb, Hc, Hres. unfold finish, getCompletion.
  rewrite Hthrow. revert Hthrow. unfold Llm.createLlmAdapter.
  destruct Hprovider as [-> | ->]; cbn [String.eqb Ascii.eqb Bool.eqb andb].
  - destruct (JS.truthy (Llm.MOCK_LLM_BASE_URL (processEnv w))); [discriminate|].
    intro H. injection H as <-. reflexivity.
  - change ("ollama" =? "mock")%string with false.
    change ("ollama" =? "ollama")%string with true. cbv iota.
    destruct (JS.truthy (Llm.OLLAMA_BASE_URL (processEnv w)));
      [destruct (JS.truthy (Llm.OLLAMA_MODEL (processEnv w))); [discriminate|]|];
      intro H; injection H as <-; reflexivity.
Qed.

End ProviderProperties.

(** ** Failed sends on the client *)

Section ClientProperties.
Import Prisma Messages SendHook.

Lemma temp_prefix (rest : string) : String.prefix "temp-" ("temp-" ++ rest) = true.
Proof. now destruct rest. Qed.

Lemma optimistic_marked content stamp at_ saved text :
  markFailed content saved text (optimisticUserMessage content stamp at_)
  = {| shown := {| Client.id := JS.orElse saved ("temp-" ++ JS.showInt stamp);
                   Client.role := User;
                   Client.content := content;
                   Client.createdAt := at_;
                   Client.isError := true |};
       errorMessage := Some text;
       failedUserMessageId := saved |}.
Proof.
  unfold markFailed, optimisticUserMessage.
  cbn [shown Client.id Client.content Client.role].
  now rewrite temp_prefix, String.eqb_refl.
Qed.

(** A marked entry has the saved identifier exactly when it was marked (or
    already had it). *)
Lemma marked_id content saved text (msg : Entry) :
  saved <> "" ->
  Client.id (shown msg) <> saved ->
  (Client.id (shown (markFailed content (Some saved) text msg)) = saved
   /\ failedUserMessageId (markFailed content (Some saved) text msg) = Some saved)
  \/ Client.id (shown (markFailed content (Some saved) text msg)) <> saved.
Proof.
  intros Hne Hid. unfold markFailed.
  destruct (_ && _ && _); [left | now right].
  cbn [shown Client.id failedUserMessageId JS.orElse].
  apply String.eqb_neq in Hne. now rewrite Hne.
Qed.

Lemma retry_lookup content saved text (items : list Entry) (failed : Entry) :
  saved <> "" ->
  (forall e, In e items -> Client.id (shown e) <> saved) ->
  Client.id (shown failed) = saved ->
  failedUserMessageId failed = Some saved ->
  match find (fun msg => String.eqb (Client.id (shown msg)) saved)
             (map (markFailed content (Some saved) text) items ++ [failed]) with
  | Some failedMessage => failedUserMessageId failedMessage
  | None => None
  end = Some saved.
Proof.
  intros Hne Hitems Hid Hfailed. induction items as [|a items IH].
  - cbn [map app find]. now rewrite Hid, String.eqb_refl.
  - cbn [map app find].
    destruct (marked_id content saved text a Hne (Hitems a (or_introl eq_refl)))
      as [[E F] | N].
    + now rewrite E, String.eqb_refl.
    + apply String.eqb_neq in N. rewrite N. apply IH.
      intros e He. apply Hitems. now right.
Qed.

(** X21. After an answer 502 to a first send, the client marks the
    optimistic message as failed under the identifier the server saved, and
    a click on its [Retry] sends that identifier back as
    [existingMessageId], with no new optimistic message: provided the cache
    held no message with that identifier before. *)
Theorem retry_carries_saved_id :
  forall db conv content w db1 um items stamp at_ reason stamp' at',
    resolveUserMessage db conv (userTurn content None) w = JS.Ok (db1, um) ->
    Messages.status (snd (postMessage db conv (clientBody content None) w)) = 502 ->
    id um <> "" ->
    (forall e, In e items -> Client.id (shown e) <> id um) ->
    let sent := sendRequest (Some items) content stamp at_ in
    let response := snd (postMessage db conv (snd sent) w) in
    exists rejection failed,
      Api.settle response reason = Some rejection
      /\ Api.handleError rejection
         = Api.Request {| Api.message := "LLM service unavailable";
                          Api.statusCode := Some 502;
                          Api.messageId := Some (id um);
                          Api.isLlmError := Some true |}
      /\ failed
         = {| shown := {| Client.id := id um;
                          Client.role := User;
                          Client.content := content;
                          Client.createdAt := at_;
                          Client.isError := true |};
              errorMessage := Some "LLM service unavailable. Please try again.";
              failedUserMessageId := Some (id um) |}
      /\ onError (fst (fst sent)) (Api.handleError rejection) content (snd (fst sent))
         = Some (map (markFailed content (Some (id um))
                        "LLM service unavailable. Please try again.") items
                 ++ [failed])
      /\ snd (retryRequest
                (onError (fst (fst sent)) (Api.handleError rejection) content
                         (snd (fst sent)))
                content (id um) stamp' at')
         = clientBody content (Some (id um))
      /\ latestQueryKey
           (snd (fst (retryRequest
                        (onError (fst (fst sent)) (Api.handleError rejection) content
                                 (snd (fst sent)))
                        content (id um) stamp' at'))) = false.
Proof.
  intros db conv content w db1 um items stamp at_ reason stamp' at'
         Hres H502 Hid Hitems sent response.
  pose proof (unavailable_response _ _ _ _ _ _ Hres H502) as Hfirst.
  subst response sent. unfold sendRequest. cbn [onMutate JS.truthy fst snd].
  rewrite Hfirst. cbn [snd].
  assert (Hne : String.eqb (id um) "" = false) by now apply String.eqb_neq.
  eexists. eexists. split; [reflexivity|].
  split; [reflexivity|]. split; [reflexivity|].
  assert (Hcache :
            onError
              (Some (items ++ [optimisticUserMessage content stamp at_]))
              (Api.Request {| Api.message := "LLM service unavailable";
                              Api.statusCode := Some 502;
                              Api.messageId := Some (id um);
                              Api.isLlmError := Some true |})
              content
              {| previousConversation := Some items; latestQueryKey := true |}
            = Some (map (markFailed content (Some (id um))
                           "LLM service unavailable. Please try again.") items
                    ++ [{| shown := {| Client.id := id um;
                                       Client.role := User;
                                       Client.content := content;
                                       Client.createdAt := at_;
                                       Client.isError := true |};
                           errorMessage :=
                             Some "LLM service unavailable. Please try again.";
                           failedUserMessageId := Some (id um) |}])).
  { unfold onError. cbn [latestQueryKey savedMessageId Api.messageId].
    change (errorText _) with "LLM service unavailable. Please try again.".
    rewrite map_app. cbn [map]. rewrite optimistic_marked.
    cbn [JS.orElse]. now rewrite Hne. }
  change (Api.handleError _)
    with (Api.Request {| Api.message := "LLM service unavailable";
                         Api.statusCode := Some 502;
                         Api.messageId := Some (id um);
                         Api.isLlmError := Some true |}).
  rewrite Hcache. split; [reflexivity|].
  unfold retryRequest, handleRetryMessage.
  match goal with
  | |- context [map _ items ++ [?f]] =>
      rewrite (retry_lookup content (id um) _ items f Hid Hitems eq_refl eq_refl)
  end.
  unfold onMutate. cbn [JS.truthy]. rewrite Hne. cbn [negb fst snd].
  split; reflexivity.
Qed.

(** X22. A retry that carries an identifier and fails again leaves the cache
    without the message: [handleRetryMessage] has removed the failed entry,
    [onMutate] adds no optimistic one, and [onError], given a context
    without query key, marks nothing. *)
Theorem failed_retry_drops_message :
  forall items messageContent failedMessageId stamp at_ saved rejection,
    snd (handleRetryMessage (Some items) failedMessageId) = Some saved ->
    saved <> "" ->
    let request := retryRequest (Some items) messageContent failedMessageId stamp at_ in
    let cache := onError (fst (fst request)) (Api.handleError rejection)
                         messageContent (snd (fst request)) in
    snd request = clientBody messageContent (Some saved)
    /\ cache = Some (filter (fun msg =>
                               negb (String.eqb (Client.id (shown msg))
                                                failedMessageId)) items)
    /\ forall shownItems,
         cache = Some shownItems ->
         forall msg, In msg shownItems -> Client.id (shown msg) <> failedMessageId.
Proof.
  intros items messageContent failedMessageId stamp at_ saved rejection
         Hsaved Hne request cache.
  assert (Hreq : request
                 = (Some (filter (fun msg =>
                                    negb (String.eqb (Client.id (shown msg))
                                                     failedMessageId)) items),
                    {| previousConversation := None; latestQueryKey := false |},
                    clientBody messageContent (Some saved))).
  { unfold request, retryRequest. cbn [handleRetryMessage] in *. cbn [snd] in Hsaved.
    rewrite Hsaved. unfold onMutate. cbn [JS.truthy].
    apply String.eqb_neq in Hne. now rewrite Hne. }
  unfold cache. rewrite Hreq. cbn [fst snd]. unfold onError. cbn [latestQueryKey].
  split; [reflexivity|]. split; [reflexivity|].
  intros shownItems H msg Hin. injection H as <-.
  apply filter_In in Hin as [_ Hin]. apply negb_true_iff in Hin.
  now apply String.eqb_neq.
Qed.

Lemma other_answers_carry_no_id db conv reqBody w :
  Messages.status (snd (postMessage db conv reqBody w)) <> 502 ->
  Api.dataMessageId (Api.errorData (Messages.body (snd (postMessage db conv reqBody w))))
  = None.
Proof.
  unfold postMessage.
  destruct (sendMessageSchema reqBody) as [b|e]; [|destruct e; reflexivity].
  destruct (findUniqueConversation db conv); [|reflexivity].
  destruct (resolveUserMessage db conv b w) as [[db1 um]|e]; [|reflexivity].
  unfold finish.
  destruct (getCompletion db1 conv w) as [text|e].
  - destruct (createMessage db1 _ _ conv Assistant text) as [[db2 reply]|e];
      [|reflexivity].
    destruct (updateLastMessageAt db2 conv (stampAt w)); reflexivity.
  - destruct e as [|msg]; [|destruct (JS.includes "aborted" msg)];
      cbn [snd Messages.status]; intro H; (reflexivity || now contradiction H).
Qed.

Lemma handleError_id rejection :
  savedMessageId (Api.handleError rejection)
  = match rejection with
    | Api.Axios code (Some r) _ _ =>
        if match code with
           | Some c => String.eqb c "ECONNABORTED"
           | None => false
           end
        then None
        else if Api.status r =? 499 then None
        else match Api.data r with
             | Some d => Api.dataMessageId d
             | None => None
             end
    | _ => None
    end.
Proof.
  destruct rejection as [|code [r|] request text| |]; try reflexivity.
  - cbn [Api.handleError].
    destruct (match code with Some c => _ | None => _ end); [reflexivity|].
    destruct (Api.status r =? 499); reflexivity.
  - cbn [Api.handleError].
    destruct (match code with Some c => _ | None => _ end); [reflexivity|].
    destruct request; reflexivity.
Qed.

Lemma unsaved_lookup content text (items : list Entry) (failed : Entry) ident :
  (forall e, In e items -> Client.id (shown e) <> ident) ->
  Client.id (shown failed) = ident ->
  find (fun msg => String.eqb (Client.id (shown msg)) ident)
       (map (markFailed content None text) items ++ [failed])
  = Some failed.
Proof.
  intros Hitems Hid. induction items as [|a items IH].
  - cbn [map app find]. now rewrite Hid, String.eqb_refl.
  - cbn [map app find].
    assert (Client.id (shown (markFailed content None text a)) = Client.id (shown a))
      as -> by (unfold markFailed; destruct (_ && _ && _); reflexivity).
    assert (String.eqb (Client.id (shown a)) ident = false) as ->
      by (apply String.eqb_neq, Hitems; now left).
    apply IH. intros e He. apply Hitems. now right.
Qed.

(** X23. Only an answer 502 makes the retry carry an identifier. When a
    first send is answered with another error status (400, 404, 499 or 500),
    or is cancelled on the client, the failed entry keeps its temporary
    identifier and a click on its [Retry] posts the same body as the first
    send, without [existingMessageId]: the server can only recognise the
    retry by its content. *)
Theorem retry_without_saved_id :
  forall db conv content w items stamp at_ reason rejection stamp' at',
    (rejection = Api.Cancelled
     \/ (Messages.status (snd (postMessage db conv (clientBody content None) w)) <> 502
         /\ Api.settle (snd (postMessage db conv (clientBody content None) w)) reason
            = Some rejection)) ->
    (forall e, In e items ->
               Client.id (shown e) <> ("temp-" ++ JS.showInt stamp)%string) ->
    let sent := sendRequest (Some items) content stamp at_ in
    let cache := onError (fst (fst sent)) (Api.handleError rejection) content
                         (snd (fst sent)) in
    exists text,
      cache
      = Some (map (markFailed content None text) items
              ++ [{| shown := {| Client.id := "temp-" ++ JS.showInt stamp;
                                 Client.role := User;
                                 Client.content := content;
                                 Client.createdAt := at_;
                                 Client.isError := true |};
                     errorMessage := Some text;
                     failedUserMessageId := None |}])
      /\ snd (retryRequest cache content ("temp-" ++ JS.showInt stamp) stamp' at')
         = clientBody content None.
Proof.
  intros db conv content w items stamp at_ reason rejection stamp' at'
         Hrej Hitems sent cache.
  assert (Hsaved : savedMessageId (Api.handleError rejection) = None).
  { rewrite handleError_id. destruct Hrej as [-> | [Hstatus Hsettle]]; [reflexivity|].
    unfold Api.settle in Hsettle.
    destruct ((200 <=? _) && (_ <? 300)); [discriminate|].
    injection Hsettle as <-. cbn [Api.status Api.data].
    destruct (match (if _ / 100 =? 4 then _ else _) with
              | Some c => _ | None => _ end); [reflexivity|].
    destruct (_ =? 499); [reflexivity|].
    now apply other_answers_carry_no_id. }
  exists (errorText (Api.handleError rejection)).
  assert (Hcache :
            cache
            = Some (map (markFailed content None
                           (errorText (Api.handleError rejection))) items
                    ++ [{| shown := {| Client.id := "temp-" ++ JS.showInt stamp;
                                       Client.role := User;
                                       Client.content := content;
                                       Client.createdAt := at_;
                                       Client.isError := true |};
                           errorMessage :=
                             Some (errorText (Api.handleError rejection));
                           failedUserMessageId := None |}])).
  { unfold cache, sent, sendRequest. cbn [onMutate JS.truthy fst snd].
    unfold onError. cbn [latestQueryKey]. rewrite Hsaved, map_app. cbn [map].
    now rewrite optimistic_marked. }
  split; [exact Hcache|]. rewrite Hcache.
  unfold retryRequest, handleRetryMessage.
  match goal with
  | |- context [map _ items ++ [?f]] =>
      rewrite (unsaved_lookup content _ items f _ Hitems eq_refl)
  end.
  reflexivity.
Qed.

Lemma server_entry_unmarked content saved text (msg : Entry) :
  String.prefix "temp-" (Client.id (shown msg)) = false ->
  markFailed content saved text msg = msg.
Proof. intro H. unfold markFailed. now rewrite H. Qed.

Lemma shadowed_lookup content saved text ident
  (before after : list Entry) (original : Entry) :
  (forall e, In e before ->
             Client.id (shown e) <> ident
             /\ String.prefix "temp-" (Client.id (shown e)) = false) ->
  Client.id (shown original) = ident ->
  String.prefix "temp-" ident = false ->
  find (fun msg => String.eqb (Client.id (shown msg)) ident)
       (map (markFailed content saved text) (before ++ original :: after))
  = Some original.
Proof.
  intros Hbefore Hid Htemp. induction before as [|a before IH].
  - cbn [app map find]. rewrite server_entry_unmarked by now rewrite Hid.
    now rewrite Hid, String.eqb_refl.
  - cbn [app map find].
    destruct (Hbefore a (or_introl eq_refl)) as [Ha Hta].
    rewrite (server_entry_unmarked _ _ _ a Hta).
    apply String.eqb_neq in Ha. rewrite Ha. apply IH.
    intros e He. apply Hbefore. now right.
Qed.

Lemma find_in_front (p : Entry -> bool) (l more : list Entry) (x : Entry) :
  find p l = Some x -> find p (l ++ more) = Some x.
Proof.
  induction l as [|a l IH]; [discriminate|].
  cbn [app find]. destruct (p a); [auto | exact IH].
Qed.

(** X24. The proviso of X21 is needed. When the server took a message the
    client already shows as the user message of the failed send (it does so
    for a repeated content within five minutes), the failed entry gets the
    identifier of that message; [Retry] then finds the shown message first,
    which has no saved identifier, so the request carries no
    [existingMessageId], and both entries leave the cache. *)
Theorem retry_shadowed_by_shown_message :
  forall db conv content w db1 um before original after stamp at_ reason
         stamp' at',
    resolveUserMessage db conv (userTurn content None) w = JS.Ok (db1, um) ->
    Messages.status (snd (postMessage db conv (clientBody content None) w)) = 502 ->
    id um <> "" ->
    String.prefix "temp-" (id um) = false ->
    original = {| shown := Client.ofStored um; errorMessage := None;
                  failedUserMessageId := None |} ->
    (forall e, In e before ->
               Client.id (shown e) <> id um
               /\ String.prefix "temp-" (Client.id (shown e)) = false) ->
    let sent := sendRequest (Some (before ++ original :: after)) content stamp at_ in
    let response := snd (postMessage db conv (snd sent) w) in
    exists rejection marked kept,
      Api.settle response reason = Some rejection
      /\ onError (fst (fst sent)) (Api.handleError rejection) content (snd (fst sent))
         = Some marked
      /\ In {| shown := {| Client.id := id um;
                           Client.role := User;
                           Client.content := content;
                           Client.createdAt := at_;
                           Client.isError := true |};
               errorMessage := Some "LLM service unavailable. Please try again.";
               failedUserMessageId := Some (id um) |} marked
      /\ snd (retryRequest (Some marked) content (id um) stamp' at')
         = clientBody content None
      /\ fst (fst (retryRequest (Some marked) content (id um) stamp' at'))
         = Some kept
      /\ (forall e, In e kept -> Client.id (shown e) <> id um).
Proof.
  intros db conv content w db1 um before original after stamp at_ reason
         stamp' at' Hres H502 Hid Htemp Horiginal Hbefore sent response.
  pose proof (unavailable_response _ _ _ _ _ _ Hres H502) as Hfirst.
  subst response sent. unfold sendRequest. cbn [onMutate JS.truthy fst snd].
  rewrite Hfirst. cbn [snd].
  assert (Hne : String.eqb (id um) "" = false) by now apply String.eqb_neq.
  eexists. eexists. eexists. split; [reflexivity|].
  change (Api.handleError _)
    with (Api.Request {| Api.message := "LLM service unavailable";
                         Api.statusCode := Some 502;
                         Api.messageId := Some (id um);
                         Api.isLlmError := Some true |}).
  unfold onError. cbn [latestQueryKey savedMessageId Api.messageId].
  change (errorText _) with "LLM service unavailable. Please try again.".
  split; [reflexivity|]. split.
  { rewrite map_app. apply in_or_app. right. cbn [map].
    rewrite optimistic_marked. cbn [JS.orElse]. rewrite Hne. now left. }
  unfold retryRequest, handleRetryMessage. rewrite map_app.
  rewrite (find_in_front _ _ _ original)
    by (apply shadowed_lookup; subst original; auto).
  assert (failedUserMessageId original = None) as -> by now subst original.
  cbn [onMutate JS.truthy fst snd]. split; [reflexivity|]. split; [reflexivity|].
  intros e He. apply in_app_or in He as [He | He].
  - apply filter_In in He as [_ He]. apply negb_true_iff in He.
    now apply String.eqb_neq.
  - destruct He as [<- | []]. cbn [optimisticUserMessage shown Client.id].
    intro E. rewrite <- E, temp_prefix in Htemp. discriminate.
Qed.

End ClientProperties.

(** ** More instances *)

Section MoreInstances.
Import Prisma Messages.

(** [oneChat] after a first send of [Hello] at 1001. *)
Definition greeted : Store :=
  {| conversations := conversations oneChat; messages := [hello "1" 1001] |}.

(** A conversation of two messages. *)
Definition shortChat : Store :=
  {| conversations := [chat "c1" 1];
     messages :=
       [ hello "1" 1000;
         {| id := "r1"; conversationId := "c1"; role := Assistant;
            content := "Hi"; createdAt := 2000 |} ] |}.

(** A provider that answers 503 once and then answers. *)
Definition recovering (attempt : Z) : Llm.Attempt :=
  if attempt =? 0
  then {| Llm.latency := 100; Llm.reply := Llm.HttpResponse 503 None |}
  else {| Llm.latency := 200; Llm.reply := Llm.HttpResponse 200 (Some "Hi") |}.

(** A provider that never answers in time. *)
Definition hung (_ : Z) : Llm.Attempt :=
  {| Llm.latency := 20000; Llm.reply := Llm.HttpResponse 200 (Some "late") |}.

(** Pairwise distinct, decided by comparison. *)
Fixpoint distinct {A} (same : A -> A -> bool) (l : list A) : bool :=
  match l with
  | [] => true
  | x :: rest => negb (existsb (same x) rest) && distinct same rest
  end.

Lemma distinct_NoDup {A} (same : A -> A -> bool) (l : list A) :
  (forall a b, a = b -> same a b = true) ->
  distinct same l = true -> NoDup l.
Proof.
  intros Hsame. induction l as [|x rest IH]; [constructor|].
  cbn [distinct]. intro H. apply andb_true_iff in H as [Hx Hrest].
  constructor; [|now apply IH].
  intro Hin. apply negb_true_iff in Hx.
  assert (existsb (same x) rest = true)
    by (apply existsb_exists; exists x; split; [exact Hin | now apply Hsame]).
  congruence.
Qed.

(** X1 at a send to a conversation that does not exist. *)
Lemma rejected_send_leaves_store_witness :
  let r := postMessage oneChat "c9" (clientBody "Hello" None)
             (world 1000 "1" None (answering "Hi")) in
  status (snd r) = 404 /\ fst r = oneChat.
Proof.
  intro r.
  destruct (rejected_send_leaves_store oneChat "c9" (clientBody "Hello" None)
              (world 1000 "1" None (answering "Hi")) (or_intror eq_refl))
    as [Hstore _].
  split; [reflexivity | exact Hstore].
Defined.

(** X2 at a first send of [Hello] that the provider answers. *)
Lemma successful_send_writes_witness :
  let w := world 1000 "1" None (answering "Hi") in
  let run := postMessage oneChat "c1" (clientBody "Hello" None) w in
  status (snd run) = 201
  /\ exists um completion,
       body (snd run)
       = Sent um {| id := "r1"; conversationId := "c1"; role := Assistant;
                    content := completion; createdAt := 1150 |}
       /\ conversations (fst run)
          = [touch 1151 (chat "c1" 1)].
Proof.
  intros w run.
  destruct (successful_send_writes oneChat "c1" (clientBody "Hello" None) w
              (fst run) (snd run) eq_refl eq_refl)
    as (b & db1 & um & completion & _ & _ & _ & Hb & _ & Hc).
  split; [reflexivity|]. exists um, completion. split; [exact Hb | exact Hc].
Defined.

(** X4 at a first send of [Hello]. *)
Lemma fresh_turn_reaches_provider_witness :
  let w := world 1000 "1" None (answering "Hi") in
  resolveUserMessage oneChat "c1" (userTurn "Hello" None) w
  = JS.Ok (greeted, hello "1" 1001)
  /\ In ("user", "Hello") (llmMessages greeted "c1").
Proof.
  intro w.
  destruct (fresh_turn_reaches_provider oneChat "c1" (userTurn "Hello" None) w
              greeted (hello "1" 1001) eq_refl eq_refl) as (_ & _ & _ & H).
  split; [reflexivity | exact H].
Defined.

(** X5 at a second [Hello] sent more than six minutes after the first. *)
Lemma resend_after_window_creates_witness :
  let w := world 400000 "2" None (answering "Hi") in
  resolveUserMessage greeted "c1" (userTurn "Hello" None) w
  = JS.Ok ({| conversations := conversations greeted;
              messages := [hello "1" 1001; hello "2" 400001] |},
           hello "2" 400001).
Proof.
  intro w.
  apply (resend_after_window_creates greeted "c1" (chat "c1" 1) "Hello" w
           eq_refl eq_refl).
  intros m [<- | []] _. simpl. lia.
Defined.

(** X6 at the store left by a creation and a send. *)
Lemma reachable_store_integrity_witness :
  let created := fst (Conversations.postConversation empty (Json.JObject []) "c1" 5) in
  let sent := fst (postMessage created "c1" (clientBody "Hello" None)
                     (world 1000 "1" None (answering "Hi"))) in
  Reachable sent /\ List.length (messages sent) = 2%nat /\ Integrity sent.
Proof.
  intros created sent.
  assert (Hr : Reachable sent).
  { apply MessageSent. apply Posted. exact Initial. }
  split; [exact Hr|]. split; [reflexivity|].
  exact (reachable_store_integrity sent Hr).
Defined.

(** X7 at a send that fails with 503 and its retry by identifier. *)
Lemma retry_by_id_reuses_message_witness :
  let w1 := world 1000 "1" None failing in
  let w2 := world 5000 "2" None (answering "Hi") in
  let second := postMessage greeted "c1" (clientBody "Hello" (Some "u1")) w2 in
  postMessage oneChat "c1" (clientBody "Hello" None) w1
  = (greeted, {| status := 502;
                 body := Unavailable "LLM service unavailable" "u1" |})
  /\ exists reply, body (snd second) = Sent (hello "1" 1001) reply
                   /\ messages (fst second) = [hello "1" 1001; reply].
Proof.
  intros w1 w2 second.
  destruct (retry_by_id_reuses_message oneChat "c1" "Hello" w1 w2 greeted
              (hello "1" 1001)) as (H1 & _ & _ & _ & H5).
  - constructor.
  - reflexivity.
  - reflexivity.
  - discriminate.
  - split; [exact H1|]. rewrite H1 in H5. apply H5. reflexivity.
Defined.

(** X8 at the first send to an empty conversation. *)
Lemma first_exchange_witness :
  let w := world 1000 "1" None (answering "Hi") in
  let run := postMessage oneChat "c1" (clientBody "Hello" None) w in
  status (snd run) = 201
  /\ pageSummary (Conversations.getConversation (fst run) "c1" None None)
     = Some (2%nat, false, false).
Proof.
  intros w run.
  destruct (first_exchange oneChat "c1" "Hello" w (fst run) (snd run)
              eq_refl eq_refl eq_refl) as (um & reply & _ & _ & _ & _ & _ & H).
  split; [reflexivity | exact H].
Defined.

(** X9 at a provider that needs 20 s. *)
Lemma hung_provider_not_retried_witness :
  Llm.timeout <= Llm.latency (hung 0)
  /\ Llm.events (Llm.post 0 None hung)
     = [Llm.Requested 0 12000 (inr (Llm.timedOut 12000))].
Proof.
  assert (H : Llm.timeout <= Llm.latency (hung 0)) by (vm_compute; discriminate).
  destruct (hung_provider_not_retried 0 hung H) as [Hp _].
  split; [exact H|]. now rewrite Hp.
Defined.

(** X10 at a provider that answers 503 once. *)
Lemma transient_failure_recovered_witness :
  Llm.result (Llm.post 0 None recovering) = inl (Some "Hi")
  /\ Llm.finishedAt (Llm.post 0 None recovering) = 800.
Proof.
  assert (H : Llm.post 0 None recovering
              = {| Llm.events :=
                     [Llm.Requested 0 (0 + 100) (inr (Llm.badStatus 503));
                      Llm.OnRetry 1 500;
                      Llm.Requested (0 + 100 + 500) (0 + 100 + 500 + 200)
                                    (inl (Some "Hi"))];
                   Llm.finishedAt := 0 + 100 + 500 + 200;
                   Llm.result := inl (Some "Hi") |}).
  { apply (transient_failure_recovered 0 recovering (Llm.badStatus 503) (Some "Hi"));
      try reflexivity; simpl; lia. }
  rewrite H. split; reflexivity.
Defined.

(** X11 at [limit=150] on a conversation of 120 messages. *)
Lemma page_never_exceeds_cap_witness :
  let page := Pagination.createCursorPagination
                (firstn 101 (rev (messages busyStore))) 150 in
  pageOf (Conversations.getConversation busyStore "c1" None (Some "150"))
  = Some page
  /\ (List.length (Pagination.items page) <= 101)%nat.
Proof.
  intro page.
  assert (H : pageOf (Conversations.getConversation busyStore "c1" None (Some "150"))
              = Some page) by (vm_compute; reflexivity).
  destruct (page_never_exceeds_cap busyStore "c1" None (Some "150") page H)
    as [Hlen _].
  split; [exact H | exact Hlen].
Defined.

(** X13 at a conversation of two messages read with [limit=1]. *)
Lemma next_page_repeats_boundary_witness :
  let late := {| id := "r1"; conversationId := "c1"; role := Assistant;
                 content := "Hi"; createdAt := 2000 |} in
  let page1 := Pagination.createCursorPagination [late; hello "1" 1000] 1 in
  pageOf (Conversations.getConversation shortChat "c1" None (Some "1")) = Some page1
  /\ Pagination.nextCursor page1 = Some (Pagination.cursorOf late)
  /\ exists page2,
       pageOf (Conversations.getConversation shortChat "c1"
                 (Some (Pagination.cursorOf late)) (Some "1")) = Some page2
       /\ hd_error (Pagination.items page2) = Some late.
Proof.
  intros late page1.
  assert (H1 : pageOf (Conversations.getConversation shortChat "c1" None (Some "1"))
               = Some page1) by (vm_compute; reflexivity).
  assert (Hc : Pagination.nextCursor page1 = Some (Pagination.cursorOf late))
    by reflexivity.
  destruct (next_page_repeats_boundary shortChat "c1" (Some "1") page1
              (Pagination.cursorOf late))
    as (front & boundary & page2 & Hitems & _ & _ & H2 & Hhd & _).
  - apply (distinct_NoDup String.eqb); [intros a b ->; apply String.eqb_refl|].
    reflexivity.
  - apply (distinct_NoDup Z.eqb); [intros a b ->; apply Z.eqb_refl|].
    reflexivity.
  - vm_compute. split; discriminate.
  - exact H1.
  - exact Hc.
  - split; [exact H1|]. split; [exact Hc|]. exists page2. split; [exact H2|].
    rewrite Hhd. f_equal.
    change (Pagination.items page1) with [late] in Hitems.
    destruct front as [|x [|y front]]; [now injection Hitems | |]; discriminate.
Defined.

(** X14 at a conversation of 120 messages. *)
Lemma load_older_shows_boundary_twice_witness :
  let page1 := Pagination.createCursorPagination
                 (firstn 21 (rev (messages busyStore))) 20 in
  pageOf (Conversations.getConversation busyStore "c1" None (Some "20")) = Some page1
  /\ exists c page2,
       Pagination.nextCursor page1 = Some c
       /\ pageOf (Conversations.getConversation busyStore "c1" (Some c) (Some "20"))
          = Some page2
       /\ ~ NoDup (map Client.id
                     (Client.displayed
                        (Some (Client.mergeOlder
                                 (map Client.ofStored (Pagination.items page2))
                                 (map Client.ofStored (Pagination.items page1)))))).
Proof.
  intro page1.
  assert (H1 : pageOf (Conversations.getConversation busyStore "c1" None (Some "20"))
               = Some page1) by (vm_compute; reflexivity).
  split; [exact H1|].
  destruct (Pagination.nextCursor page1) as [c|] eqn:Hc;
    [|vm_compute in Hc; discriminate Hc].
  destruct (load_older_shows_boundary_twice busyStore "c1" page1 c)
    as (page2 & H2 & Hdup).
  - apply (distinct_NoDup String.eqb); [intros a b ->; apply String.eqb_refl|].
    vm_compute. reflexivity.
  - apply (distinct_NoDup Z.eqb); [intros a b ->; apply Z.eqb_refl|].
    vm_compute. reflexivity.
  - exact H1.
  - exact Hc.
  - exists c, page2. auto.
Defined.

(** X15 at the second conversation of a store. *)
Lemma creation_succeeds_witness :
  Conversations.postConversation oneChat (Json.JObject []) "c2" 7
  = ({| conversations := [chat "c1" 1;
                          {| cid := "c2"; title := "Conversation #2";
                             displayIndex := 2; cCreatedAt := 7;
                             lastMessageAt := None |}];
        messages := [] |},
     {| Conversations.status := 201;
        Conversations.body :=
          Conversations.One {| cid := "c2"; title := "Conversation #2";
                               displayIndex := 2; cCreatedAt := 7;
                               lastMessageAt := None |} |}).
Proof.
  destruct (creation_succeeds oneChat (Json.JObject []) None "c2" 7)
    as (c & Hpost & Hc & _).
  - split; [|split].
    + repeat constructor. intros [].
    + constructor.
    + intros m [].
  - reflexivity.
  - intros [H | []]. discriminate H.
  - rewrite Hpost, Hc. reflexivity.
Defined.

(** X16 at the deletion of a conversation that holds a message. *)
Lemma delete_cascades_witness :
  let run := Conversations.deleteConversation twoChats "c2" in
  Conversations.status (snd run) = 204
  /\ messages (fst run) = []
  /\ Conversations.getConversation (fst run) "c2" None None = Conversations.notFound.
Proof.
  intro run.
  destruct (delete_cascades twoChats "c2" (fst run) (snd run) eq_refl)
    as [(H & _) | (Hs & _ & _ & _ & _ & Hget & _)].
  - discriminate H.
  - split; [exact Hs|]. split; [reflexivity | apply Hget].
Defined.


(** The failed entry the client shows after the first send of [Hello] was
    answered 502 with the identifier [u1]. *)
Definition failedHello (at_ : Z) : SendHook.Entry :=
  {| SendHook.shown := {| Client.id := "u1"; Client.role := User;
                          Client.content := "Hello"; Client.createdAt := at_;
                          Client.isError := true |};
     SendHook.errorMessage := Some "LLM service unavailable. Please try again.";
     SendHook.failedUserMessageId := Some "u1" |}.

(** X21 at a first send of [Hello] answered 502, on an empty cache. *)
Lemma retry_carries_saved_id_witness :
  let w := world 1000 "1" None failing in
  let response := snd (postMessage oneChat "c1" (clientBody "Hello" None) w) in
  exists rejection,
    Api.settle response "Bad Gateway" = Some rejection
    /\ SendHook.onError (Some [SendHook.optimisticUserMessage "Hello" 990 991])
         (Api.handleError rejection) "Hello"
         {| SendHook.previousConversation := Some [];
            SendHook.latestQueryKey := true |}
       = Some [failedHello 991]
    /\ snd (SendHook.retryRequest (Some [failedHello 991]) "Hello" "u1" 2000 2001)
       = clientBody "Hello" (Some "u1").
Proof.
  intros w response.
  destruct (retry_carries_saved_id oneChat "c1" "Hello" w greeted (hello "1" 1001)
              [] 990 991 "Bad Gateway" 2000 2001)
    as (rejection & failed & Hs & _ & Hf & Hcache & Hbody & _).
  - reflexivity.
  - reflexivity.
  - discriminate.
  - intros e [].
  - exists rejection. split; [exact Hs|].
    rewrite Hf in Hcache. split; [exact Hcache|].
    rewrite Hcache in Hbody. exact Hbody.
Defined.

(** X22 at a retry by identifier that is cancelled. *)
Lemma failed_retry_drops_message_witness :
  let request := SendHook.retryRequest (Some [failedHello 991]) "Hello" "u1"
                   2000 2001 in
  snd request = clientBody "Hello" (Some "u1")
  /\ SendHook.onError (fst (fst request)) (Api.handleError Api.Cancelled) "Hello"
       (snd (fst request))
     = Some [].
Proof.
  intro request.
  destruct (failed_retry_drops_message [failedHello 991] "Hello" "u1" 2000 2001
              "u1" Api.Cancelled eq_refl) as (Hbody & Hcache & _).
  - discriminate.
  - split; [exact Hbody | exact Hcache].
Defined.

(** X23 at a first send answered 499. *)
Lemma retry_without_saved_id_witness :
  let w := world 1000 "1" (Some 1302) slow in
  let response := snd (postMessage oneChat "c1" (clientBody "Hello" None) w) in
  let rejection :=
    Api.Axios (Some "ERR_BAD_REQUEST")
      (Some {| Api.status := 499; Api.statusText := "";
               Api.data := Some {| Api.error := Some "Request cancelled";
                                   Api.dataMessageId := None |} |})
      true "Request failed with status code 499" in
  Api.settle response "" = Some rejection
  /\ exists cache,
       SendHook.onError (Some [SendHook.optimisticUserMessage "Hello" 990 991])
         (Api.handleError rejection) "Hello"
         {| SendHook.previousConversation := Some [];
            SendHook.latestQueryKey := true |}
       = cache
       /\ snd (SendHook.retryRequest cache "Hello" "temp-990" 2000 2001)
          = clientBody "Hello" None.
Proof.
  intros w response rejection.
  assert (Hs : Api.settle response "" = Some rejection) by reflexivity.
  destruct (retry_without_saved_id oneChat "c1" "Hello" w [] 990 991 ""
              rejection 2000 2001) as (text & Hcache & Hbody).
  - right. split; [discriminate | exact Hs].
  - intros e [].
  - split; [exact Hs|]. eexists. split; [reflexivity | exact Hbody].
Defined.

(** X24 at a second [Hello] sent one second after the first. *)
Lemma retry_shadowed_by_shown_message_witness :
  let w := world 2000 "2" None failing in
  let shownHello := {| SendHook.shown := Client.ofStored (hello "1" 1001);
                       SendHook.errorMessage := None;
                       SendHook.failedUserMessageId := None |} in
  resolveUserMessage greeted "c1" (userTurn "Hello" None) w
  = JS.Ok (greeted, hello "1" 1001)
  /\ exists marked,
       In (failedHello 1991) marked
       /\ snd (SendHook.retryRequest (Some marked) "Hello" "u1" 3000 3001)
          = clientBody "Hello" None.
Proof.
  intros w shownHello.
  destruct (retry_shadowed_by_shown_message greeted "c1" "Hello" w greeted
              (hello "1" 1001) [] shownHello [] 1990 1991 "Bad Gateway" 3000 3001)
    as (rejection & marked & kept & _ & _ & Hin & Hbody & _).
  - reflexivity.
  - reflexivity.
  - discriminate.
  - reflexivity.
  - reflexivity.
  - intros e [].
  - split; [reflexivity|]. exists marked. split; [exact Hin | exact Hbody].
Defined.

End MoreInstances.

Section ProviderInstances.
Import Prisma Messages.

(** A provider whose connection breaks with a message of the HTTP client. *)
Definition broken (_ : Z) : Llm.Attempt :=
  {| Llm.latency := 100; Llm.reply := Llm.NetworkError "stream has been aborted" |}.

(** A provider that answers 200 with no [completion]. *)
Definition mute (_ : Z) : Llm.Attempt :=
  {| Llm.latency := 100; Llm.reply := Llm.HttpResponse 200 None |}.

(** X18 at a provider whose connection breaks with [stream has been aborted]. *)
Lemma upstream_abort_text_answers_499_witness :
  let w := world 1000 "1" None broken in
  abortAt w = None
  /\ postMessage oneChat "c1" (clientBody "Hello" None) w
     = (greeted, {| status := 499; body := ErrorBody "Request cancelled" |}).
Proof.
  intro w.
  destruct (upstream_abort_text_answers_499 oneChat "c1" (chat "c1" 1)
              (clientBody "Hello" None) (userTurn "Hello" None) w greeted
              (hello "1" 1001) (Llm.MockLlmAdapter "http://mock-llm:8080")
              (Llm.networkFailure "stream has been aborted")
              eq_refl eq_refl eq_refl eq_refl eq_refl eq_refl eq_refl)
    as (_ & H & _).
  split; [reflexivity | exact H].
Defined.

(** X19 at a provider that answers 200 with an empty body. *)
Lemma empty_completion_stored_witness :
  let w := world 1000 "1" None mute in
  exists db',
    postMessage oneChat "c1" (clientBody "Hello" None) w
    = (db', {| status := 201;
               body := Sent (hello "1" 1001)
                         {| id := "r1"; conversationId := "c1"; role := Assistant;
                            content := ""; createdAt := 1150 |} |}).
Proof.
  intro w.
  destruct (empty_completion_stored oneChat "c1" (chat "c1" 1)
              (clientBody "Hello" None) (userTurn "Hello" None) w greeted
              (hello "1" 1001) (Llm.MockLlmAdapter "http://mock-llm:8080") None
              eq_refl eq_refl eq_refl eq_refl eq_refl eq_refl eq_refl)
    as (db' & H & _).
  exists db'. exact H.
Defined.

(** X20 at an environment without any of the variables. *)
Lemma unconfigured_provider_answers_502_witness :
  let w := {| now := 1000; userMessageId := "u1"; userMessageAt := 1001;
              processEnv := {| Llm.LLM_PROVIDER := None;
                               Llm.MOCK_LLM_BASE_URL := None;
                               Llm.OLLAMA_BASE_URL := None;
                               Llm.OLLAMA_MODEL := None |};
              callStart := 1002; abortAt := None;
              script := fun _ => answering "Hi";
              replyId := "r1"; replyAt := 1150; stampAt := 1151 |} in
  postMessage oneChat "c1" (clientBody "Hello" None) w
  = (greeted, {| status := 502;
                 body := Unavailable "LLM service unavailable" "u1" |}).
Proof.
  intro w.
  destruct (unconfigured_provider_answers_502 oneChat "c1" (chat "c1" 1)
              (clientBody "Hello" None) (userTurn "Hello" None) w greeted
              (hello "1" 1001)
              (JS.Error "MOCK_LLM_BASE_URL environment variable is required")
              eq_refl eq_refl eq_refl (or_introl eq_refl) eq_refl) as [H _].
  exact H.
Defined.

End ProviderInstances.
